(** * Slicing-and-elaboration driver: a shallow embedding and its properties

    The development embeds the pure and the stateful parts of [script.py]
    (hole discovery, the companion file of a certificate, slice and
    elaboration executors, result ledger, the loops of the orchestrator over
    file names and holes), the scanner of [slice_to_json.py] and the
    elapsed-time parser of [chart.py].  It proves the properties the design
    document states about them, and further properties of the code: frames
    and effects of each stage, what a job prints, starts and appends, what a
    second run does, and round trips of elapsed times.

    Conventions.
    - A Python [str] is a list of Unicode code points ([list Z]); a [bytes]
      object and the contents of a file are lists of byte values ([list Z],
      each in [0, 256)).  Literals are written with [lit].
    - A Python [int] is a [Z]; a [float] is a [pyfloat], a binary64 value kept
      as an integer mantissa and a binary exponent, with every operation
      computed exactly and rounded once (to nearest, ties to even).
    - A call that may raise returns a [py A]: [Ret a] or [Raise e].
    - The file system is a finite map from paths to file contents; the
      external tool is a parameter of the development. *)

From Stdlib Require Import ZArith Lia String Ascii List Bool DecimalN DecimalFacts DecimalPos
  Sorted.
From stdpp Require Import gmap list sorting.

Local Open Scope Z_scope.
Local Open Scope bool_scope.

(* ===================================================================== *)
(** * Part I: definitions *)
(* ===================================================================== *)

(** ** Exceptions and results *)

Inductive exn :=
| OSError            (* open() on a missing or unreadable file *)
| AttributeError     (* .append on a value that is not a list *)
| TypeError          (* str written to a binary file *)
| UnicodeEncodeError (* a lone surrogate met by the utf-8 encoder *)
| OverflowError.     (* int / int too large for a float *)

Inductive py (A : Type) :=
| Ret (a : A)
| Raise (e : exn).
Arguments Ret {A} a.
Arguments Raise {A} e.

Definition py_bind {A B} (x : py A) (f : A -> py B) : py B :=
  match x with
  | Ret a => f a
  | Raise e => Raise e
  end.

Notation "x <- c1 ;;; c2" := (py_bind c1 (fun x => c2))
  (at level 100, c1 at next level, right associativity).

(** ** Text *)

Abbreviation ustring := (list Z) (only parsing).
Abbreviation bytes := (list Z) (only parsing).

Definition lit (s : string) : list Z :=
  map (fun a => Z.of_N (N_of_ascii a)) (list_ascii_of_string s).

Definition ch (s : string) : Z :=
  match s with
  | String a _ => Z.of_N (N_of_ascii a)
  | EmptyString => 0
  end.

(** [s.startswith(p)] *)
Fixpoint starts_with (p s : list Z) : bool :=
  match p, s with
  | [], _ => true
  | _ :: _, [] => false
  | a :: p', b :: s' => (a =? b) && starts_with p' s'
  end.

(** [sub in s] *)
Fixpoint str_in (sub s : list Z) : bool :=
  starts_with sub s ||
  match s with
  | [] => false
  | _ :: t => str_in sub t
  end.

(** [s.count(sub)]: occurrences counted from the left without overlap;
    [skip] is the number of characters still covered by the last match. *)
Fixpoint count_from (sub s : list Z) (skip : nat) : Z :=
  match s with
  | [] => 0
  | _ :: t =>
      match skip with
      | S k => count_from sub t k
      | O => if starts_with sub s
             then 1 + count_from sub t (length sub - 1)
             else count_from sub t 0
      end
  end.

Definition str_count (sub s : list Z) : Z :=
  match sub with
  | [] => Z.of_nat (length s) + 1
  | _ :: _ => count_from sub s 0
  end.

(** [s.rfind(sub)]: index of the last occurrence, -1 when there is none.
    The scan runs from the left and remembers the last match. *)
Fixpoint rfind_from (sub s : list Z) (i acc : Z) : Z :=
  match s with
  | [] => if starts_with sub [] then i else acc
  | _ :: t => rfind_from sub t (i + 1) (if starts_with sub s then i else acc)
  end.

Definition str_rfind (sub s : list Z) : Z := rfind_from sub s 0 (-1).

(** Longest prefix of [s] whose characters satisfy [p], and the rest. *)
Fixpoint span (p : Z -> bool) (s : list Z) : list Z * list Z :=
  match s with
  | [] => ([], [])
  | c :: t => if p c then let '(a, b) := span p t in (c :: a, b) else ([], s)
  end.

(** Whitespace of CPython's Unicode database ([str.isspace], [\s] of [re],
    [str.strip]). *)
Definition is_space (c : Z) : bool :=
  ((9 <=? c) && (c <=? 13)) || ((28 <=? c) && (c <=? 32)) ||
  (c =? 133) || (c =? 160) || (c =? 5760) ||
  ((8192 <=? c) && (c <=? 8202)) || (c =? 8232) || (c =? 8233) ||
  (c =? 8239) || (c =? 8287) || (c =? 12288).

(** ** Decimal text of integers: [str(n)] and back *)

Fixpoint uint_chars (d : Decimal.uint) : list Z :=
  match d with
  | Decimal.Nil => []
  | Decimal.D0 d => 48 :: uint_chars d
  | Decimal.D1 d => 49 :: uint_chars d
  | Decimal.D2 d => 50 :: uint_chars d
  | Decimal.D3 d => 51 :: uint_chars d
  | Decimal.D4 d => 52 :: uint_chars d
  | Decimal.D5 d => 53 :: uint_chars d
  | Decimal.D6 d => 54 :: uint_chars d
  | Decimal.D7 d => 55 :: uint_chars d
  | Decimal.D8 d => 56 :: uint_chars d
  | Decimal.D9 d => 57 :: uint_chars d
  end.

Definition is_digit (c : Z) : bool := (48 <=? c) && (c <=? 57).

(** Value of a run of ASCII digits, as [int(s)] reads it. *)
Definition digits_value (s : list Z) : Z :=
  fold_left (fun acc c => acc * 10 + (c - 48)) s 0.

(** [str(n)] for a non-negative [n] *)
Definition str_of_nat (n : Z) : list Z := uint_chars (N.to_uint (Z.to_N n)).

(** [str(n)] *)
Definition str_of_int (n : Z) : list Z :=
  if n <? 0 then ch "-" :: str_of_nat (- n) else str_of_nat n.

(** ** Binary64 floats, computed exactly *)

(** [FFin m e] is the finite value [m * 2^e] with [0 <= m < 2^53] and
    [-1074 <= e <= 971]; only non-negative values occur in this program. *)
Inductive pyfloat :=
| FNan
| FInf
| FFin (m e : Z).

(** Nearest integer to [n / d] ([d > 0]), ties to even. *)
Definition round_half_even (n d : Z) : Z :=
  let q := n / d in
  let r := n mod d in
  if 2 * r <? d then q
  else if d <? 2 * r then q + 1
  else if Z.even q then q else q + 1.

(** [n / (d * 2^e)] as a fraction of integers. *)
Definition scale (n d e : Z) : Z * Z :=
  if 0 <=? e then (n, d * 2 ^ e) else (n * 2 ^ (- e), d).

(** The binary64 value nearest to the rational [n / d] ([n >= 0], [d > 0]):
    what [int / int], [float(text)] and the float operations below return. *)
Definition to_double (n d : Z) : pyfloat :=
  if n =? 0 then FFin 0 (-1074)
  else
    let k := Z.log2 n - Z.log2 d in
    let e1 := Z.max (k - 52) (-1074) in
    let '(na, da) := scale n d e1 in
    let e := if (na / da <? 2 ^ 52) && (-1074 <? e1) then e1 - 1 else e1 in
    let '(nb, db) := scale n d e in
    let m := round_half_even nb db in
    let '(m, e) := if m =? 2 ^ 53 then (2 ^ 52, e + 1) else (m, e) in
    if 971 <? e then FInf else FFin m e.

(** [a / b] on Python ints ([a >= 0], [b > 0]): correctly rounded, and
    OverflowError when the quotient is too large for a float. *)
Definition int_true_div (a b : Z) : py pyfloat :=
  match to_double a b with
  | FFin m e => Ret (FFin m e)
  | _ => Raise OverflowError
  end.

(** [x * y] and [x / y] on non-negative floats, [y] a positive constant. *)
Definition float_mul (x : pyfloat) (yn yd : Z) : pyfloat :=
  match x with
  | FFin m e => let '(n, d) := scale (m * yn) yd (- e) in to_double n d
  | other => other
  end.

Definition float_is_finite (x : pyfloat) : bool :=
  match x with
  | FFin _ _ => true
  | _ => false
  end.

(** Left-pad with zeros to [width] characters. *)
Definition zero_pad (width : nat) (s : list Z) : list Z :=
  repeat 48 (width - length s)%nat ++ s.

(** [format(x, ".{prec}f")] for a finite non-negative float: the exact value
    rounded to [prec] decimals, ties to even. *)
Definition format_fixed (prec : nat) (x : pyfloat) : list Z :=
  match x with
  | FFin m e =>
      let p := 10 ^ Z.of_nat prec in
      let '(n, d) := scale (m * p) 1 (- e) in
      let r := round_half_even n d in
      match prec with
      | O => str_of_nat r
      | S _ => str_of_nat (r / p) ++ ch "." :: zero_pad prec (str_of_nat (r mod p))
      end
  | FInf => lit "inf"
  | FNan => lit "nan"
  end.

(** ** script.py: human_elapsed *)

Definition human_elapsed (ns : Z) : py (list Z) :=
  if ns <? 1000000 then
    Ret (str_of_int ns ++ lit "ns")
  else if ns <? 1000000000 then
    x <- int_true_div ns 1000000 ;;;
    Ret (format_fixed 0 x ++ lit "ms")
  else if ns <? 60000000000 then
    x <- int_true_div ns 1000000000 ;;;
    Ret (format_fixed 2 x ++ lit "s")
  else
    x <- int_true_div ns 60000000000 ;;;
    Ret (format_fixed 2 x ++ lit "m").

(** ** UTF-8 *)

Definition is_cont (b : Z) : bool := (128 <=? b) && (b <=? 191).

(** Second byte of a three-byte sequence led by [b0] (no overlong forms, no
    surrogates) and of a four-byte sequence (nothing above U+10FFFF). *)
Definition second_of_3 (b0 b1 : Z) : bool :=
  is_cont b1 && negb ((b0 =? 224) && (b1 <? 160)) && negb ((b0 =? 237) && (160 <=? b1)).

Definition second_of_4 (b0 b1 : Z) : bool :=
  is_cont b1 && negb ((b0 =? 240) && (b1 <? 144)) && negb ((b0 =? 244) && (144 <=? b1)).

(** What the decoder does at an error: raise, drop the offending bytes, or
    (json.loads on bytes) raise unless the bytes encode a surrogate. *)
Inductive errors_mode := Strict | Ignore | SurrogatePass.

(** [bs.decode("utf-8", errors=...)], after CPython's decoder.  An invalid
    start byte is an error of one byte; an invalid continuation byte is an
    error covering the bytes before it; a sequence cut by the end of the data
    is an error reaching the end.  [None] is UnicodeDecodeError. *)
Fixpoint utf8_decode (mode : errors_mode) (bs : list Z) : option (list Z) :=
  let bad (resume : option (list Z)) :=
    match mode with
    | Ignore => resume
    | _ => None
    end in
  match bs with
  | [] => Some []
  | b0 :: t0 =>
      if b0 <? 128 then cons b0 <$> utf8_decode mode t0
      else if b0 <? 194 then bad (utf8_decode mode t0)
      else if b0 <? 224 then
        match t0 with
        | [] => bad (Some [])
        | b1 :: t1 =>
            if is_cont b1
            then cons ((b0 - 192) * 64 + (b1 - 128)) <$> utf8_decode mode t1
            else bad (utf8_decode mode t0)
        end
      else if b0 <? 240 then
        match t0 with
        | [] => bad (Some [])
        | b1 :: t1 =>
            if second_of_3 b0 b1 then
              match t1 with
              | [] => bad (Some [])
              | b2 :: t2 =>
                  if is_cont b2
                  then cons ((b0 - 224) * 4096 + (b1 - 128) * 64 + (b2 - 128))
                         <$> utf8_decode mode t2
                  else bad (utf8_decode mode t1)
              end
            else
              match mode, t1 with
              | SurrogatePass, b2 :: t2 =>
                  if (b0 =? 237) && is_cont b1 && is_cont b2
                  then cons ((b0 - 224) * 4096 + (b1 - 128) * 64 + (b2 - 128))
                         <$> utf8_decode mode t2
                  else None
              | _, _ => bad (utf8_decode mode t0)
              end
        end
      else if b0 <? 245 then
        match t0 with
        | [] => bad (Some [])
        | b1 :: t1 =>
            if second_of_4 b0 b1 then
              match t1 with
              | [] => bad (Some [])
              | b2 :: t2 =>
                  if is_cont b2 then
                    match t2 with
                    | [] => bad (Some [])
                    | b3 :: t3 =>
                        if is_cont b3
                        then cons ((b0 - 240) * 262144 + (b1 - 128) * 4096
                                   + (b2 - 128) * 64 + (b3 - 128))
                               <$> utf8_decode mode t3
                        else bad (utf8_decode mode t2)
                    end
                  else bad (utf8_decode mode t1)
              end
            else bad (utf8_decode mode t0)
        end
      else bad (utf8_decode mode t0)
  end.

(** [bs.decode("utf-8", errors="ignore")] never raises. *)
Definition decode_ignore (bs : list Z) : list Z :=
  default [] (utf8_decode Ignore bs).

(** The bytes of one code point; [None] for a surrogate or a value that is
    not a code point. *)
Definition utf8_encode_char (c : Z) : option (list Z) :=
  if c <? 0 then None
  else if c <? 128 then Some [c]
  else if c <? 2048 then Some [192 + c / 64; 128 + c mod 64]
  else if (55296 <=? c) && (c <=? 57343) then None
  else if c <? 65536 then
    Some [224 + c / 4096; 128 + (c / 64) mod 64; 128 + c mod 64]
  else if c <? 1114112 then
    Some [240 + c / 262144; 128 + (c / 4096) mod 64; 128 + (c / 64) mod 64;
          128 + c mod 64]
  else None.

(** [s.encode("utf-8")]; [None] is UnicodeEncodeError. *)
Fixpoint utf8_encode (s : list Z) : option (list Z) :=
  match s with
  | [] => Some []
  | c :: t =>
      match utf8_encode_char c, utf8_encode t with
      | Some b, Some r => Some (b ++ r)
      | _, _ => None
      end
  end.

(** ** Files *)

(** Regular files by path.  A path that is not in the map cannot be opened
    for reading (missing file, dangling link, no permission). *)
Abbreviation filesystem := (gmap (list Z) (list Z)) (only parsing).

(** [open(path, "r", encoding="utf-8", errors="ignore")] and reading the
    text: decoding drops malformed bytes, universal newlines turn "\r\n" and
    "\r" into "\n". *)
Fixpoint universal_newlines (s : list Z) : list Z :=
  match s with
  | [] => []
  | c :: t =>
      if c =? 13 then
        10 :: match t with
              | [] => []
              | c2 :: t2 => if c2 =? 10 then universal_newlines t2
                            else universal_newlines t
              end
      else c :: universal_newlines t
  end.

Definition read_text (fs : gmap (list Z) (list Z)) (path : list Z) : py (list Z) :=
  match fs !! path with
  | Some bs => Ret (universal_newlines (decode_ignore bs))
  | None => Raise OSError
  end.

(** The lines of a text, each with its terminating "\n" (the last one may
    have none). *)
Fixpoint lines_of (s : list Z) : list (list Z) :=
  match s with
  | [] => []
  | c :: t =>
      if c =? 10 then [c] :: lines_of t
      else match lines_of t with
           | [] => [[c]]
           | l :: ls => (c :: l) :: ls
           end
  end.

(** [enumerate(xs, start=i)] *)
Fixpoint enumerate {A} (i : Z) (xs : list A) : list (Z * A) :=
  match xs with
  | [] => []
  | x :: t => (i, x) :: enumerate (i + 1) t
  end.

(** ** script.py: read_file_lines and holes_in_alethe *)

Definition HOLE_MARKER : list Z := lit "TRUST_THEORY_REWRITE".

Definition read_file_lines (fs : gmap (list Z) (list Z)) (path : list Z)
  : py (list (Z * list Z)) :=
  text <- read_text fs path ;;;
  Ret (enumerate 1 (lines_of text)).

(** A character of the class [[^\s\)]]. *)
Definition name_char (c : Z) : bool := negb (is_space c) && negb (c =? ch ")").

(** [STEP_NAME_RE] matched at the start of [s]: the literal "(step", one or
    more whitespace characters, then a non-empty group of name characters.
    Both repetitions are greedy and giving back whitespace never helps (the
    group cannot start with whitespace), so the match is the longest run of
    each. *)
Definition step_name_match (s : list Z) : option (list Z) :=
  if starts_with (lit "(step") s then
    let '(ws, r) := span is_space (drop 5 s) in
    match ws with
    | [] => None
    | _ :: _ =>
        let '(name, _) := span name_char r in
        match name with
        | [] => None
        | _ :: _ => Some name
        end
    end
  else None.

(** [STEP_NAME_RE.search(line)], group 1 of the leftmost match. *)
Fixpoint step_name_search (s : list Z) : option (list Z) :=
  match step_name_match s with
  | Some name => Some name
  | None =>
      match s with
      | [] => None
      | _ :: t => step_name_search t
      end
  end.

(** First loop of [holes_in_alethe]. *)
Fixpoint collect_holes (ls : list (Z * list Z)) : list (list Z * Z) :=
  match ls with
  | [] => []
  | (lineno, line) :: rest =>
      if str_in HOLE_MARKER line then
        match step_name_search line with
        | Some name =>
            if str_in (lit ".") name then collect_holes rest
            else (name, lineno) :: collect_holes rest
        | None => collect_holes rest
        end
      else collect_holes rest
  end.

(** Second loop of [holes_in_alethe]: keep the first entry of each name. *)
Fixpoint uniq_holes (seen : gset (list Z)) (holes : list (list Z * Z))
  : list (list Z * Z) :=
  match holes with
  | [] => []
  | h :: t =>
      if decide (h.1 ∈ seen) then uniq_holes seen t
      else h :: uniq_holes ({[ h.1 ]} ∪ seen) t
  end.

Definition holes_in_alethe (fs : gmap (list Z) (list Z)) (path : list Z)
  : py (list (list Z * Z)) :=
  lines <- read_file_lines fs path ;;;
  Ret (uniq_holes ∅ (collect_holes lines)).

(** ** slice_to_json.py: the scan of one file in main *)

Record command_record := {
  cr_folder : list Z;
  cr_file : list Z;
  cr_command : list Z;
  cr_line : Z;
}.

(** Every marker line with a step name, in order ("." is not filtered and
    nothing is deduplicated there). *)
Fixpoint collect_commands (folder file : list Z) (ls : list (Z * list Z))
  : list command_record :=
  match ls with
  | [] => []
  | (lineno, line) :: rest =>
      if str_in HOLE_MARKER line then
        match step_name_search line with
        | Some name =>
            {| cr_folder := folder; cr_file := file; cr_command := name;
               cr_line := lineno |} :: collect_commands folder file rest
        | None => collect_commands folder file rest
        end
      else collect_commands folder file rest
  end.

(** The body of the loop over files: [try: ... except Exception: continue]. *)
Definition scan_file (fs : gmap (list Z) (list Z)) (folder file fpath : list Z)
  : list command_record :=
  match read_file_lines fs fpath with
  | Ret ls => collect_commands folder file ls
  | Raise _ => []
  end.

(** ** JSON text: the encoder of json.dumps(..., ensure_ascii=False, indent=2) *)

(** A value of a result record: None, a bool, an int or a str. *)
Inductive scalar :=
| SNone
| SBool (b : bool)
| SInt (z : Z)
| SStr (s : list Z).

(** A result record: a dict with str keys, in insertion order. *)
Abbreviation entry := (list (list Z * scalar)) (only parsing).

Definition hex_digit (n : Z) : Z := if n <? 10 then 48 + n else 87 + n.

(** ESCAPE_DCT of json.encoder: quote, backslash and the control characters
    are escaped, everything else is kept (ensure_ascii is off). *)
Definition escape_char (c : Z) : list Z :=
  if c =? 34 then [92; 34]
  else if c =? 92 then [92; 92]
  else if c =? 10 then [92; ch "n"]
  else if c =? 13 then [92; ch "r"]
  else if c =? 9 then [92; ch "t"]
  else if c =? 8 then [92; ch "b"]
  else if c =? 12 then [92; ch "f"]
  else if (0 <=? c) && (c <? 32)
       then [92; ch "u"; 48; 48; hex_digit (c / 16); hex_digit (c mod 16)]
  else [c].

Definition encode_str (s : list Z) : list Z :=
  34 :: flat_map escape_char s ++ [34].

Definition scalar_text (v : scalar) : list Z :=
  match v with
  | SNone => lit "null"
  | SBool true => lit "true"
  | SBool false => lit "false"
  | SInt z => str_of_int z
  | SStr s => encode_str s
  end.

(** "\n" followed by the indentation of [level]. *)
Definition newline_indent (level : nat) : list Z :=
  10 :: concat (repeat (lit "  ") level).

(** The chunks of the members of a dict whose members are indented at
    [level]; [first] tells whether a separator comes before the next one. *)
Fixpoint member_chunks (level : nat) (first : bool) (e : list (list Z * scalar))
  : list (list Z) :=
  match e with
  | [] => []
  | (k, v) :: t =>
      (if first then [] else [ch "," :: newline_indent level]) ++
      [encode_str k; lit ": "; scalar_text v] ++ member_chunks level false t
  end.

(** The chunks [iterencode] yields for a dict met at indentation [level]. *)
Definition dict_chunks (level : nat) (e : list (list Z * scalar)) : list (list Z) :=
  match e with
  | [] => [lit "{}"]
  | _ :: _ =>
      [lit "{"; newline_indent (S level)] ++ member_chunks (S level) true e ++
      [newline_indent level; lit "}"]
  end.

(** The chunks of the one-element list [[entry]]. *)
Definition list1_chunks (e : list (list Z * scalar)) : list (list Z) :=
  [ch "[" :: newline_indent 1] ++ dict_chunks 1 e ++ [newline_indent 0; lit "]"].

(** [json.dumps(entry, ensure_ascii=False, indent=2)] *)
Definition dumps_entry (e : list (list Z * scalar)) : list Z :=
  concat (dict_chunks 0 e).

(** [json.dumps([entry], ensure_ascii=False, indent=2)] *)
Definition dumps_list1 (e : list (list Z * scalar)) : list Z :=
  concat (list1_chunks e).

(** ** JSON text: the decoder of json.load *)

Inductive json :=
| JNull
| JBool (b : bool)
| JInt (z : Z)
| JFloat (neg : bool) (x : pyfloat)
| JStr (s : list Z)
| JArr (items : list json)
| JObj (members : list (list Z * json)).

(** Truth value of the Python object, as tested by [json.load(f) or []]. *)
Definition truthy (v : json) : bool :=
  match v with
  | JNull => false
  | JBool b => b
  | JInt z => negb (z =? 0)
  | JFloat _ (FFin m _) => negb (m =? 0)
  | JFloat _ _ => true
  | JStr s => negb (length s =? 0)%nat
  | JArr l => negb (length l =? 0)%nat
  | JObj l => negb (length l =? 0)%nat
  end.

Definition json_of_scalar (v : scalar) : json :=
  match v with
  | SNone => JNull
  | SBool b => JBool b
  | SInt z => JInt z
  | SStr s => JStr s
  end.

Definition json_of_entry (e : list (list Z * scalar)) : json :=
  JObj (prod_map id json_of_scalar <$> e).

(** [d[k] = v] on a dict kept in insertion order. *)
Fixpoint dict_set {V} (k : list Z) (v : V) (d : list (list Z * V)) : list (list Z * V) :=
  match d with
  | [] => [(k, v)]
  | (k', v') :: t =>
      if decide (k = k') then (k, v) :: t else (k', v') :: dict_set k v t
  end.

(** Outcome of a scanning function: a value and the unread text, a syntax
    error (JSONDecodeError), or nesting deeper than the recursion allows. *)
Inductive scan (A : Type) :=
| Scanned (a : A) (rest : list Z)
| Malformed
| TooDeep.
Arguments Scanned {A} a rest.
Arguments Malformed {A}.
Arguments TooDeep {A}.

Definition json_ws (c : Z) : bool := (c =? 32) || (c =? 9) || (c =? 10) || (c =? 13).

Fixpoint skip_ws (s : list Z) : list Z :=
  match s with
  | [] => []
  | c :: t => if json_ws c then skip_ws t else s
  end.

Definition hex_value (c : Z) : option Z :=
  if (48 <=? c) && (c <=? 57) then Some (c - 48)
  else if (97 <=? c) && (c <=? 102) then Some (c - 87)
  else if (65 <=? c) && (c <=? 70) then Some (c - 55)
  else None.

Definition hex4 (a b c d : Z) : option Z :=
  match hex_value a, hex_value b, hex_value c, hex_value d with
  | Some x, Some y, Some z, Some w => Some (((x * 16 + y) * 16 + z) * 16 + w)
  | _, _, _, _ => None
  end.

(** BACKSLASH of json.decoder *)
Definition unescape (c : Z) : option Z :=
  if c =? 34 then Some 34
  else if c =? 92 then Some 92
  else if c =? ch "/" then Some (ch "/")
  else if c =? ch "b" then Some 8
  else if c =? ch "f" then Some 12
  else if c =? ch "n" then Some 10
  else if c =? ch "r" then Some 13
  else if c =? ch "t" then Some 9
  else None.

(** [scanstring] after the opening quote (strict: no raw control character);
    an escaped high surrogate followed by an escaped low one is one code
    point. *)
Fixpoint scanstring (s : list Z) : scan (list Z) :=
  let push (c : Z) (r : scan (list Z)) :=
    match r with
    | Scanned str rest => Scanned (c :: str) rest
    | other => other
    end in
  match s with
  | [] => Malformed
  | c :: t =>
      if c =? 34 then Scanned [] t
      else if c =? 92 then
        match t with
        | [] => Malformed
        | e :: t1 =>
            if e =? ch "u" then
              match t1 with
              | h1 :: h2 :: h3 :: h4 :: t2 =>
                  match hex4 h1 h2 h3 h4 with
                  | None => Malformed
                  | Some u =>
                      if (55296 <=? u) && (u <=? 56319) then
                        match t2 with
                        | b :: u' :: t3 =>
                            if (b =? 92) && (u' =? ch "u") then
                              match t3 with
                              | g1 :: g2 :: g3 :: g4 :: t4 =>
                                  match hex4 g1 g2 g3 g4 with
                                  | None => Malformed
                                  | Some u2 =>
                                      if (56320 <=? u2) && (u2 <=? 57343)
                                      then push (65536 + (u - 55296) * 1024 + (u2 - 56320))
                                                (scanstring t4)
                                      else push u (scanstring t2)
                                  end
                              | _ => Malformed
                              end
                            else push u (scanstring t2)
                        | _ => push u (scanstring t2)
                        end
                      else push u (scanstring t2)
                  end
              | _ => Malformed
              end
            else
              match unescape e with
              | Some c' => push c' (scanstring t1)
              | None => Malformed
              end
        end
      else if (0 <=? c) && (c <? 32) then Malformed
      else push c (scanstring t)
  end.

(** The parts of a number: an optional minus sign and either a single 0 or
    a run of digits that starts with a non-zero one, then a fraction and an
    exponent when complete ones follow. *)
Definition scan_int_part (s : list Z) : option (list Z * list Z) :=
  match s with
  | c :: t =>
      if c =? 48 then Some ([48], t)
      else if is_digit c then Some (span is_digit s)
      else None
  | [] => None
  end.

Definition scan_frac (s : list Z) : list Z * list Z :=
  match s with
  | c :: t =>
      if c =? ch "." then
        match span is_digit t with
        | ([], _) => ([], s)
        | (ds, r) => (ds, r)
        end
      else ([], s)
  | [] => ([], s)
  end.

(** The exponent as (is negative, digits), when present. *)
Definition scan_exp (s : list Z) : option (bool * list Z) * list Z :=
  match s with
  | c :: t =>
      if (c =? ch "e") || (c =? ch "E") then
        let '(neg, t') :=
          match t with
          | sg :: t1 => if sg =? ch "-" then (true, t1)
                        else if sg =? ch "+" then (false, t1) else (false, t)
          | [] => (false, t)
          end in
        match span is_digit t' with
        | ([], _) => (None, s)
        | (ds, r) => (Some (neg, ds), r)
        end
      else (None, s)
  | [] => (None, s)
  end.

(** [float(text)] of the decimal [digits * 10^exp10]. *)
Definition decimal_to_double (digits exp10 : Z) : pyfloat :=
  if 0 <=? exp10 then to_double (digits * 10 ^ exp10) 1
  else to_double digits (10 ^ (- exp10)).

Definition scan_number (s : list Z) : scan json :=
  let '(neg, s1) :=
    match s with
    | c :: t => if c =? ch "-" then (true, t) else (false, s)
    | [] => (false, s)
    end in
  match scan_int_part s1 with
  | None => Malformed
  | Some (ip, s2) =>
      let '(fp, s3) := scan_frac s2 in
      let '(ex, s4) := scan_exp s3 in
      match fp, ex with
      | [], None =>
          Scanned (JInt (if neg then - digits_value ip else digits_value ip)) s4
      | _, _ =>
          let e10 := match ex with
                     | Some (true, ds) => - digits_value ds
                     | Some (false, ds) => digits_value ds
                     | None => 0
                     end in
          Scanned (JFloat neg (decimal_to_double (digits_value (ip ++ fp))
                                                  (e10 - Z.of_nat (length fp)))) s4
      end
  end.

(** [scan_once] and the loops of JSONArray and JSONObject; [fuel] bounds the
    nesting and the number of items. *)
Fixpoint scan_once (fuel : nat) (s : list Z) {struct fuel} : scan json :=
  match fuel with
  | O => TooDeep
  | S f =>
      match s with
      | [] => Malformed
      | c :: t =>
          if c =? 34 then
            match scanstring t with
            | Scanned str r => Scanned (JStr str) r
            | Malformed => Malformed
            | TooDeep => TooDeep
            end
          else if c =? ch "{" then
            match skip_ws t with
            | c' :: t' => if c' =? ch "}" then Scanned (JObj []) t'
                          else scan_members f (c' :: t') []
            | [] => Malformed
            end
          else if c =? ch "[" then
            match skip_ws t with
            | c' :: t' => if c' =? ch "]" then Scanned (JArr []) t'
                          else scan_items f (c' :: t') []
            | [] => Malformed
            end
          else if starts_with (lit "null") s then Scanned JNull (drop 4 s)
          else if starts_with (lit "true") s then Scanned (JBool true) (drop 4 s)
          else if starts_with (lit "false") s then Scanned (JBool false) (drop 5 s)
          else if starts_with (lit "NaN") s then Scanned (JFloat false FNan) (drop 3 s)
          else if starts_with (lit "Infinity") s then Scanned (JFloat false FInf) (drop 8 s)
          else if starts_with (lit "-Infinity") s then Scanned (JFloat true FInf) (drop 9 s)
          else scan_number s
      end
  end
with scan_items (fuel : nat) (s : list Z) (acc : list json) {struct fuel} : scan json :=
  match fuel with
  | O => TooDeep
  | S f =>
      match scan_once f s with
      | Scanned v r =>
          match skip_ws r with
          | c :: t =>
              if c =? ch "]" then Scanned (JArr (acc ++ [v])) t
              else if c =? ch "," then scan_items f (skip_ws t) (acc ++ [v])
              else Malformed
          | [] => Malformed
          end
      | Malformed => Malformed
      | TooDeep => TooDeep
      end
  end
with scan_members (fuel : nat) (s : list Z) (acc : list (list Z * json)) {struct fuel}
  : scan json :=
  match fuel with
  | O => TooDeep
  | S f =>
      match s with
      | c :: t =>
          if c =? 34 then
            match scanstring t with
            | Scanned key r =>
                match skip_ws r with
                | c1 :: t1 =>
                    if c1 =? ch ":" then
                      match scan_once f (skip_ws t1) with
                      | Scanned v r2 =>
                          match skip_ws r2 with
                          | c2 :: t2 =>
                              if c2 =? ch "}" then Scanned (JObj (dict_set key v acc)) t2
                              else if c2 =? ch ","
                                   then scan_members f (skip_ws t2) (dict_set key v acc)
                              else Malformed
                          | [] => Malformed
                          end
                      | Malformed => Malformed
                      | TooDeep => TooDeep
                      end
                    else Malformed
                | [] => Malformed
                end
            | Malformed => Malformed
            | TooDeep => TooDeep
            end
          else Malformed
      | [] => Malformed
      end
  end.

(** [json.loads(text)]: one value between optional whitespace. *)
Definition json_loads (text : list Z) : scan json :=
  let s := skip_ws text in
  match scan_once (S (length s)) s with
  | Scanned v r =>
      match skip_ws r with
      | [] => Scanned v []
      | _ :: _ => Malformed
      end
  | other => other
  end.

(** [json.load(f)] on a binary file: the bytes are decoded as UTF-8 (after
    an optional byte order mark; the detection of UTF-16 and UTF-32 is left
    out) and parsed.  [None] stands for any exception. *)
Definition json_load (bs : list Z) : option json :=
  let body := if starts_with [239; 187; 191] bs then drop 3 bs else bs in
  match utf8_decode SurrogatePass body with
  | None => None
  | Some text =>
      match json_loads text with
      | Scanned v _ => Some v
      | _ => None
      end
  end.

(** ** script.py: append_json_array *)

(** [f.write(data)] at offset [pos] of a file opened "rb+": the bytes there
    are overwritten and the file grows when the data reaches past its end. *)
Definition write_at (pos : Z) (data old : list Z) : list Z :=
  take (Z.to_nat pos) old ++ data ++ drop (Z.to_nat pos + length data) old.

(** [json.dump(obj, f)] on a text file: the chunks are encoded and written
    one by one, so the chunks before an unencodable one reach the file. *)
Fixpoint write_chunks (chunks : list (list Z)) (written : list Z) : list Z * py unit :=
  match chunks with
  | [] => (written, Ret tt)
  | c :: t =>
      match utf8_encode c with
      | Some b => write_chunks t (written ++ b)
      | None => (written, Raise UnicodeEncodeError)
      end
  end.

Definition BRACKET : list Z := lit "]".

(** The loop that extends the chunk backwards, 1024 bytes at a time, until
    it holds a "]" or starts at offset 0.  [fuel] bounds the iterations. *)
Fixpoint scan_back (fuel : nat) (old : list Z) (pos : Z) (chunk : list Z)
  : Z * list Z :=
  match fuel with
  | O => (pos, chunk)
  | S f =>
      if negb (str_in BRACKET chunk) && (0 <? pos) then
        let pos' := Z.max 0 (pos - 1024) in
        let block := take (Z.to_nat (Z.min 1024 (pos' + 1024))) (drop (Z.to_nat pos') old) in
        scan_back f old pos' (decode_ignore block ++ chunk)
      else (pos, chunk)
  end.

(** The state of the ledger file ([None]: no such file) after
    [append_json_array(path, entry)], and how the call ends.

    In the fall-back branch the file is open in binary mode: when the parsed
    content is not a list, [existing.append] raises before the file is
    touched; otherwise the file is truncated and [json.dump] raises at its
    first [f.write] of a str. *)
Definition append_json_array (file : option (list Z)) (e : list (list Z * scalar))
  : option (list Z) * py unit :=
  match file with
  | None =>
      let '(bs, r) := write_chunks (list1_chunks e ++ [[10]]) [] in (Some bs, r)
  | Some old =>
      let size := Z.of_nat (length old) in
      if size =? 0 then
        match utf8_encode (dumps_list1 e) with
        | Some b => (Some (b ++ [10]), Ret tt)
        | None => (Some old, Raise UnicodeEncodeError)
        end
      else
        let pos0 := Z.max 0 (size - 1024) in
        let '(pos, chunk) :=
          scan_back (length old) old pos0 (decode_ignore (drop (Z.to_nat pos0) old)) in
        let last_bracket := str_rfind BRACKET chunk in
        if last_bracket =? -1 then
          let existing :=
            match json_load old with
            | Some v => if truthy v then v else JArr []
            | None => JArr []
            end in
          match existing with
          | JArr _ => (Some [], Raise TypeError)
          | _ => (Some old, Raise AttributeError)
          end
        else
          let abs_pos := pos + last_bracket in
          let tail := lit ",
" ++ dumps_entry e ++ lit "
]" in
          match utf8_encode tail with
          | Some tb => (Some (write_at abs_pos tb old), Ret tt)
          | None => (Some old, Raise UnicodeEncodeError)
          end
  end.

(** The ledger after appending the records of [es] one after the other;
    an append that raises ends the run. *)
Fixpoint append_all (file : option (list Z)) (es : list (list (list Z * scalar)))
  : option (list Z) * py unit :=
  match es with
  | [] => (file, Ret tt)
  | e :: t =>
      match append_json_array file e with
      | (file', Ret _) => append_all file' t
      | (file', Raise x) => (file', Raise x)
      end
  end.

(** ** The external tool and the state of a run *)

(** What one run of the tool does, as far as the driver can see.  With
    [stderr=subprocess.STDOUT] the merged stream is [p_stdout].  The last
    field is the one failure of the file system that the driver catches
    (script.py:187-195): [open] or [read] raising when the log is read back
    right after the run, although it was just written (no read permission
    on the new file, the file removed meanwhile, an input/output error). *)
Record process := {
  p_stdout : list Z;
  p_stderr : list Z;
  p_returncode : Z;
  p_expired : bool;      (* still running when a timeout elapsed *)
  p_elapsed_ns : Z;      (* difference of the monotonic clock around the run *)
  p_log_unreadable : bool; (* reading the log back after the run raises *)
}.

(** A line printed on standard output: a debug object (with the command
    list it may carry) or a status object. *)
Inductive out_line :=
| DebugLine (kind : list Z) (cmd : list (list Z)) (fields : list (list Z * scalar))
| JsonLine (fields : list (list Z * scalar)).

Definition is_debug (l : out_line) : bool :=
  match l with
  | DebugLine _ _ _ => true
  | JsonLine _ => false
  end.

(** The state the driver acts on.  Directories are not part of it: the calls
    of [ensure_dir] and [os.makedirs] leave no trace here. *)
Record world := {
  w_files : gmap (list Z) (list Z);          (* regular files *)
  w_stdout : list out_line;                  (* printed lines, oldest first *)
  w_runs : list (list (list Z));             (* commands given to subprocess.run *)
  w_appends : list (list (list Z * scalar)); (* records given to append_json_array *)
}.

Definition set_files (fs : gmap (list Z) (list Z)) (w : world) : world :=
  {| w_files := fs; w_stdout := w_stdout w; w_runs := w_runs w;
     w_appends := w_appends w |}.

Definition print (l : out_line) (w : world) : world :=
  {| w_files := w_files w; w_stdout := w_stdout w ++ [l]; w_runs := w_runs w;
     w_appends := w_appends w |}.

Definition record_run (cmd : list (list Z)) (w : world) : world :=
  {| w_files := w_files w; w_stdout := w_stdout w; w_runs := w_runs w ++ [cmd];
     w_appends := w_appends w |}.

Definition record_append (e : list (list Z * scalar)) (w : world) : world :=
  {| w_files := w_files w; w_stdout := w_stdout w; w_runs := w_runs w;
     w_appends := w_appends w ++ [e] |}.

(** [os.path.isfile], [os.path.exists] (only regular files are kept) and
    [os.path.getsize]. *)
Definition isfile (fs : gmap (list Z) (list Z)) (p : list Z) : bool :=
  match fs !! p with
  | Some _ => true
  | None => false
  end.

Definition getsize (fs : gmap (list Z) (list Z)) (p : list Z) : Z :=
  Z.of_nat (length (default [] (fs !! p))).

(** [os.path.join] of two components. *)
Definition path_join (a b : list Z) : list Z :=
  if starts_with [47] b then b
  else match last a with
       | None => b
       | Some c => if c =? 47 then a ++ b else a ++ 47 :: b
       end.

Definition truthy_path (p : option (list Z)) : bool :=
  match p with
  | Some (_ :: _) => true
  | _ => false
  end.

(** ** script.py: run_slice, run_elaborate and the body of the loop over holes *)

Section Driver.

(** The tool: the process started by the [n]-th run, for each command. *)
Variable tool : nat -> list (list Z) -> process.

(** [os.path.relpath(path, start)]; [None] when it raises. *)
Variable relpath : list Z -> list Z -> option (list Z).

Definition rel_to (root path : list Z) : list Z :=
  default path (relpath path root).

Definition find_existing_smt2_for_base (fs : gmap (list Z) (list Z))
  (out_dir base_name : list Z) : option (list Z) :=
  let cand := path_join out_dir (base_name ++ lit ".smt2") in
  if isfile fs cand then Some cand else None.

Definition slice_cmd (from_hole alethe_path smt2_path : list Z)
  (parse_hole_args no_print_with_sharing : bool) : list (list Z) :=
  [lit "carcara"; lit "slice"; lit "--from"; from_hole; alethe_path; smt2_path]
  ++ (if parse_hole_args then [lit "--parse-hole-args"] else [])
  ++ (if no_print_with_sharing then [lit "--no-print-with-sharing"] else []).

(** A call of [run_slice] that starts the tool: the artifact and the stderr
    file could be opened for writing (script.py:126). *)
Definition run_slice (from_hole alethe_path smt2_path out_slice_path : list Z)
  (parse_hole_args no_print_with_sharing debug : bool) (w : world)
  : world * (bool * option (list Z)) :=
  let cmd := slice_cmd from_hole alethe_path smt2_path parse_hole_args
               no_print_with_sharing in
  let w1 := if debug
            then print (DebugLine (lit "slice_cmd") cmd [(lit "out", SStr out_slice_path)]) w
            else w in
  let stderr_path := out_slice_path ++ lit ".stderr" in
  let proc := tool (length (w_runs w1)) cmd in
  let fs := <[stderr_path := p_stderr proc]>
              (<[out_slice_path := p_stdout proc]> (w_files w1)) in
  let w2 := set_files fs (record_run cmd w1) in
  if (getsize fs out_slice_path =? 0) || negb (p_returncode proc =? 0) then
    (w2, (false, Some stderr_path))
  else
    let w3 := if (getsize fs stderr_path =? 0) && negb debug
              then set_files (delete stderr_path fs) w2
              else w2 in
    (w3, (true, None)).

Definition elaborate_cmd (slice_path smt2_path rare_file : list Z)
  (allow_int_real add_pipeline no_print_with_sharing parse_hole_args : bool)
  : list (list Z) :=
  [lit "carcara"; lit "elaborate"; slice_path; smt2_path; lit "--rare-file";
   rare_file; lit "--hole-solver"; lit "rare_rewrite"; lit "--expand-let-bindings"]
  ++ (if allow_int_real then [lit "--allow-int-real-subtyping"] else [])
  ++ (if add_pipeline then [lit "--pipeline"; lit "hole"; lit "local"] else [])
  ++ (if parse_hole_args then [lit "--parse-hole-args"] else [])
  ++ (if no_print_with_sharing then [lit "--no-print-with-sharing"] else []).

Record elab_result := {
  r_ok : bool;
  r_success : Z;
  r_failed : Z;
  r_panicked : bool;
  r_elapsed_ns : Z;
  r_timed_out : bool;
}.

Definition timeout_marker (timeout_sec : Z) : list Z :=
  lit "
[timeout] Elaboration exceeded " ++ str_of_int timeout_sec
  ++ lit "s and was terminated.
".

(** A call of [run_elaborate] that starts the tool: the log could be opened
    for writing (script.py:163).  Reading it back afterwards can fail, and
    the failure is caught (script.py:187-195). *)
Definition run_elaborate (slice_path smt2_path out_log_path rare_file : list Z)
  (allow_int_real add_pipeline no_print_with_sharing parse_hole_args : bool)
  (timeout_sec : Z) (w : world) : world * elab_result :=
  let cmd := elaborate_cmd slice_path smt2_path rare_file allow_int_real
               add_pipeline no_print_with_sharing parse_hole_args in
  let proc := tool (length (w_runs w)) cmd in
  (* timeout=None when timeout_sec <= 0: TimeoutExpired cannot be raised *)
  let timed_out := (0 <? timeout_sec) && p_expired proc in
  let log := p_stdout proc
             ++ (if timed_out then default [] (utf8_encode (timeout_marker timeout_sec))
                 else []) in
  let w1 := set_files (<[out_log_path := log]> (w_files w)) (record_run cmd w) in
  let elapsed_ns := p_elapsed_ns proc in
  (* Parse the log *)
  let '(ok, success, failed, panicked) :=
    match (if p_log_unreadable proc then Raise OSError
           else read_text (w_files w1) out_log_path) with
    | Ret data =>
        (true, str_count (lit "Elaboration successed") data,
         str_count (lit "Check failed:") data,
         str_in (lit "panicked at") data)
    | Raise _ => (false, 0, 0, false)
    end in
  let ok := if timed_out || panicked || (0 <? failed) then false else ok in
  (w1, {| r_ok := ok; r_success := success; r_failed := failed;
          r_panicked := panicked; r_elapsed_ns := elapsed_ns;
          r_timed_out := timed_out |}).

(** The command line options, and what is fixed while the holes of one
    certificate are processed. *)
Record args := {
  a_rare_file : list Z;
  a_results : list Z;
  a_elab_timeout_sec : Z;
  a_debug : bool;
  a_no_move : bool;
  a_allow_int_real_subtyping : bool;
  a_pipeline_hole_local : bool;
  a_parse_hole_args : bool;
  a_no_print_with_sharing : bool;
}.

Record certificate := {
  c_root_abs : list Z;
  c_root_name : list Z;
  c_out_root_parent : list Z;
  c_alethe_path : list Z;
  c_base_name : list Z;
  c_out_dir : list Z;
  c_smt2_for_slice : list Z;
}.

Definition slice_path_of (c : certificate) (hole_name : list Z) : list Z :=
  path_join (c_out_dir c)
    (c_base_name c ++ lit "__from-" ++ hole_name ++ lit ".smt2.alethe").

Definition out_log_path_of (c : certificate) (hole_name : list Z) : list Z :=
  path_join (c_out_dir c) (c_base_name c ++ lit "__from-" ++ hole_name ++ lit ".out").

Definition smt2_target_of (c : certificate) : list Z :=
  path_join (c_out_dir c) (c_base_name c ++ lit ".smt2").

Definition ledger_path_of (a : args) (c : certificate) : list Z :=
  path_join (c_out_root_parent c) (a_results a).

Definition slice_error_line (c : certificate) (hole_name : list Z) (line_no : Z)
  (stderr_path : option (list Z)) : out_line :=
  JsonLine [(lit "status", SStr (lit "slice_error"));
            (lit "alethe", SStr (rel_to (c_root_abs c) (c_alethe_path c)));
            (lit "hole", SStr hole_name);
            (lit "line", SInt line_no);
            (lit "stderr", if truthy_path stderr_path
                           then SStr (rel_to (c_out_root_parent c) (default [] stderr_path))
                           else SNone)].

Definition cached_line (c : certificate) (hole_name : list Z) : out_line :=
  JsonLine [(lit "status", SStr (lit "ok"));
            (lit "cached", SBool true);
            (lit "root", SStr (c_root_name c));
            (lit "alethe", SStr (rel_to (c_root_abs c) (c_alethe_path c)));
            (lit "hole", SStr hole_name);
            (lit "slice", SStr (rel_to (c_out_root_parent c) (slice_path_of c hole_name)));
            (lit "out", SStr (rel_to (c_out_root_parent c) (out_log_path_of c hole_name)))].

Definition result_record (c : certificate) (hole_name : list Z) (line_no : Z)
  (smt2_dest : list Z) (r : elab_result) (elapsed : list Z) : list (list Z * scalar) :=
  [(lit "root", SStr (c_root_name c));
   (lit "alethe", SStr (rel_to (c_root_abs c) (c_alethe_path c)));
   (lit "hole", SStr hole_name);
   (lit "line", SInt line_no);
   (lit "slice", SStr (rel_to (c_out_root_parent c) (slice_path_of c hole_name)));
   (lit "smt2", match smt2_dest with
                | [] => SNone
                | _ :: _ => SStr (rel_to (c_out_root_parent c) smt2_dest)
                end);
   (lit "out", SStr (rel_to (c_out_root_parent c) (out_log_path_of c hole_name)));
   (lit "ok", SBool (r_ok r));
   (lit "success", SInt (r_success r));
   (lit "failed", SInt (r_failed r));
   (lit "panicked", SBool (r_panicked r));
   (lit "timeout", SBool (r_timed_out r));
   (lit "elapsed", SStr elapsed)].

(** [p and os.path.isfile(p)] *)
Definition usable_file (fs : gmap (list Z) (list Z)) (p : option (list Z)) : bool :=
  truthy_path p && isfile fs (default [] p).

(** Lines 294-319: make sure the companion file is in the output directory.
    Returns the new state, the new value of [smt2_src] and [smt2_dest].
    ([shutil.move] to a path that is not a file is a rename.) *)
Definition transfer_smt2 (a : args) (c : certificate) (smt2_src : option (list Z))
  (w : world) : world * option (list Z) * list Z :=
  match find_existing_smt2_for_base (w_files w) (c_out_dir c) (c_base_name c) with
  | Some dest => (w, smt2_src, dest)
  | None =>
      let smt2_src :=
        if negb (usable_file (w_files w) smt2_src)
           && isfile (w_files w) (c_smt2_for_slice c)
        then Some (c_smt2_for_slice c) else smt2_src in
      let target := smt2_target_of c in
      if usable_file (w_files w) smt2_src then
        let src := default [] smt2_src in
        let content := default [] (w_files w !! src) in
        let fs := if a_no_move a then <[target := content]> (w_files w)
                  else <[target := content]> (delete src (w_files w)) in
        let moved_action := if a_no_move a then lit "copied" else lit "moved" in
        let w1 := set_files fs w in
        let w2 := if a_debug a
                  then print (DebugLine (lit "smt2_transfer") []
                                [(lit "action", SStr moved_action);
                                 (lit "to", SStr (rel_to (c_out_root_parent c) target))]) w1
                  else w1 in
        (w2, smt2_src, target)
      else (w, smt2_src, c_smt2_for_slice c)
  end.

(** One iteration of [for hole_name, line_no in holes]: the new state, and
    the value of [smt2_src] carried to the next iteration unless the
    iteration raises. *)
Definition process_hole (a : args) (c : certificate) (hole : list Z * Z)
  (smt2_src : option (list Z)) (w : world) : world * py (option (list Z)) :=
  let '(hole_name, line_no) := hole in
  let slice_path := slice_path_of c hole_name in
  let out_log_path := out_log_path_of c hole_name in
  let slice_cached := isfile (w_files w) slice_path in
  let '(w1, (ok_slice, stderr_path)) :=
    if negb slice_cached
    then run_slice hole_name (c_alethe_path c) (c_smt2_for_slice c) slice_path
           (a_parse_hole_args a) (a_no_print_with_sharing a) (a_debug a) w
    else (w, (true, None)) in
  if negb ok_slice then
    (print (slice_error_line c hole_name line_no stderr_path) w1, Ret smt2_src)
  else
    let '(w2, smt2_src, smt2_dest) := transfer_smt2 a c smt2_src w1 in
    let elaborate_cached := isfile (w_files w2) out_log_path in
    if elaborate_cached then
      (print (cached_line c hole_name) w2, Ret smt2_src)
    else
      let '(w3, r) :=
        run_elaborate slice_path smt2_dest out_log_path (a_rare_file a)
          (a_allow_int_real_subtyping a) (a_pipeline_hole_local a)
          (a_no_print_with_sharing a) (a_parse_hole_args a)
          (a_elab_timeout_sec a) w2 in
      match human_elapsed (r_elapsed_ns r) with
      | Raise x => (w3, Raise x)
      | Ret elapsed =>
          let result := result_record c hole_name line_no smt2_dest r elapsed in
          let w4 := record_append result (print (JsonLine result) w3) in
          let ledger := ledger_path_of a c in
          let '(file, res) := append_json_array (w_files w4 !! ledger) result in
          let fs := match file with
                    | Some bs => <[ledger := bs]> (w_files w4)
                    | None => w_files w4
                    end in
          (set_files fs w4, _ <- res ;;; Ret smt2_src)
      end.

End Driver.

(** ** chart.py: parse_elapsed_to_seconds *)

(** The value found under "elapsed": None, a number (as the float it
    converts to) or a str. *)
Inductive elapsed_value :=
| ENone
| ENumber (x : pyfloat)
| EStr (s : list Z).

Fixpoint lstrip (s : list Z) : list Z :=
  match s with
  | [] => []
  | c :: t => if is_space c then lstrip t else s
  end.

(** [s.strip()] *)
Definition strip (s : list Z) : list Z := rev (lstrip (rev (lstrip s))).

Section Chart.

(** Tables of the Unicode database of the interpreter: [str.lower], the
    digit value of the decimal digits (the class [\d], also read by
    [float]), and whether a subject character matches a pattern letter
    under IGNORECASE. *)
Variable unicode_lower : list Z -> list Z.
Variable unicode_decimal : Z -> option Z.
Variable ignorecase_eq : Z -> Z -> bool.

Definition uni_digit (c : Z) : bool :=
  match unicode_decimal c with
  | Some _ => true
  | None => false
  end.

(** Value of a run of decimal digits. *)
Definition uni_digits_value (s : list Z) : Z :=
  fold_left (fun acc c => acc * 10 + default 0 (unicode_decimal c)) s 0.

Fixpoint ignorecase_prefix (pat s : list Z) : bool :=
  match pat, s with
  | [], _ => true
  | _ :: _, [] => false
  | a :: pat', c :: s' => ignorecase_eq a c && ignorecase_prefix pat' s'
  end.

(** The alternation [(ns|ms|s|m)] followed by [\s*$]: the first unit, in
    that order, after which only whitespace is left.  Returns the text
    matched by the group. *)
Fixpoint match_unit (units : list (list Z)) (s : list Z) : option (list Z) :=
  match units with
  | [] => None
  | u :: rest =>
      if ignorecase_prefix u s && (length (lstrip (drop (length u) s)) =? 0)%nat
      then Some (take (length u) s)
      else match_unit rest s
  end.

(** [_elapsed_re.match(s)]: the integer digits, the fraction digits and the
    unit.  The repetitions are greedy, and giving back digits or the
    fraction never lets the unit match, so the longest runs decide. *)
Definition elapsed_match (s : list Z) : option (list Z * list Z * list Z) :=
  let s1 := lstrip s in
  let '(ip, s2) := span uni_digit s1 in
  match ip with
  | [] => None
  | _ :: _ =>
      let '(fp, s3) :=
        match s2 with
        | c :: t =>
            if c =? ch "." then
              match span uni_digit t with
              | ([], _) => ([], s2)
              | (ds, r) => (ds, r)
              end
            else ([], s2)
        | [] => ([], s2)
        end in
      match match_unit [lit "ns"; lit "ms"; lit "s"; lit "m"] s3 with
      | Some unit => Some (ip, fp, unit)
      | None => None
      end
  end.

Definition parse_elapsed_to_seconds (val : elapsed_value) : pyfloat :=
  match val with
  | ENone => FNan
  | ENumber x => x
  | EStr v =>
      let s := unicode_lower (strip v) in
      match elapsed_match s with
      | None => FNan
      | Some (ip, fp, unit) =>
          let num := to_double (uni_digits_value (ip ++ fp)) (10 ^ Z.of_nat (length fp)) in
          if decide (unit = lit "ns") then float_mul num 1 1000000000
          else if decide (unit = lit "ms") then float_mul num 1 1000
          else if decide (unit = lit "s") then num
          else if decide (unit = lit "m") then float_mul num 60 1
          else FNan
      end
  end.

End Chart.

(** The tables restricted to ASCII (what they are on ASCII text). *)
Definition ascii_lower (s : list Z) : list Z :=
  map (fun c => if (65 <=? c) && (c <=? 90) then c + 32 else c) s.

Definition ascii_decimal (c : Z) : option Z :=
  if is_digit c then Some (c - 48) else None.

Definition ascii_ignorecase_eq (a c : Z) : bool :=
  (a =? c) || ((65 <=? c) && (c <=? 90) && (a =? c + 32)).

(** The characters [human_elapsed] writes: digits, ".", "-" and the letters
    of the units. *)
Definition elapsed_char (c : Z) : bool :=
  is_digit c || (c =? ch ".") || (c =? ch "-") || (c =? ch "n") || (c =? ch "m")
  || (c =? ch "s").

(** What the development assumes of the tables: on the characters of an
    elapsed string they agree with their ASCII restriction. *)
Definition ascii_tables (lower : list Z -> list Z) (decimal : Z -> option Z)
  (ieq : Z -> Z -> bool) : Prop :=
  (forall s, forallb elapsed_char s = true -> lower s = s) /\
  (forall c, elapsed_char c = true -> decimal c = ascii_decimal c) /\
  (forall a c, elapsed_char a = true -> elapsed_char c = true ->
               ieq a c = ascii_ignorecase_eq a c).

(** The marker occurrences of a certificate: every line that contains the
    hole marker and a step name, with that name and the line number, before
    any filtering.  (The notion the design document uses to describe the
    result of [holes_in_alethe].) *)
Fixpoint marker_occurrences (ls : list (Z * list Z)) : list (list Z * Z) :=
  match ls with
  | [] => []
  | (lineno, line) :: rest =>
      if str_in HOLE_MARKER line then
        match step_name_search line with
        | Some name => (name, lineno) :: marker_occurrences rest
        | None => marker_occurrences rest
        end
      else marker_occurrences rest
  end.

(** [x] is in [l] and no earlier entry of [l] has its name. *)
Definition first_occurrence (x : list Z * Z) (l : list (list Z * Z)) : Prop :=
  exists pre post, l = pre ++ x :: post /\ x.1 ∉ pre.*1.

Definition has_dot (name : list Z) : bool := str_in (lit ".") name.

(** ** Vocabulary of the ledger properties *)

(** Text made of ASCII characters only. *)
Definition is_ascii (s : list Z) : bool :=
  forallb (fun c => (0 <=? c) && (c <? 128)) s.

(** A record whose keys and string values are ASCII. *)
Definition ascii_entry (e : list (list Z * scalar)) : bool :=
  forallb (fun kv => is_ascii kv.1 &&
                     match kv.2 with
                     | SStr s => is_ascii s
                     | _ => true
                     end) e.

(** The dict built from the members of a record, read one after the other. *)
Definition read_members (e : list (list Z * scalar)) (acc : list (list Z * json))
  : list (list Z * json) :=
  fold_left (fun d kv => dict_set kv.1 (json_of_scalar kv.2) d) e acc.

(** The text that the appends after the first one leave before the closing
    bracket, and the whole text before that bracket. *)
Definition later_records (es : list (list (list Z * scalar))) : list Z :=
  flat_map (fun e => lit ",
" ++ dumps_entry e ++ [10]) es.

Definition ledger_text (e : list (list Z * scalar)) (es : list (list (list Z * scalar)))
  : list Z :=
  lit "[
  " ++ concat (dict_chunks 1 e) ++ [10] ++ later_records es.

(** What may follow a value in the text of a record: "," or a newline. *)
Definition ends_token (rest : list Z) : Prop :=
  exists c t, rest = c :: t /\ (c = 44 \/ c = 10).

(** Offset of the last "]" byte of a file, -1 when there is none. *)
Definition last_bracket_offset (file : list Z) : Z := str_rfind BRACKET file.

(** ** Example inputs *)

(** A certificate with marker lines for h1, h1.sub, h1 and h2. *)
Definition cert_example : list Z :=
  lit "(step h1 (cl) :rule hole :args (TRUST_THEORY_REWRITE))
(step h1.sub (cl) :rule hole :args (TRUST_THEORY_REWRITE))
(step t9 (cl) :rule resolution)
(step h1 (cl) :rule hole :args (TRUST_THEORY_REWRITE))
(step h2 (cl) :rule hole :args (TRUST_THEORY_REWRITE))
".

(** A world where the log of hole t1 is present but its slice is not, and a
    tool whose slice run fails. *)
Definition failing_tool (n : nat) (cmd : list (list Z)) : process :=
  {| p_stdout := []; p_stderr := lit "error"; p_returncode := 1;
     p_expired := false; p_elapsed_ns := 5;
     p_log_unreadable := false |}.

Definition args_example : args :=
  {| a_rare_file := lit "big.rare"; a_results := lit "results.json";
     a_elab_timeout_sec := 60; a_debug := false; a_no_move := false;
     a_allow_int_real_subtyping := true; a_pipeline_hole_local := true;
     a_parse_hole_args := true; a_no_print_with_sharing := true |}.

Definition cert_ctx_example : certificate :=
  {| c_root_abs := lit "/b/root"; c_root_name := lit "root";
     c_out_root_parent := lit "/b"; c_alethe_path := lit "/b/root/a.smt2.alethe";
     c_base_name := lit "a"; c_out_dir := lit "/b/sliced_proofs/root/./a";
     c_smt2_for_slice := lit "/b/sliced_proofs/root/./a/a.smt2" |}.

Definition world_log_only : world :=
  {| w_files := {[ lit "/b/sliced_proofs/root/./a/a__from-t1.out" := lit "Elaboration successed";
                   lit "/b/sliced_proofs/root/./a/a.smt2" := lit "(check-sat)" ]};
     w_stdout := []; w_runs := []; w_appends := [] |}.

(** The same output tree once the slice of t1 is there as well. *)
Definition world_cached : world :=
  {| w_files := <[ lit "/b/sliced_proofs/root/./a/a__from-t1.smt2.alethe" := lit "(step t1)" ]>
                  (w_files world_log_only);
     w_stdout := []; w_runs := []; w_appends := [] |}.

(** A ledger cut short while its first record was being written. *)
Definition ledger_cut : list Z := lit "[
  {".

(** Two result records; the first one has a non-ASCII character. *)
Definition entry_euro : list (list Z * scalar) :=
  [(lit "hole", SStr [8364]); (lit "ok", SBool true)].

Definition entry_plain : list (list Z * scalar) :=
  [(lit "hole", SStr (lit "t1")); (lit "line", SInt 7); (lit "ok", SBool false);
   (lit "smt2", SNone)].

(** The ledger that holds [entry_euro] alone, as the first append writes it. *)
Definition ledger_euro : list Z :=
  default [] (append_json_array None entry_euro).1.

(** ** Vocabulary of the elapsed-time properties *)

(** [x <= 2^K]: the value [m * 2^e] of a finite float is at most [2^K]. *)
Definition float_le_pow2 (x : pyfloat) (K : Z) : Prop :=
  match x with
  | FFin m e => 0 <= m /\ e <= K /\ m <= 2 ^ (K - e)
  | _ => False
  end.

(** The units of [human_elapsed]. *)
Definition is_unit (u : list Z) : Prop :=
  u = lit "ns" \/ u = lit "ms" \/ u = lit "s" \/ u = lit "m".

(** ** script.py: find_smt2_beside and the body of the loop over file names *)

(** [s.endswith(suffix)] *)
Definition ends_with (suffix s : list Z) : bool :=
  (length suffix <=? length s)%nat
  && bool_decide (drop (length s - length suffix) s = suffix).

(** [os.path.basename] *)
Definition basename (p : list Z) : list Z :=
  drop (Z.to_nat (str_rfind (lit "/") p + 1)) p.

(** [os.path.splitext]: the extension starts at the last "." of the last
    component, unless only dots come before it there. *)
Definition splitext (p : list Z) : list Z * list Z :=
  let sepIndex := str_rfind (lit "/") p in
  let dotIndex := str_rfind (lit ".") p in
  if sepIndex <? dotIndex then
    let name := take (Z.to_nat (dotIndex - (sepIndex + 1)))
                  (drop (Z.to_nat (sepIndex + 1)) p) in
    if forallb (fun c => c =? ch ".") name then (p, [])
    else (take (Z.to_nat dotIndex) p, drop (Z.to_nat dotIndex) p)
  else (p, []).

Definition find_smt2_beside (fs : gmap (list Z) (list Z)) (alethe : list Z)
  : option (list Z) :=
  if ends_with (lit ".smt2.alethe") alethe then
    let cand := take (length alethe - 7) alethe in
    if isfile fs cand then Some cand else None
  else if ends_with (lit ".alethe") alethe then
    let cand := (splitext alethe).1 in
    if isfile fs cand then Some cand else None
  else None.

Section Files.

Variable tool : nat -> list (list Z) -> process.
Variable relpath : list Z -> list Z -> option (list Z).

Definition not_found_line (root_abs alethe_path : list Z) : out_line :=
  JsonLine [(lit "status", SStr (lit "not_found"));
            (lit "reason", SStr (lit "matching .smt2 not found"));
            (lit "alethe", SStr (rel_to relpath root_abs alethe_path))].

Definition holes_debug_line (root_abs alethe_path : list Z) (holes : list (list Z * Z))
  : out_line :=
  DebugLine (lit "holes") []
    [(lit "alethe", SStr (rel_to relpath root_abs alethe_path));
     (lit "count", SInt (Z.of_nat (length holes)))].

(** [for hole_name, line_no in holes: ...]; an exception ends the loop. *)
Fixpoint process_holes (a : args) (c : certificate) (holes : list (list Z * Z))
  (smt2_src : option (list Z)) (w : world) : world * py unit :=
  match holes with
  | [] => (w, Ret tt)
  | h :: t =>
      match process_hole tool relpath a c h smt2_src w with
      | (w', Ret smt2_src') => process_holes a c t smt2_src' w'
      | (w', Raise x) => (w', Raise x)
      end
  end.

(** The body of [for fname in filenames] in main, for a directory [dirpath]
    whose path relative to the root is [rel_dir], once the output directory
    of the certificate is made ([ensure_dir(out_dir)], script.py:242-243,
    creates a directory and no regular file). *)
Definition process_file (a : args)
  (root_abs root_name out_root_parent sliced_root dirpath rel_dir fname : list Z)
  (w : world) : world * py unit :=
  if negb (ends_with (lit ".smt2.alethe") fname) then (w, Ret tt)
  else
    let alethe_path := path_join dirpath fname in
    let base_name :=
      (splitext (basename (take (length alethe_path - 7) alethe_path))).1 in
    let out_dir :=
      path_join (path_join (path_join sliced_root root_name) rel_dir) base_name in
    let smt2_src := find_smt2_beside (w_files w) alethe_path in
    let smt2_dest := find_existing_smt2_for_base (w_files w) out_dir base_name in
    let smt2_for_slice :=
      if truthy_path smt2_dest then smt2_dest
      else if usable_file (w_files w) smt2_src then smt2_src
      else
        let guessed := path_join dirpath (base_name ++ lit ".smt2") in
        if isfile (w_files w) guessed then Some guessed else None in
    match smt2_for_slice with
    | None => (print (not_found_line root_abs alethe_path) w, Ret tt)
    | Some for_slice =>
        match holes_in_alethe (w_files w) alethe_path with
        | Raise x => (w, Raise x)
        | Ret holes =>
            let w1 := if a_debug a
                      then print (holes_debug_line root_abs alethe_path holes) w
                      else w in
            let c := {| c_root_abs := root_abs; c_root_name := root_name;
                        c_out_root_parent := out_root_parent;
                        c_alethe_path := alethe_path; c_base_name := base_name;
                        c_out_dir := out_dir; c_smt2_for_slice := for_slice |} in
            process_holes a c holes smt2_src w1
        end
    end.

End Files.

(** The lines of the status stream: what is printed apart from debug
    lines. *)
Definition status_lines (ls : list out_line) : list out_line :=
  filter (fun l => is_debug l = false) ls.

(** What the backward scan keeps true on an ASCII file: the chunk is a part
    [A] of the file from [pos] on, followed by text without "]", and the file
    from [pos] on is [A] followed by bytes without "]". *)
Definition chunk_inv (old : list Z) (pos : Z) (chunk : list Z) : Prop :=
  0 <= pos /\
  exists A B B', chunk = A ++ B /\ drop (Z.to_nat pos) old = A ++ B' /\
                 (ch "]" ∉ B) /\ (ch "]" ∉ B').

(** ** More example inputs *)

(** A tool whose runs succeed, and an output tree with the companion file
    only. *)
Definition working_tool (n : nat) (cmd : list (list Z)) : process :=
  {| p_stdout := lit "Elaboration successed"; p_stderr := []; p_returncode := 0;
     p_expired := false; p_elapsed_ns := 1500000;
     p_log_unreadable := false |}.

Definition world_fresh : world :=
  {| w_files := {[ lit "/b/sliced_proofs/root/./a/a.smt2" := lit "(check-sat)" ]};
     w_stdout := []; w_runs := []; w_appends := [] |}.

(** A ledger of more than two blocks: an ASCII record, the closing bracket
    at offset 2507, and a long run of spaces after it. *)
Definition ledger_padded : list Z :=
  lit "[
  {" ++ repeat 32 2500 ++ lit "}
]" ++ repeat 32 3000.

(** A tree with a certificate and its companion file beside it, before
    anything was sliced. *)
Definition world_beside : world :=
  {| w_files := {[ lit "/b/root/a.smt2.alethe" := cert_example;
                   lit "/b/root/a.smt2" := lit "(check-sat)" ]};
     w_stdout := []; w_runs := []; w_appends := [] |}.

Definition cert_beside_example : certificate :=
  {| c_root_abs := lit "/b/root"; c_root_name := lit "root";
     c_out_root_parent := lit "/b"; c_alethe_path := lit "/b/root/a.smt2.alethe";
     c_base_name := lit "a"; c_out_dir := lit "/b/sliced_proofs/root/./a";
     c_smt2_for_slice := lit "/b/root/a.smt2" |}.

(** A tree with a certificate and no companion file. *)
Definition world_no_companion : world :=
  {| w_files := {[ lit "/b/root/a.smt2.alethe" := cert_example ]};
     w_stdout := []; w_runs := []; w_appends := [] |}.

(** A tree where the companion file can be read and the certificate
    cannot. *)
Definition world_unreadable : world :=
  {| w_files := {[ lit "/b/root/a.smt2" := lit "(check-sat)" ]};
     w_stdout := []; w_runs := []; w_appends := [] |}.

(** A tool whose run goes well (a clean log, exit code 0, no timeout) in an
    environment where the log cannot be read back afterwards. *)
Definition unreadable_log_tool (n : nat) (cmd : list (list Z)) : process :=
  {| p_stdout := lit "Elaboration successed"; p_stderr := []; p_returncode := 0;
     p_expired := false; p_elapsed_ns := 1500000;
     p_log_unreadable := true |}.

(* ===================================================================== *)
(** * Part II: properties *)
(* ===================================================================== *)

(** C7: [human_elapsed] maps 500,000 ns to "500000ns", 1,000,000 ns to "1ms"
    and 60,000,000,000 ns to "1.00m". *)
Theorem human_elapsed_boundaries :
  human_elapsed 500000 = Ret (lit "500000ns") /\
  human_elapsed 1000000 = Ret (lit "1ms") /\
  human_elapsed 60000000000 = Ret (lit "1.00m").
Proof. repeat split; vm_compute; reflexivity. Qed.

(** ** Hole discovery *)

Section Holes.

Implicit Types (ls : list (Z * list Z)) (holes : list (list Z * Z)).

Lemma collect_holes_filter ls :
  collect_holes ls = filter (fun h => has_dot h.1 = false) (marker_occurrences ls).
Proof.
  induction ls as [|[lineno line] rest IH]; [done|].
  cbn [collect_holes marker_occurrences].
  destruct (str_in HOLE_MARKER line); [|done].
  destruct (step_name_search line) as [name|]; [|done].
  rewrite filter_cons. cbn [fst]. fold (has_dot name).
  destruct (has_dot name) eqn:E.
  - rewrite decide_False by done. done.
  - rewrite decide_True by done. by rewrite IH.
Qed.

Lemma uniq_holes_names seen holes name :
  name ∈ (uniq_holes seen holes).*1 <-> name ∈ holes.*1 /\ name ∉ seen.
Proof.
  revert seen. induction holes as [|h t IH]; intros seen; cbn [uniq_holes].
  - set_solver.
  - destruct (decide (h.1 ∈ seen)).
    + rewrite IH. set_solver.
    + rewrite !fmap_cons, !elem_of_cons, IH.
      destruct (decide (name = h.1)); set_solver.
Qed.

Lemma uniq_holes_NoDup seen holes : NoDup (uniq_holes seen holes).*1.
Proof.
  revert seen. induction holes as [|h t IH]; intros seen; cbn [uniq_holes].
  - constructor.
  - destruct (decide (h.1 ∈ seen)); [apply IH|].
    rewrite fmap_cons. constructor; [|apply IH].
    rewrite uniq_holes_names. set_solver.
Qed.

Lemma uniq_holes_first seen holes x :
  x ∈ uniq_holes seen holes -> first_occurrence x holes.
Proof.
  revert seen. induction holes as [|h t IH]; intros seen; cbn [uniq_holes].
  - by intros ?%elem_of_nil.
  - destruct (decide (h.1 ∈ seen)) as [Hin|Hnin].
    + intros Hx. assert (Hn : x.1 ∉ seen).
      { assert (x.1 ∈ (uniq_holes seen t).*1) as Hm by (apply list_elem_of_fmap; eauto).
        apply uniq_holes_names in Hm. tauto. }
      destruct (IH _ Hx) as (pre & post & -> & Hpre).
      exists (h :: pre), post. split; [done|].
      rewrite fmap_cons, not_elem_of_cons. split; [congruence|done].
    + intros [->|Hx]%elem_of_cons.
      * exists [], t. split; [done|]. set_solver.
      * assert (Hn : x.1 ∉ {[ h.1 ]} ∪ seen).
        { assert (x.1 ∈ (uniq_holes ({[ h.1 ]} ∪ seen) t).*1) as Hm
            by (apply list_elem_of_fmap; eauto).
          apply uniq_holes_names in Hm. tauto. }
        destruct (IH _ Hx) as (pre & post & -> & Hpre).
        exists (h :: pre), post. split; [done|].
        rewrite fmap_cons, not_elem_of_cons. split; [set_solver|done].
Qed.

(** A first occurrence among the entries that pass a test on names is a
    first occurrence among all entries. *)
Lemma first_occurrence_filter (P : list Z -> bool) x holes :
  first_occurrence x (filter (fun h => P h.1 = false) holes) ->
  first_occurrence x holes.
Proof.
  induction holes as [|h t IH]; intros (pre & post & Heq & Hpre).
  - rewrite filter_nil in Heq. by destruct pre.
  - rewrite filter_cons in Heq. destruct (decide (P h.1 = false)) as [Hp|Hp].
    + destruct pre as [|p pre].
      * injection Heq as Hh _. subst h. exists [], t. split; [done|]. set_solver.
      * injection Heq as Hh Heq. subst p.
        destruct IH as (pre' & post' & -> & Hpre').
        { exists pre, post. split; [done|]. set_solver. }
        exists (h :: pre'), post'. split; [done|]. set_solver.
    + assert (Hx : P x.1 = false).
      { assert (x ∈ filter (fun h => P h.1 = false) t) as Hin
          by (rewrite Heq; set_solver).
        by apply list_elem_of_filter in Hin as [? _]. }
      destruct IH as (pre' & post' & -> & Hpre').
      { by exists pre, post. }
      exists (h :: pre'), post'. split; [done|].
      rewrite fmap_cons, not_elem_of_cons. split; [congruence|done].
Qed.

End Holes.

(** C3: the holes of a certificate have pairwise distinct names, no name
    with a "." among them, and each one carries the line number of the first
    marker occurrence of its name; marker occurrences h1, h1.sub, h1, h2 give
    exactly h1 (at its first line) and h2. *)
Theorem holes_in_alethe_dedup fs path ls :
  read_file_lines fs path = Ret ls ->
  exists holes,
    holes_in_alethe fs path = Ret holes /\
    NoDup holes.*1 /\
    (forall name, has_dot name = true -> name ∉ holes.*1) /\
    (forall h, h ∈ holes -> first_occurrence h (marker_occurrences ls)) /\
    (forall a b c d,
        marker_occurrences ls
          = [(lit "h1", a); (lit "h1.sub", b); (lit "h1", c); (lit "h2", d)] ->
        holes = [(lit "h1", a); (lit "h2", d)]).
Proof.
  intros Hread. unfold holes_in_alethe. rewrite Hread. cbn [py_bind].
  eexists. split; [reflexivity|]. repeat split.
  - apply uniq_holes_NoDup.
  - intros name Hdot Hin. apply uniq_holes_names in Hin as [Hin _].
    rewrite collect_holes_filter in Hin.
    apply list_elem_of_fmap in Hin as ([n l] & -> & Hin).
    apply list_elem_of_filter in Hin as [Hn _]. cbn [fst] in *. congruence.
  - intros h Hin. apply uniq_holes_first in Hin.
    rewrite collect_holes_filter in Hin.
    by apply (first_occurrence_filter has_dot) in Hin.
  - intros a b c d Hocc. rewrite collect_holes_filter, Hocc.
    vm_compute. reflexivity.
Qed.

Lemma holes_in_alethe_dedup_witness :
  holes_in_alethe {[ lit "a.smt2.alethe" := cert_example ]} (lit "a.smt2.alethe")
    = Ret [(lit "h1", 1); (lit "h2", 5)].
Proof.
  destruct (holes_in_alethe_dedup
              {[ lit "a.smt2.alethe" := cert_example ]} (lit "a.smt2.alethe")
              (enumerate 1 (lines_of (universal_newlines (decode_ignore cert_example)))))
    as (holes & -> & _ & _ & _ & Hex).
  - vm_compute. reflexivity.
  - f_equal. apply (Hex 1 2 4 5). vm_compute. reflexivity.
Defined.

(** C8: when the certificate cannot be opened, [holes_in_alethe] raises (the
    error reaches the caller), while the scanner of slice_to_json.py skips
    the file with no result. *)
Theorem holes_in_alethe_unreadable_raises fs path folder file :
  holes_in_alethe (delete path fs) path = Raise OSError /\
  scan_file (delete path fs) folder file path = [].
Proof.
  unfold scan_file, holes_in_alethe, read_file_lines, read_text.
  rewrite lookup_delete_eq. done.
Qed.

(** ** Text helpers *)

Lemma count_from_nonneg sub s skip : 0 <= count_from sub s skip.
Proof.
  revert skip. induction s as [|c t IH]; intros skip; cbn [count_from]; [lia|].
  destruct skip; [|apply IH].
  destruct (starts_with sub (c :: t)); [|apply IH].
  specialize (IH (length sub - 1)%nat). lia.
Qed.

Lemma str_count_nonneg sub s : 0 <= str_count sub s.
Proof.
  unfold str_count. destruct sub; [lia|apply count_from_nonneg].
Qed.

Lemma app_nonempty_neq (a b : list Z) : b <> [] -> a <> a ++ b.
Proof.
  intros Hb Heq. apply (f_equal length) in Heq. rewrite length_app in Heq.
  destruct b; [done|]. cbn in Heq. lia.
Qed.

(** ** Elaboration and slicing executors *)

Section Executors.

Variable tool : nat -> list (list Z) -> process.

(** C1 (as the code has it): whatever the tool writes to the log and
    whether or not it times out, [run_elaborate] returns ok exactly when the
    log could be read back and the run did not time out, did not panic, and
    no check failed.  So ok always implies the three conditions of the
    claim; the converse holds whenever the log is read back, and fails when
    reading it raises: the result is then not ok although nothing was
    counted and no panic was seen (script.py:194-195). *)
Theorem run_elaborate_ok_iff
  (slice_path smt2_path out_log_path rare_file : list Z)
  (allow_int_real add_pipeline no_print_with_sharing parse_hole_args : bool)
  (timeout_sec : Z) (w : world) :
  let cmd := elaborate_cmd slice_path smt2_path rare_file allow_int_real
               add_pipeline no_print_with_sharing parse_hole_args in
  let proc := tool (length (w_runs w)) cmd in
  let r := (run_elaborate tool slice_path smt2_path out_log_path rare_file
              allow_int_real add_pipeline no_print_with_sharing parse_hole_args
              timeout_sec w).2 in
  (r_ok r = true <->
   p_log_unreadable proc = false /\
   r_timed_out r = false /\ r_panicked r = false /\ r_failed r = 0) /\
  (p_log_unreadable proc = true ->
   r_ok r = false /\ r_success r = 0 /\ r_failed r = 0 /\ r_panicked r = false).
Proof.
  cbv zeta. unfold run_elaborate, read_text. cbn [set_files w_files].
  rewrite lookup_insert_eq.
  destruct (p_log_unreadable (tool _ _)).
  { cbn [snd r_ok r_timed_out r_panicked r_failed r_success orb Z.ltb Z.compare].
    rewrite orb_false_r.
    split; [|intros _; split_and!; try done; by destruct (_ && _)].
    split; [by destruct (_ && _)|]. by intros [? _]. }
  cbn [snd r_ok r_timed_out r_panicked r_failed r_success].
  split; [|done].
  set (data := universal_newlines _).
  pose proof (str_count_nonneg (lit "Check failed:") data) as Hf.
  destruct ((0 <? timeout_sec) && _), (str_in _ data); cbn [orb];
    try (split; [done|]; intros (? & ? & ? & ?); done).
  destruct (0 <? str_count (lit "Check failed:") data) eqn:E.
  - apply Z.ltb_lt in E. split; [done|]. intros (_ & _ & _ & ?). lia.
  - apply Z.ltb_ge in E. split; [|done]. intros _. repeat split. lia.
Qed.

(** C5: a run of [run_slice] starts the tool once, leaves its output in the
    artifact, and reports success exactly when the exit code is zero and the
    artifact is not empty; a failure carries the path of the stderr file,
    and after a success without debug an empty stderr file is gone. *)
Theorem run_slice_outcome
  (from_hole alethe_path smt2_path out_slice_path : list Z)
  (parse_hole_args no_print_with_sharing debug : bool) (w : world) :
  let cmd := slice_cmd from_hole alethe_path smt2_path parse_hole_args
               no_print_with_sharing in
  let proc := tool (length (w_runs w)) cmd in
  let stderr_path := out_slice_path ++ lit ".stderr" in
  let out := run_slice tool from_hole alethe_path smt2_path out_slice_path
               parse_hole_args no_print_with_sharing debug w in
  let w' := out.1 in
  let ok := out.2.1 in
  w_runs w' = w_runs w ++ [cmd] /\
  w_files w' !! out_slice_path = Some (p_stdout proc) /\
  (ok = true <-> p_returncode proc = 0 /\ p_stdout proc <> []) /\
  (ok = false ->
     out.2.2 = Some stderr_path /\
     w_files w' !! stderr_path = Some (p_stderr proc)) /\
  (ok = true -> out.2.2 = None) /\
  (ok = true -> debug = false -> p_stderr proc = [] ->
     w_files w' !! stderr_path = None) /\
  (ok = true -> debug = true \/ p_stderr proc <> [] ->
     w_files w' !! stderr_path = Some (p_stderr proc)).
Proof.
  intros cmd proc stderr_path out w' ok.
  assert (Hne : out_slice_path <> stderr_path) by (by apply app_nonempty_neq).
  assert (Hsz : forall l : list Z,
             (Z.of_nat (length l) =? 0) = match l with [] => true | _ => false end)
    by (intros []; done).
  subst w' ok out. unfold run_slice. fold cmd stderr_path.
  set (w1 := if debug then _ else w).
  assert (Hruns : w_runs w1 = w_runs w) by (subst w1; by destruct debug).
  clearbody w1. rewrite Hruns. fold proc.
  unfold getsize. rewrite lookup_insert_eq, lookup_insert_ne, lookup_insert_eq by done.
  cbn [default from_option id]. rewrite !Hsz.
  destruct (p_stdout proc) as [|b bs] eqn:Hout; cbn [orb].
  { cbn [fst snd set_files record_run w_runs w_files]. rewrite Hruns.
    rewrite lookup_insert_eq, lookup_insert_ne, lookup_insert_eq by done.
    repeat split; try done. intros [_ ?]. done. }
  destruct (p_returncode proc =? 0) eqn:Hrc; cbn [negb].
  - apply Z.eqb_eq in Hrc.
    destruct (p_stderr proc) as [|e es] eqn:Herr; cbn [andb].
    + destruct debug; cbn [negb fst snd set_files record_run w_runs w_files];
        rewrite ?Hruns, ?lookup_delete_eq, ?lookup_insert_ne, ?lookup_insert_eq by done;
        repeat split; try done; try (intros _ [?|?]; done).
      rewrite lookup_delete_ne, lookup_insert_ne, lookup_insert_eq by done. done.
    + cbn [andb fst snd set_files record_run w_runs w_files].
      rewrite Hruns, lookup_insert_eq, lookup_insert_ne, lookup_insert_eq by done.
      repeat split; try done.
  - apply Z.eqb_neq in Hrc.
    cbn [fst snd set_files record_run w_runs w_files].
    rewrite Hruns, lookup_insert_eq, lookup_insert_ne, lookup_insert_eq by done.
    repeat split; try done. intros [? _]. done.
Qed.

End Executors.

(** C1, where the claim as written fails: the tool leaves a clean log and
    exits with code 0 before any timeout, but reading the log back raises.
    The run has not timed out, no panic was seen and no failed check was
    counted, and yet the result is not ok. *)
Lemma run_elaborate_ok_counterexample :
  let r := (run_elaborate unreadable_log_tool
              (lit "/b/sliced_proofs/root/./a/a__from-t1.smt2.alethe")
              (lit "/b/sliced_proofs/root/./a/a.smt2")
              (lit "/b/sliced_proofs/root/./a/a__from-t1.out")
              (lit "big.rare") true true false false 60 world_fresh).2 in
  r_timed_out r = false /\ r_panicked r = false /\ r_failed r = 0 /\
  r_ok r = false /\
  ~ (r_ok r = true <->
     r_timed_out r = false /\ r_panicked r = false /\ r_failed r = 0).
Proof.
  cbv zeta. split_and!; try (vm_compute; reflexivity).
  intros [_ H]. by specialize (H (conj eq_refl (conj eq_refl eq_refl))).
Qed.

(** ** The orchestrator on a cached job *)

Section Orchestrator.

Variable tool : nat -> list (list Z) -> process.
Variable relpath : list Z -> list Z -> option (list Z).

Lemma isfile_true fs p : isfile fs p = true <-> is_Some (fs !! p).
Proof.
  unfold isfile. destruct (fs !! p) eqn:E; split; done.
Qed.

(** The transfer of the companion file starts no process, appends nothing,
    prints debug lines only, and touches no file but its source and its
    target. *)
Lemma transfer_smt2_frame a c smt2_src w :
  let out := transfer_smt2 relpath a c smt2_src w in
  let w' := out.1.1 in
  w_runs w' = w_runs w /\
  w_appends w' = w_appends w /\
  (exists dbg, w_stdout w' = w_stdout w ++ dbg /\ forallb is_debug dbg = true) /\
  (forall p, p <> smt2_target_of c -> smt2_src <> Some p -> p <> c_smt2_for_slice c ->
             w_files w' !! p = w_files w !! p) /\
  (forall p, isfile (w_files w) p = true -> smt2_src <> Some p ->
             p <> c_smt2_for_slice c -> isfile (w_files w') p = true).
Proof.
  unfold transfer_smt2.
  destruct (find_existing_smt2_for_base _ _ _) as [dest|].
  { cbn [fst snd]. split_and!; try done. eexists; split; [symmetry; apply app_nil_r|done]. }
  cbv zeta.
  set (src1 := if negb (usable_file (w_files w) smt2_src) && _
               then Some (c_smt2_for_slice c) else smt2_src).
  assert (Hsrc : src1 = smt2_src \/ src1 = Some (c_smt2_for_slice c)).
  { subst src1. destruct (_ && _); auto. }
  clearbody src1.
  destruct (usable_file (w_files w) src1) eqn:Hu; cycle 1.
  { cbn [fst snd]. split_and!; try done. eexists; split; [symmetry; apply app_nil_r|done]. }
  assert (Hdef : src1 = Some (default [] src1)).
  { unfold usable_file in Hu. destruct src1 as [[|]|]; done. }
  set (src := default [] src1) in *. clearbody src.
  assert (Hp : forall p, smt2_src <> Some p -> p <> c_smt2_for_slice c -> src <> p).
  { intros p H1 H2 Heq. subst p. destruct Hsrc as [E|E]; congruence. }
  destruct (a_no_move a), (a_debug a);
    cbn [fst snd set_files print w_runs w_appends w_stdout w_files];
    (split_and!; [done | done | | | ]);
    try (eexists; split; [reflexivity|done]);
    try (eexists; split; [symmetry; apply app_nil_r|done]).
  all: try (intros p H1 H2 H3; rewrite ?lookup_insert_ne by done;
            rewrite ?lookup_delete_ne by (by apply Hp); done).
  all: intros p [x Hx]%isfile_true H2 H3; apply isfile_true;
       destruct (decide (smt2_target_of c = p)) as [->|Hn];
       [rewrite lookup_insert_eq; eauto|];
       rewrite lookup_insert_ne by done;
       rewrite ?lookup_delete_ne by (by apply Hp); eauto.
Qed.

(** C4 (amended): a job whose elaboration log and slice artifact are both
    present (and whose companion file is not the log itself) is answered from
    the cache: apart from debug lines, exactly one line is printed, with
    status ok and cached true; no process is started, nothing is appended to
    the ledger, and no file but the companion file and its copy in the output
    directory changes. *)
Theorem cached_job_replayed a c hole_name line_no smt2_src w :
  isfile (w_files w) (out_log_path_of c hole_name) = true ->
  isfile (w_files w) (slice_path_of c hole_name) = true ->
  smt2_src <> Some (out_log_path_of c hole_name) ->
  c_smt2_for_slice c <> out_log_path_of c hole_name ->
  let out := process_hole tool relpath a c (hole_name, line_no) smt2_src w in
  let w' := out.1 in
  (exists src', out.2 = Ret src') /\
  (exists dbg, w_stdout w' = w_stdout w ++ dbg ++ [cached_line relpath c hole_name] /\
               forallb is_debug dbg = true) /\
  (exists fields, cached_line relpath c hole_name = JsonLine fields /\
                  fields !! 0%nat = Some (lit "status", SStr (lit "ok")) /\
                  fields !! 1%nat = Some (lit "cached", SBool true)) /\
  w_runs w' = w_runs w /\
  w_appends w' = w_appends w /\
  (forall p, p <> smt2_target_of c -> smt2_src <> Some p -> p <> c_smt2_for_slice c ->
             w_files w' !! p = w_files w !! p).
Proof.
  intros Hlog Hslice Hsrc Hfor. unfold process_hole.
  rewrite Hslice. cbn [negb].
  pose proof (transfer_smt2_frame a c smt2_src w) as (Hr & Ha & (dbg & Ho & Hd) & Hf & He).
  destruct (transfer_smt2 relpath a c smt2_src w) as [[w2 src2] dest].
  cbn [fst snd] in *.
  rewrite (He _ Hlog) by done.
  cbn [fst snd print w_stdout w_runs w_appends w_files].
  split_and!; try done.
  - by eexists.
  - exists dbg. rewrite Ho, <- app_assoc. done.
  - eexists. split; [reflexivity|]. done.
Qed.

End Orchestrator.

(** C4 as stated fails: the log is there, yet the slice tool is started and,
    when it fails, the status line is slice_error and not a cached ok. *)
Lemma cached_job_counterexample :
  let out := process_hole failing_tool (fun _ _ => None) args_example cert_ctx_example
               (lit "t1", 7) None world_log_only in
  isfile (w_files world_log_only) (out_log_path_of cert_ctx_example (lit "t1")) = true /\
  w_runs out.1 =
    [slice_cmd (lit "t1") (lit "/b/root/a.smt2.alethe")
       (lit "/b/sliced_proofs/root/./a/a.smt2") true true] /\
  w_stdout out.1 =
    [slice_error_line (fun _ _ => None) cert_ctx_example (lit "t1") 7
       (Some (lit "/b/sliced_proofs/root/./a/a__from-t1.smt2.alethe.stderr"))] /\
  w_stdout out.1 <> [cached_line (fun _ _ => None) cert_ctx_example (lit "t1")].
Proof. vm_compute. repeat split; congruence. Qed.

Lemma cached_job_replayed_witness :
  let out := process_hole failing_tool (fun _ _ => None) args_example cert_ctx_example
               (lit "t1", 7) None world_cached in
  w_stdout out.1 = [cached_line (fun _ _ => None) cert_ctx_example (lit "t1")] /\
  w_runs out.1 = [] /\ w_appends out.1 = [].
Proof.
  destruct (cached_job_replayed failing_tool (fun _ _ => None) args_example
              cert_ctx_example (lit "t1") 7 None world_cached)
    as (_ & (dbg & Hout & Hdbg) & _ & Hruns & Happ & _).
  - vm_compute. reflexivity.
  - vm_compute. reflexivity.
  - discriminate.
  - vm_compute. discriminate.
  - cbv zeta. split_and!; [|exact Hruns|exact Happ].
    vm_compute. reflexivity.
Defined.

(** ** Searching for one character *)

Lemma starts_with_single c s :
  starts_with [c] s = match s with x :: _ => c =? x | [] => false end.
Proof. destruct s as [|x t]; [done|]. cbn. by rewrite andb_true_r. Qed.

Lemma str_in_single c s : str_in [c] s = true <-> c ∈ s.
Proof.
  induction s as [|x t IH].
  - cbn. split; [done|]. by intros ?%elem_of_nil.
  - cbn [str_in]. rewrite starts_with_single, orb_true_iff, IH, elem_of_cons.
    rewrite Z.eqb_eq. done.
Qed.

Lemma str_in_single_false c s : str_in [c] s = false <-> c ∉ s.
Proof.
  rewrite <- str_in_single. destruct (str_in [c] s); split; done.
Qed.

Lemma rfind_from_absent c s i acc : c ∉ s -> rfind_from [c] s i acc = acc.
Proof.
  revert i acc. induction s as [|x t IH]; intros i acc Hn; [done|].
  cbn [rfind_from]. rewrite starts_with_single.
  apply not_elem_of_cons in Hn as [Hx Ht].
  replace (c =? x) with false by (symmetry; by apply Z.eqb_neq).
  by apply IH.
Qed.

Lemma rfind_from_last c l t i acc :
  c ∉ t -> rfind_from [c] (l ++ c :: t) i acc = i + Z.of_nat (length l).
Proof.
  revert i acc. induction l as [|x l IH]; intros i acc Hn.
  - cbn [app rfind_from length]. rewrite starts_with_single, Z.eqb_refl.
    rewrite rfind_from_absent by done. cbn. lia.
  - cbn [app rfind_from]. rewrite IH by done. cbn [length]. lia.
Qed.

Lemma str_rfind_last c l t :
  c ∉ t -> str_rfind [c] (l ++ c :: t) = Z.of_nat (length l).
Proof. intros. unfold str_rfind. by rewrite rfind_from_last. Qed.

Lemma str_rfind_absent c s : c ∉ s -> str_rfind [c] s = -1.
Proof. intros. unfold str_rfind. by rewrite rfind_from_absent. Qed.

(** A found index is the offset of an occurrence with none after it. *)
Lemma str_rfind_found c s :
  c ∈ s ->
  exists l t, s = l ++ c :: t /\ (c ∉ t) /\ str_rfind [c] s = Z.of_nat (length l).
Proof.
  induction s as [|x s IH]; [by intros ?%elem_of_nil|].
  intros Hin. destruct (decide (c ∈ s)) as [Hs|Hs].
  - destruct (IH Hs) as (l & t & -> & Ht & _).
    exists (x :: l), t. split; [done|]. split; [done|].
    by apply (str_rfind_last c (x :: l) t).
  - apply elem_of_cons in Hin as [->|]; [|done].
    exists [], s. split; [done|]. split; [done|].
    by apply (str_rfind_last x [] s).
Qed.

(** ** UTF-8 on ASCII text *)

Lemma is_ascii_spec s : is_ascii s = true <-> Forall (fun c => 0 <= c < 128) s.
Proof.
  induction s as [|c t IH]; cbn [is_ascii forallb].
  - split; [constructor|done].
  - fold (is_ascii t). rewrite andb_true_iff, Forall_cons, IH. intuition lia.
Qed.

Lemma is_ascii_app a b : is_ascii (a ++ b) = is_ascii a && is_ascii b.
Proof. apply forallb_app. Qed.

Lemma utf8_decode_ascii mode s : is_ascii s = true -> utf8_decode mode s = Some s.
Proof.
  induction s as [|c t IH]; [done|].
  cbn [is_ascii forallb]. intros [Hc Ht]%andb_true_iff.
  cbn [utf8_decode]. replace (c <? 128) with true by lia.
  rewrite (IH Ht). done.
Qed.

Lemma decode_ignore_ascii s : is_ascii s = true -> decode_ignore s = s.
Proof. intros H. unfold decode_ignore. by rewrite utf8_decode_ascii. Qed.

Lemma utf8_encode_ascii s : is_ascii s = true -> utf8_encode s = Some s.
Proof.
  induction s as [|c t IH]; [done|].
  cbn [is_ascii forallb]. intros [Hc Ht]%andb_true_iff.
  cbn [utf8_encode]. rewrite (IH Ht). unfold utf8_encode_char.
  replace (c <? 0) with false by lia. replace (c <? 128) with true by lia. done.
Qed.

Lemma is_ascii_drop n s : is_ascii s = true -> is_ascii (drop n s) = true.
Proof.
  rewrite !is_ascii_spec. apply Forall_drop.
Qed.

(** A character of the decoded text is a byte of the input below 128 or a
    code point from 128 on: decoding neither makes nor hides a "]". *)
Lemma utf8_decode_ignore_chars bs :
  forall s c, utf8_decode Ignore bs = Some s -> c ∈ s -> c < 128 -> c ∈ bs.
Proof.
  induction bs as [bs IH] using (induction_ltof1 _ (@length Z)). unfold ltof in IH.
  intros s c. destruct bs as [|b0 t0]; [cbn; intros [= <-]; by intros ?%elem_of_nil|].
  assert (Hrec : forall t s', (length t < length (b0 :: t0))%nat ->
            utf8_decode Ignore t = Some s' -> c ∈ s' -> c < 128 -> c ∈ t).
  { intros t s' Hl. by apply IH. }
  assert (Htail : forall t s', utf8_decode Ignore t = Some s' ->
            (exists k, b0 :: t0 = k ++ t /\ k <> []) -> c ∈ s' -> c < 128 -> c ∈ b0 :: t0).
  { intros t s' Hd (k & Hk & Hne) Hc Hlt. rewrite Hk. apply elem_of_app. right.
    eapply Hrec; eauto. rewrite Hk, length_app. destruct k; [done|]. cbn. lia. }
  assert (Hcons : forall t x s', (cons x <$> utf8_decode Ignore t) = Some s' ->
            exists s'', utf8_decode Ignore t = Some s'' /\ s' = x :: s'').
  { intros t x s' H. destruct (utf8_decode Ignore t); [|done]. injection H as <-. eauto. }
  cbn [utf8_decode].
  repeat match goal with
  | |- context [if ?b then _ else _] => destruct b eqn:?
  | |- context [match ?l with [] => _ | _ :: _ => _ end] => destruct l eqn:?
  | |- (cons _ <$> _) = Some _ -> _ =>
      let H := fresh in intros H; apply Hcons in H as (? & ? & ->); intros [->|?]%elem_of_cons ?
  | |- Some [] = Some _ -> _ => intros [= <-]; by intros ?%elem_of_nil
  | |- utf8_decode Ignore _ = Some _ -> _ => let H := fresh in intros H ? ?
  end; subst.
  all: try (unfold is_cont, second_of_3, second_of_4 in *; lia).
  all: try (by left).
  all: try (by apply elem_of_list_here).
  all: try (eapply Htail; [eassumption| |eassumption|eassumption]).
  all: try (by exists [b0]).
  all: try (by eexists [b0; _]).
  all: try (by eexists [b0; _; _]).
  all: try (by eexists [b0; _; _; _]).
  all: exfalso; unfold second_of_3, second_of_4, is_cont in *;
    repeat match goal with
    | H : _ && _ = true |- _ => apply andb_true_iff in H as [? ?]
    | H : negb _ = true |- _ => apply negb_true_iff in H
    | H : _ && _ = false |- _ => apply andb_false_iff in H as [?|?]
    end; lia.
Qed.

(** ** The backward scan of the ledger *)

Lemma decode_ignore_chars bs c : c ∈ decode_ignore bs -> c < 128 -> c ∈ bs.
Proof.
  unfold decode_ignore. destruct (utf8_decode Ignore bs) as [s|] eqn:E.
  - cbn. by apply utf8_decode_ignore_chars.
  - cbn. by intros ?%elem_of_nil.
Qed.

Lemma elem_of_take_drop (old : list Z) n m c : c ∈ take n (drop m old) -> c ∈ old.
Proof.
  intros H. apply list_elem_of_lookup in H as [i Hi].
  apply lookup_take_Some in Hi as [Hi _]. rewrite lookup_drop in Hi.
  apply list_elem_of_lookup. eauto.
Qed.

Lemma elem_of_drop (old : list Z) m c : c ∈ drop m old -> c ∈ old.
Proof.
  intros H. apply list_elem_of_lookup in H as [i Hi]. rewrite lookup_drop in Hi.
  apply list_elem_of_lookup. eauto.
Qed.

(** The chunk only ever holds ASCII characters that are bytes of the file. *)
Lemma scan_back_chars fuel old pos chunk c :
  (c ∈ chunk -> c ∈ old) -> c < 128 ->
  c ∈ (scan_back fuel old pos chunk).2 -> c ∈ old.
Proof.
  revert pos chunk. induction fuel as [|f IH]; intros pos chunk Hc Hlt; cbn [scan_back].
  - done.
  - destruct (negb (str_in BRACKET chunk) && (0 <? pos)); [|done].
    apply IH; [|done].
    intros [H|H]%elem_of_app; [|auto].
    apply decode_ignore_chars in H; [|done]. by apply elem_of_take_drop in H.
Qed.

(** The loop ends with a "]" in the chunk or at the start of the file. *)
Lemma scan_back_exit fuel old pos chunk :
  pos <= Z.of_nat fuel ->
  let r := scan_back fuel old pos chunk in
  str_in BRACKET r.2 = true \/ r.1 <= 0.
Proof.
  revert pos chunk. induction fuel as [|f IH]; intros pos chunk Hle; cbn [scan_back].
  - right. cbn. lia.
  - destruct (str_in BRACKET chunk) eqn:Hin; cbn [negb andb]; [by left|].
    destruct (0 <? pos) eqn:Hpos; [|right; cbn; lia].
    apply IH. lia.
Qed.

(** C6: when the file holds no "]", [append_json_array] never rewrites it
    as an array: it raises, leaving the file untouched (parsed content that
    is not a list) or empty (everything else). *)
Theorem fallback_never_rewrites (old : list Z) (e : list (list Z * scalar)) :
  old <> [] -> ch "]" ∉ old ->
  append_json_array (Some old) e = (Some [], Raise TypeError) \/
  append_json_array (Some old) e = (Some old, Raise AttributeError).
Proof.
  intros Hne Hnb. unfold append_json_array.
  replace (Z.of_nat (length old) =? 0) with false
    by (destruct old; [done|]; symmetry; apply Z.eqb_neq; cbn; lia).
  destruct (scan_back _ _ _ _) as [pos chunk] eqn:Hs.
  assert (Hc : ch "]" ∉ chunk).
  { intros Hin. apply Hnb.
    apply (scan_back_chars (length old) old
             (Z.max 0 (Z.of_nat (length old) - 1024))
             (decode_ignore (drop (Z.to_nat (Z.max 0 (Z.of_nat (length old) - 1024))) old)));
      [| done | by rewrite Hs].
    intros H. apply decode_ignore_chars in H; [|done]. by apply elem_of_drop in H. }
  unfold BRACKET. change (lit "]") with [ch "]"].
  rewrite str_rfind_absent by done. cbn [Z.eqb].
  destruct (json_load old) as [v|]; [|by left].
  destruct (truthy v); [|by left].
  destruct v; auto.
Qed.

(** ** The text of a record is ASCII when the record is *)

Lemma is_ascii_uint_chars d : is_ascii (uint_chars d) = true.
Proof. induction d; cbn; auto. Qed.

Lemma is_ascii_str_of_int z : is_ascii (str_of_int z) = true.
Proof.
  unfold str_of_int, str_of_nat. destruct (z <? 0); cbn [is_ascii forallb];
    fold (is_ascii (uint_chars (N.to_uint (Z.to_N (- z)))));
    rewrite ?is_ascii_uint_chars; done || apply is_ascii_uint_chars.
Qed.

Lemma hex_digit_ascii n : 0 <= n < 16 -> 0 <= hex_digit n < 128.
Proof. unfold hex_digit. destruct (n <? 10); lia. Qed.

Lemma is_ascii_escape_char c : 0 <= c < 128 -> is_ascii (escape_char c) = true.
Proof.
  intros Hc. unfold escape_char.
  repeat match goal with |- context [if ?b then _ else _] => destruct b eqn:? end;
    try done.
  - cbn [is_ascii forallb]. 
    pose proof (hex_digit_ascii (c / 16)) as H1.
    pose proof (hex_digit_ascii (c mod 16)) as H2.
    assert (0 <= c / 16 < 16) by (split; [apply Z.div_pos; lia|apply Z.div_lt_upper_bound; lia]).
    assert (0 <= c mod 16 < 16) by (apply Z.mod_pos_bound; lia).
    repeat (apply andb_true_iff; split); try done; lia.
  - cbn [is_ascii forallb]. rewrite andb_true_r. lia.
Qed.

Lemma is_ascii_flat_map_escape s :
  is_ascii s = true -> is_ascii (flat_map escape_char s) = true.
Proof.
  induction s as [|c t IH]; [done|].
  cbn [is_ascii forallb flat_map]. intros [Hc Ht]%andb_true_iff.
  rewrite is_ascii_app, is_ascii_escape_char by lia. cbn. by apply IH.
Qed.

Lemma is_ascii_encode_str s : is_ascii s = true -> is_ascii (encode_str s) = true.
Proof.
  intros H. unfold encode_str. cbn [is_ascii forallb]. fold is_ascii.
  change (forallb _ ?l) with (is_ascii l).
  rewrite is_ascii_app, is_ascii_flat_map_escape by done. done.
Qed.

Lemma is_ascii_scalar_text v :
  match v with SStr s => is_ascii s | _ => true end = true ->
  is_ascii (scalar_text v) = true.
Proof.
  destruct v as [|[]|z|s]; cbn [scalar_text]; try done.
  - intros _. apply is_ascii_str_of_int.
  - apply is_ascii_encode_str.
Qed.

Lemma is_ascii_newline_indent level : is_ascii (newline_indent level) = true.
Proof.
  unfold newline_indent. cbn [is_ascii forallb]. change (forallb _ ?l) with (is_ascii l).
  induction level as [|n IH]; [done|].
  cbn [repeat concat]. rewrite is_ascii_app. cbn in *. done.
Qed.

Lemma is_ascii_concat (l : list (list Z)) :
  Forall (fun s => is_ascii s = true) l -> is_ascii (concat l) = true.
Proof.
  induction 1 as [|s l Hs _ IH]; [done|]. cbn [concat]. by rewrite is_ascii_app, Hs, IH.
Qed.

Lemma member_chunks_ascii level first e :
  ascii_entry e = true ->
  Forall (fun s => is_ascii s = true) (member_chunks level first e).
Proof.
  revert first. induction e as [|[k v] t IH]; intros first; cbn [member_chunks].
  - constructor.
  - cbn [ascii_entry forallb fst snd]. intros [[Hk Hv]%andb_true_iff Ht]%andb_true_iff.
    apply Forall_app. split.
    + destruct first; repeat constructor.
      cbn [is_ascii forallb]. change (forallb _ ?l) with (is_ascii l).
      by rewrite is_ascii_newline_indent.
    + repeat constructor; [by apply is_ascii_encode_str|by apply is_ascii_scalar_text|].
      by apply IH.
Qed.

Lemma dict_chunks_ascii level e :
  ascii_entry e = true -> Forall (fun s => is_ascii s = true) (dict_chunks level e).
Proof.
  intros He. unfold dict_chunks. destruct e as [|kv t]; [repeat constructor|].
  repeat first [apply Forall_cons; split | apply Forall_app; split | apply Forall_nil].
  all: try done; try apply is_ascii_newline_indent.
  by apply member_chunks_ascii.
Qed.

Lemma is_ascii_dumps_entry e : ascii_entry e = true -> is_ascii (dumps_entry e) = true.
Proof. intros. apply is_ascii_concat. by apply dict_chunks_ascii. Qed.

Lemma list1_chunks_ascii e :
  ascii_entry e = true -> Forall (fun s => is_ascii s = true) (list1_chunks e).
Proof.
  intros He. unfold list1_chunks.
  repeat first [apply Forall_cons; split | apply Forall_app; split | apply Forall_nil].
  all: try done. by apply dict_chunks_ascii.
Qed.

Lemma write_chunks_ascii chunks written :
  Forall (fun s => is_ascii s = true) chunks ->
  write_chunks chunks written = (written ++ concat chunks, Ret tt).
Proof.
  intros H. revert written. induction H as [|c t Hc _ IH]; intros written.
  - cbn. by rewrite app_nil_r.
  - cbn [write_chunks concat]. rewrite utf8_encode_ascii by done.
    rewrite IH, <- app_assoc. done.
Qed.

Lemma fallback_never_rewrites_witness :
  append_json_array (Some ledger_cut) entry_plain = (Some [], Raise TypeError) \/
  append_json_array (Some ledger_cut) entry_plain = (Some ledger_cut, Raise AttributeError).
Proof.
  apply fallback_never_rewrites.
  - discriminate.
  - apply (bool_decide_unpack _). vm_compute. reflexivity.
Defined.

(** On the cut ledger the file ends up empty and the call raises; on a ledger
    that holds the number 7 the call raises and the file stays. *)
Lemma fallback_examples :
  append_json_array (Some ledger_cut) entry_plain = (Some [], Raise TypeError) /\
  append_json_array (Some (lit "7")) entry_plain = (Some (lit "7"), Raise AttributeError).
Proof. split; vm_compute; reflexivity. Qed.

(** ** One append to an ASCII ledger *)

(** The ledger ends with its closing bracket and at most a newline: the new
    record goes in place of the bracket, and every byte before stays. *)
Lemma append_ascii_step (body trail : list Z) (e : list (list Z * scalar)) :
  is_ascii body = true -> is_ascii trail = true -> ch "]" ∉ trail ->
  (length trail <= 1)%nat -> ascii_entry e = true ->
  append_json_array (Some (body ++ ch "]" :: trail)) e
  = (Some (body ++ lit ",
" ++ dumps_entry e ++ lit "
]"), Ret tt).
Proof.
  intros Hb Ht Hnt Hlen He. unfold append_json_array.
  set (old := body ++ ch "]" :: trail).
  assert (Hsize : Z.of_nat (length old) = Z.of_nat (length body) + 1 + Z.of_nat (length trail)).
  { subst old. rewrite length_app. cbn [length]. lia. }
  replace (Z.of_nat (length old) =? 0) with false by (symmetry; apply Z.eqb_neq; lia).
  set (pos0 := Z.max 0 (Z.of_nat (length old) - 1024)).
  assert (Hpos : (Z.to_nat pos0 <= length body)%nat) by lia.
  assert (Hdrop : drop (Z.to_nat pos0) old = drop (Z.to_nat pos0) body ++ ch "]" :: trail).
  { subst old. rewrite drop_app_le by done. done. }
  assert (Hold : is_ascii old = true).
  { subst old. rewrite is_ascii_app. cbn [is_ascii forallb]. fold (is_ascii trail).
    by rewrite Hb, Ht. }
  rewrite (decode_ignore_ascii (drop (Z.to_nat pos0) old)) by (by apply is_ascii_drop).
  rewrite Hdrop.
  assert (Hin : str_in BRACKET (drop (Z.to_nat pos0) body ++ ch "]" :: trail) = true).
  { apply (str_in_single (ch "]")). set_solver. }
  assert (Hscan : scan_back (length old) old pos0
                    (drop (Z.to_nat pos0) body ++ ch "]" :: trail)
                  = (pos0, drop (Z.to_nat pos0) body ++ ch "]" :: trail)).
  { destruct (length old); [done|]. cbn [scan_back]. by rewrite Hin. }
  rewrite Hscan.
  unfold BRACKET. change (lit "]") with [ch "]"].
  rewrite str_rfind_last by done. rewrite length_drop.
  replace (Z.of_nat (length body - Z.to_nat pos0) =? -1) with false
    by (symmetry; apply Z.eqb_neq; lia).
  set (tail := lit ",
" ++ dumps_entry e ++ lit "
]").
  assert (Htail : is_ascii tail = true).
  { subst tail. rewrite !is_ascii_app, is_ascii_dumps_entry by done. done. }
  rewrite utf8_encode_ascii by done.
  f_equal. f_equal. unfold write_at.
  replace (Z.to_nat (pos0 + Z.of_nat (length body - Z.to_nat pos0))) with (length body) by lia.
  assert (Hl : (2 + length (dumps_entry e) + 2 <= length tail)%nat).
  { subst tail. rewrite !length_app. cbn. lia. }
  subst old. rewrite take_app_length, drop_app_add.
  rewrite drop_ge by (cbn [length]; lia).
  by rewrite app_nil_r.
Qed.

(** ** Decimal text and its value *)

(** Replace the character literals of the goal by their codes. *)
Ltac chs :=
  repeat match goal with
  | |- context [ch ?s] => let v := eval vm_compute in (ch s) in change (ch s) with v
  end.

Lemma digits_value_revapp d a :
  fold_left (fun acc c => acc * 10 + (c - 48)) (uint_chars d)
            (Z.of_N (DecimalPos.Unsigned.of_lu a))
  = Z.of_N (DecimalPos.Unsigned.of_lu (Decimal.revapp d a)).
Proof.
  revert a. induction d; intros a; cbn [uint_chars fold_left Decimal.revapp]; [done|..];
    rewrite <- IHd; f_equal; cbn [DecimalPos.Unsigned.of_lu]; lia.
Qed.

Lemma digits_value_uint_chars d : digits_value (uint_chars d) = Z.of_N (N.of_uint d).
Proof.
  unfold digits_value, N.of_uint. rewrite DecimalPos.Unsigned.of_uint_alt.
  apply (digits_value_revapp d Decimal.Nil).
Qed.

Lemma digits_value_str_of_nat n : 0 <= n -> digits_value (str_of_nat n) = n.
Proof.
  intros Hn. unfold str_of_nat.
  rewrite digits_value_uint_chars, DecimalN.Unsigned.of_to. lia.
Qed.

Lemma digits_value_app a b :
  digits_value (a ++ b) = digits_value a * 10 ^ Z.of_nat (length b) + digits_value b.
Proof.
  unfold digits_value. rewrite fold_left_app. generalize (fold_left (fun acc c => acc * 10 + (c - 48)) a 0).
  induction b as [|c b IH] using rev_ind; intros z.
  - cbn. lia.
  - rewrite !fold_left_app, length_app. cbn [fold_left length].
    rewrite IH. rewrite Nat2Z.inj_add, Z.pow_add_r by lia.
    change (10 ^ Z.of_nat 1) with 10.
    replace (fold_left (fun acc c0 => acc * 10 + (c0 - 48)) b 0) with (digits_value b) by done.
    lia.
Qed.

Lemma all_digits_uint_chars d : forallb is_digit (uint_chars d) = true.
Proof. induction d; cbn; auto. Qed.

Lemma nzhead_not_D0 u u' : Decimal.nzhead u <> Decimal.D0 u'.
Proof. induction u; cbn; congruence. Qed.

(** A numeral in normal form is "0" or starts with a digit from 1 to 9. *)
Lemma uint_chars_unorm d :
  Decimal.unorm d = d ->
  uint_chars d = [48] \/ exists c t, uint_chars d = c :: t /\ 49 <= c <= 57.
Proof.
  destruct d; cbn [uint_chars]; try (right; eexists _, _; split; [reflexivity|lia]).
  - cbn. discriminate.
  - rewrite unorm_D0. unfold Decimal.unorm.
    destruct (Decimal.nzhead d) eqn:E; try (intros H; by apply nzhead_not_D0 in E || (rewrite H in E; by apply nzhead_not_D0 in E)).
    intros [= <-]. by left.
Qed.

Lemma str_of_nat_shape n :
  str_of_nat n = [48] \/ exists c t, str_of_nat n = c :: t /\ 49 <= c <= 57.
Proof.
  apply uint_chars_unorm.
  rewrite <- DecimalN.Unsigned.to_of. by rewrite DecimalN.Unsigned.of_to.
Qed.

Lemma span_digits s rest :
  forallb is_digit s = true ->
  match rest with c :: _ => is_digit c | [] => false end = false ->
  span is_digit (s ++ rest) = (s, rest).
Proof.
  intros Hs Hr. induction s as [|c t IH]; cbn [app span].
  - destruct rest as [|c r]; [done|]. cbn [span]. by rewrite Hr.
  - cbn [forallb] in Hs. apply andb_true_iff in Hs as [Hc Ht].
    rewrite Hc, (IH Ht). done.
Qed.

Lemma scan_number_nat n rest :
  0 <= n -> ends_token rest ->
  scan_number (str_of_nat n ++ rest) = Scanned (JInt n) rest.
Proof.
  intros Hn (c & t & -> & Hc).
  pose proof (digits_value_str_of_nat n Hn) as Hv.
  pose proof (all_digits_uint_chars (N.to_uint (Z.to_N n))) as Hd. fold (str_of_nat n) in Hd.
  assert (Hfrac : scan_frac (c :: t) = ([], c :: t)).
  { unfold scan_frac. replace (c =? ch ".") with false; [done|]. chs. lia. }
  assert (Hexp : scan_exp (c :: t) = (None, c :: t)).
  { unfold scan_exp. replace ((c =? ch "e") || (c =? ch "E")) with false; [done|]. chs. lia. }
  assert (Hnd : is_digit c = false) by (unfold is_digit; lia).
  unfold scan_number.
  destruct (str_of_nat_shape n) as [E|(d & ds & E & Hd1)].
  - rewrite E in *. cbn [app]. change (48 =? ch "-") with false. cbv iota.
    cbn [scan_int_part]. change (48 =? 48) with true. cbv iota.
    rewrite Hfrac, Hexp. by rewrite Hv.
  - rewrite E in *. cbn [app].
    replace (d =? ch "-") with false by (chs; lia).
    cbn [scan_int_part]. replace (d =? 48) with false by lia.
    replace (is_digit d) with true by (unfold is_digit; lia).
    change (d :: ds ++ c :: t) with ((d :: ds) ++ c :: t).
    rewrite span_digits by done. rewrite Hfrac, Hexp. by rewrite Hv.
Qed.

Lemma scan_number_int z rest :
  ends_token rest -> scan_number (str_of_int z ++ rest) = Scanned (JInt z) rest.
Proof.
  intros Hr. unfold str_of_int. destruct (z <? 0) eqn:Hz; [|apply scan_number_nat; [lia|done]].
  destruct Hr as (c & t & -> & Hc).
  assert (Hn : 0 <= - z) by lia.
  pose proof (digits_value_str_of_nat (- z) Hn) as Hv.
  pose proof (all_digits_uint_chars (N.to_uint (Z.to_N (- z)))) as Hd.
  fold (str_of_nat (- z)) in Hd.
  assert (Hfrac : scan_frac (c :: t) = ([], c :: t)).
  { unfold scan_frac. replace (c =? ch ".") with false; [done|]. chs. lia. }
  assert (Hexp : scan_exp (c :: t) = (None, c :: t)).
  { unfold scan_exp. replace ((c =? ch "e") || (c =? ch "E")) with false; [done|]. chs. lia. }
  assert (Hnd : is_digit c = false) by (unfold is_digit; lia).
  unfold scan_number. cbn [app]. change (ch "-" =? ch "-") with true. cbv iota.
  destruct (str_of_nat_shape (- z)) as [E|(d & ds & E & Hd1)].
  - rewrite E in Hv. cbn in Hv. lia.
  - rewrite E in *. cbn [app scan_int_part]. replace (d =? 48) with false by lia.
    replace (is_digit d) with true by (unfold is_digit; lia).
    change (d :: ds ++ c :: t) with ((d :: ds) ++ c :: t).
    rewrite span_digits by done. rewrite Hfrac, Hexp. rewrite Hv. f_equal. f_equal. lia.
Qed.

(** ** Strings: the decoder undoes the encoder *)

Lemma hex_value_hex_digit n : 0 <= n < 16 -> hex_value (hex_digit n) = Some n.
Proof.
  intros Hn. unfold hex_digit, hex_value.
  destruct (n <? 10) eqn:E.
  - replace ((48 <=? 48 + n) && (48 + n <=? 57)) with true by lia. f_equal. lia.
  - replace ((48 <=? 87 + n) && (87 + n <=? 57)) with false by lia.
    replace ((97 <=? 87 + n) && (87 + n <=? 102)) with true by lia. f_equal. lia.
Qed.

Lemma scanstring_simple_escape e c' rest :
  (e =? ch "u") = false -> unescape e = Some c' ->
  scanstring (92 :: e :: rest) =
  match scanstring rest with
  | Scanned str r => Scanned (c' :: str) r
  | other => other
  end.
Proof.
  intros H1 H2. cbn [scanstring]. change (92 =? 34) with false.
  change (92 =? 92) with true. cbv iota. rewrite H1, H2.
  destruct (scanstring rest); reflexivity.
Qed.

(** One escaped character is read back as that character. *)
Lemma scanstring_escape_char c rest :
  scanstring (escape_char c ++ rest) =
  match scanstring rest with
  | Scanned str r => Scanned (c :: str) r
  | other => other
  end.
Proof.
  unfold escape_char.
  destruct (c =? 34) eqn:E1;
    [apply Z.eqb_eq in E1; subst c; by apply scanstring_simple_escape|].
  destruct (c =? 92) eqn:E2;
    [apply Z.eqb_eq in E2; subst c; by apply scanstring_simple_escape|].
  destruct (c =? 10) eqn:E3;
    [apply Z.eqb_eq in E3; subst c; by apply scanstring_simple_escape|].
  destruct (c =? 13) eqn:E4;
    [apply Z.eqb_eq in E4; subst c; by apply scanstring_simple_escape|].
  destruct (c =? 9) eqn:E5;
    [apply Z.eqb_eq in E5; subst c; by apply scanstring_simple_escape|].
  destruct (c =? 8) eqn:E6;
    [apply Z.eqb_eq in E6; subst c; by apply scanstring_simple_escape|].
  destruct (c =? 12) eqn:E7;
    [apply Z.eqb_eq in E7; subst c; by apply scanstring_simple_escape|].
  destruct ((0 <=? c) && (c <? 32)) eqn:E8.
  - assert (H1 : 0 <= c / 16 < 16)
      by (split; [apply Z.div_pos; lia|apply Z.div_lt_upper_bound; lia]).
    assert (H2 : 0 <= c mod 16 < 16) by (apply Z.mod_pos_bound; lia).
    cbn [app scanstring]. change (92 =? 34) with false. change (92 =? 92) with true.
    change (ch "u" =? ch "u") with true. cbv iota.
    unfold hex4. change (hex_value 48) with (Some 0).
    rewrite (hex_value_hex_digit _ H1), (hex_value_hex_digit _ H2).
    replace (((0 * 16 + 0) * 16 + c / 16) * 16 + c mod 16) with c
      by (pose proof (Z.div_mod c 16); lia).
    replace ((55296 <=? c) && (c <=? 56319)) with false by lia.
    destruct (scanstring rest); reflexivity.
  - cbn [app scanstring]. rewrite E1, E2, E8.
    destruct (scanstring rest); reflexivity.
Qed.

Lemma scanstring_encoded s rest :
  scanstring (flat_map escape_char s ++ 34 :: rest) = Scanned s rest.
Proof.
  induction s as [|c t IH]; [done|].
  cbn [flat_map]. rewrite <- app_assoc, scanstring_escape_char, IH. done.
Qed.

(** ** Values *)

Lemma skip_ws_newline_indent level s :
  skip_ws (newline_indent level ++ s) = skip_ws s.
Proof.
  unfold newline_indent. cbn [app skip_ws]. change (json_ws 10) with true. cbv iota.
  induction level as [|n IH]; [done|]. cbn [repeat concat]. rewrite <- app_assoc.
  cbn [lit app]. done.
Qed.

Lemma skip_ws_nonspace c t : json_ws c = false -> skip_ws (c :: t) = c :: t.
Proof. intros H. cbn [skip_ws]. by rewrite H. Qed.

Ltac lits :=
  repeat match goal with
  | |- context [lit ?s] => let v := eval vm_compute in (lit s) in change (lit s) with v
  end.

Lemma starts_with_head_ne a p b s : a <> b -> starts_with (a :: p) (b :: s) = false.
Proof. intros H. cbn [starts_with]. by replace (a =? b) with false by lia. Qed.

Lemma starts_with_head_eq a p s : starts_with (a :: p) (a :: s) = starts_with p s.
Proof. cbn [starts_with]. by rewrite Z.eqb_refl. Qed.

(** A text that starts with a digit, or with "-" and a digit, is scanned as
    a number. *)
Lemma scan_once_number fuel c t :
  is_digit c = true \/ (c = 45 /\ exists d t', t = d :: t' /\ is_digit d = true) ->
  scan_once (S fuel) (c :: t) = scan_number (c :: t).
Proof.
  intros H. cbn [scan_once]. chs. lits. unfold is_digit in H.
  destruct H as [H|(-> & d & t' & -> & H)].
  - rewrite !starts_with_head_ne by lia.
    replace (c =? 34) with false by lia. replace (c =? 123) with false by lia.
    replace (c =? 91) with false by lia. done.
  - rewrite !(starts_with_head_ne _ _ 45) by lia. rewrite starts_with_head_eq.
    rewrite starts_with_head_ne by lia. done.
Qed.

Lemma str_of_int_head z :
  exists c t, str_of_int z = c :: t /\
    (is_digit c = true \/ (c = 45 /\ exists d t', t = d :: t' /\ is_digit d = true)).
Proof.
  assert (Hs : forall n, exists d t', str_of_nat n = d :: t' /\ is_digit d = true).
  { intros n. destruct (str_of_nat_shape n) as [E|(d & ds & E & Hd)]; rewrite E.
    - by eexists _, _.
    - eexists _, _. split; [done|]. unfold is_digit. lia. }
  unfold str_of_int. destruct (z <? 0).
  - destruct (Hs (- z)) as (d & t' & E & Hd). eexists _, _. split; [done|].
    right. split; [done|]. eauto.
  - destruct (Hs z) as (d & t' & E & Hd). eexists _, _. split; [done|]. by left.
Qed.

(** The text of a scalar, followed by "," or a newline, is read back as
    that scalar. *)
Lemma scan_once_scalar fuel v rest :
  ends_token rest ->
  scan_once (S fuel) (scalar_text v ++ rest) = Scanned (json_of_scalar v) rest.
Proof.
  intros Hr. destruct v as [|[]|z|s]; cbn [scalar_text json_of_scalar].
  - reflexivity.
  - reflexivity.
  - reflexivity.
  - rewrite <- (scan_number_int z rest Hr).
    destruct (str_of_int_head z) as (c & t & E & H). rewrite E. cbn [app].
    apply scan_once_number.
    destruct H as [H|(-> & d & t' & -> & H)]; [by left|right].
    split; [done|]. by eexists _, _.
  - unfold encode_str. cbn [app scan_once]. change (34 =? 34) with true. cbv iota.
    replace ((flat_map escape_char s ++ [34]) ++ rest)
      with (flat_map escape_char s ++ 34 :: rest) by (by rewrite <- app_assoc).
    by rewrite scanstring_encoded.
Qed.

(** ** Objects *)

Lemma dict_set_fresh {V} k (v : V) d : k ∉ d.*1 -> dict_set k v d = d ++ [(k, v)].
Proof.
  induction d as [|[k' v'] d IH]; [done|].
  rewrite fmap_cons, not_elem_of_cons. cbn [fst]. intros [Hne Hd].
  cbn [dict_set app]. rewrite decide_False by done. by rewrite IH.
Qed.

Lemma read_members_distinct e acc :
  NoDup (acc.*1 ++ e.*1) ->
  read_members e acc = acc ++ (prod_map id json_of_scalar <$> e).
Proof.
  revert acc. induction e as [|[k v] e IH]; intros acc Hnd; cbn [read_members fold_left].
  - by rewrite app_nil_r.
  - fold (read_members e (dict_set k (json_of_scalar v) acc)).
    rewrite fmap_cons in Hnd. cbn [fst] in Hnd.
    apply NoDup_app in Hnd as (Ha & Hdis & He).
    apply NoDup_cons in He as [Hk He].
    assert (Hfresh : k ∉ acc.*1) by (intros Hin; apply (Hdis _ Hin); set_solver).
    rewrite dict_set_fresh by done. rewrite IH.
    + rewrite <- app_assoc. done.
    + rewrite fmap_app. cbn. rewrite <- app_assoc. cbn.
      apply NoDup_app. split_and!; [done| |by constructor].
      intros x Hx. apply Hdis in Hx. set_solver.
Qed.

Lemma scalar_text_head v :
  exists c t, scalar_text v = c :: t /\ json_ws c = false.
Proof.
  destruct v as [|[]|z|s]; cbn [scalar_text]; try (by eexists _, _).
  destruct (str_of_int_head z) as (c & t & -> & H). eexists _, _. split; [done|].
  unfold json_ws, is_digit in *. destruct H as [H|[-> _]]; [lia|done].
Qed.

Lemma skip_ws_scalar_text v s : skip_ws (scalar_text v ++ s) = scalar_text v ++ s.
Proof.
  destruct (scalar_text_head v) as (c & t & -> & H). cbn [app]. by apply skip_ws_nonspace.
Qed.

Lemma skip_ws_space c t : json_ws c = true -> skip_ws (c :: t) = skip_ws t.
Proof. intros H. cbn [skip_ws]. by rewrite H. Qed.

Lemma scan_once_scalar_fuel fuel v rest :
  (1 <= fuel)%nat -> ends_token rest ->
  scan_once fuel (scalar_text v ++ rest) = Scanned (json_of_scalar v) rest.
Proof. destruct fuel; [lia|]. intros _. apply scan_once_scalar. Qed.

(** One member: the key, the colon and the value. *)
Lemma scan_members_member f k v tail acc :
  (1 <= f)%nat -> ends_token tail ->
  scan_members (S f) (encode_str k ++ lit ": " ++ scalar_text v ++ tail) acc
  = match skip_ws tail with
    | c2 :: t2 =>
        if c2 =? ch "}" then Scanned (JObj (dict_set k (json_of_scalar v) acc)) t2
        else if c2 =? ch ","
             then scan_members f (skip_ws t2) (dict_set k (json_of_scalar v) acc)
        else Malformed
    | [] => Malformed
    end.
Proof.
  intros Hf Ht. unfold encode_str. cbn [app].
  change (scan_members (S f) (34 :: ?s) acc) with
    (match scanstring s with
     | Scanned key r =>
         match skip_ws r with
         | c1 :: t1 =>
             if c1 =? ch ":" then
               match scan_once f (skip_ws t1) with
               | Scanned v r2 =>
                   match skip_ws r2 with
                   | c2 :: t2 =>
                       if c2 =? ch "}" then Scanned (JObj (dict_set key v acc)) t2
                       else if c2 =? ch ","
                            then scan_members f (skip_ws t2) (dict_set key v acc)
                       else Malformed
                   | [] => Malformed
                   end
               | Malformed => Malformed
               | TooDeep => TooDeep
               end
             else Malformed
         | [] => Malformed
         end
     | Malformed => Malformed
     | TooDeep => TooDeep
     end).
  rewrite <- app_assoc. cbn [app]. rewrite scanstring_encoded.
  lits. cbn [app]. rewrite skip_ws_nonspace by done.
  change (58 =? ch ":") with true. cbv iota.
  rewrite skip_ws_space by done.
  rewrite skip_ws_scalar_text, scan_once_scalar_fuel by done. done.
Qed.

(** The members of a record, as written at any indentation and closed by a
    newline, an indentation and "}", are read back in order. *)
Lemma scan_members_printed e : forall fuel lvl lvl' k v acc rest,
  (length e + 2 <= fuel)%nat ->
  scan_members fuel
    (encode_str k ++ lit ": " ++ scalar_text v
       ++ concat (member_chunks lvl false e) ++ newline_indent lvl' ++ ch "}" :: rest) acc
  = Scanned (JObj (read_members ((k, v) :: e) acc)) rest.
Proof.
  induction e as [|[k' v'] e IH]; intros fuel lvl lvl' k v acc rest Hf.
  - destruct fuel as [|f]; [cbn in Hf; lia|]. cbn [length] in Hf.
    cbn [member_chunks concat app].
    rewrite scan_members_member; [|lia|]; cycle 1.
    { unfold newline_indent, ends_token. cbn [app]. eexists _, _. split; [done|]. by right. }
    rewrite skip_ws_newline_indent, skip_ws_nonspace by done.
    rewrite Z.eqb_refl. done.
  - destruct fuel as [|f]; [cbn in Hf; lia|]. cbn [length] in Hf.
    cbn [member_chunks concat app]. rewrite <- ?app_assoc.
    rewrite scan_members_member; [|lia|]; cycle 1.
    { unfold ends_token. cbn [app]. eexists _, _. split; [done|]. by left. }
    cbn [app]. rewrite skip_ws_nonspace by done.
    change (ch "," =? ch "}") with false. change (ch "," =? ch ",") with true. cbv iota.
    rewrite skip_ws_newline_indent.
    unfold encode_str at 1. cbn [app]. rewrite skip_ws_nonspace by done.
    pose proof (IH f lvl lvl' k' v' (dict_set k (json_of_scalar v) acc) rest) as IH'.
    unfold encode_str in IH' at 1. cbn [app] in IH'.
    rewrite IH' by lia. done.
Qed.

(** A record written at any indentation is read back as its dict. *)
Lemma scan_once_entry fuel lvl e rest :
  (length e + 2 <= fuel)%nat ->
  scan_once fuel (concat (dict_chunks lvl e) ++ rest)
  = Scanned (JObj (read_members e [])) rest.
Proof.
  intros Hf. destruct fuel as [|f]; [lia|].
  destruct e as [|[k v] e]; [reflexivity|]. cbn [length] in Hf.
  unfold dict_chunks. cbn [app concat]. change (lit "{") with [123].
  change (lit "}") with [ch "}"]. cbn [app].
  change (scan_once (S f) (123 :: ?t)) with
    (match skip_ws t with
     | c' :: t' => if c' =? ch "}" then Scanned (JObj []) t'
                   else scan_members f (c' :: t') []
     | [] => Malformed
     end).
  rewrite <- ?app_assoc. rewrite skip_ws_newline_indent.
  cbn [member_chunks app concat]. rewrite <- ?app_assoc.
  pose proof (scan_members_printed e f (S lvl) lvl k v [] rest) as H.
  unfold encode_str in *. cbn [app] in *. rewrite <- ?app_assoc in *. cbn [app] in *.
  rewrite skip_ws_nonspace by done.
  change (34 =? ch "}") with false. cbv iota.
  rewrite concat_app. cbn [concat app]. rewrite <- ?app_assoc. cbn [app].
  rewrite H by lia. done.
Qed.

(** ** Arrays of records *)

Lemma dict_chunks_head lvl e : exists t, concat (dict_chunks lvl e) = 123 :: t.
Proof. destruct e; cbn; eauto. Qed.

Lemma member_chunks_length lvl first e :
  (length e <= length (concat (member_chunks lvl first e)))%nat.
Proof.
  revert first. induction e as [|[k v] e IH]; intros first; cbn [member_chunks length]; [lia|].
  specialize (IH false). destruct first; cbn [app concat]; rewrite ?length_app;
    unfold encode_str; repeat (rewrite ?length_app; cbn [length]); lia.
Qed.

Lemma dict_chunks_length lvl e :
  (length e + 2 <= length (concat (dict_chunks lvl e)))%nat.
Proof.
  destruct e as [|kv e]; [cbn; lia|]. unfold dict_chunks.
  pose proof (member_chunks_length (S lvl) true (kv :: e)) as H.
  cbn [app concat]. rewrite concat_app.
  repeat (rewrite ?length_app; cbn [length concat app]). lits.
  cbn [length] in *. lia.
Qed.

Lemma later_records_length es :
  (length es <= length (later_records es))%nat /\
  Forall (fun e => (length e + length es + 2 <= length (later_records es))%nat) es.
Proof.
  induction es as [|x es [IH1 IH2]]; [split; [done|constructor]|].
  assert (Hl : length (later_records (x :: es))
               = (2 + length (dumps_entry x) + 1 + length (later_records es))%nat).
  { unfold later_records. cbn [flat_map]. rewrite !length_app. cbn. lia. }
  pose proof (dict_chunks_length 0 x) as Hx. fold (dumps_entry x) in Hx.
  rewrite Hl. cbn [length]. split; [lia|]. constructor; [lia|].
  eapply Forall_impl; [exact IH2|]. cbn. intros e He. lia.
Qed.

Lemma scan_items_eq f s acc :
  scan_items (S f) s acc =
  match scan_once f s with
  | Scanned v r =>
      match skip_ws r with
      | c :: t =>
          if c =? ch "]" then Scanned (JArr (acc ++ [v])) t
          else if c =? ch "," then scan_items f (skip_ws t) (acc ++ [v])
          else Malformed
      | [] => Malformed
      end
  | Malformed => Malformed
  | TooDeep => TooDeep
  end.
Proof. reflexivity. Qed.

(** The records of a ledger are read back in order, up to the bracket. *)
Lemma scan_items_ledger es : forall fuel lvl e acc trail,
  Forall (fun e' => (length e' + length es + 3 <= fuel)%nat) (e :: es) ->
  scan_items fuel
    (concat (dict_chunks lvl e) ++ [10] ++ later_records es ++ ch "]" :: trail) acc
  = Scanned (JArr (acc ++ JObj (read_members e [])
                        :: ((fun e' => JObj (read_members e' [])) <$> es))) trail.
Proof.
  induction es as [|e2 es IH]; intros fuel lvl e acc trail Hf.
  - apply Forall_cons in Hf as [He _]. cbn [length] in He.
    destruct fuel as [|f]; [lia|]. rewrite scan_items_eq.
    rewrite scan_once_entry by lia. cbn [later_records flat_map app].
    rewrite skip_ws_space, skip_ws_nonspace by done.
    rewrite Z.eqb_refl. done.
  - apply Forall_cons in Hf as [He Hes]. cbn [length] in He, Hes.
    destruct fuel as [|f]; [lia|]. rewrite scan_items_eq.
    rewrite scan_once_entry by lia.
    unfold later_records. cbn [flat_map]. fold (later_records es).
    rewrite <- ?app_assoc. cbn [lit list_ascii_of_string map app].
    change (Z.of_N (N_of_ascii ",")) with 44. change (Z.of_N (N_of_ascii "010")) with 10.
    rewrite skip_ws_space, skip_ws_nonspace by done.
    change (44 =? ch "]") with false. change (44 =? ch ",") with true. cbv iota.
    rewrite skip_ws_space by done.
    destruct (dict_chunks_head 0 e2) as (t & Ht). unfold dumps_entry.
    rewrite Ht. cbn [app]. rewrite skip_ws_nonspace by done. 
    change (123 :: t ++ 10 :: later_records es ++ ch "]" :: trail)
      with ((123 :: t) ++ [10] ++ later_records es ++ ch "]" :: trail).
    rewrite <- Ht, IH.
    + rewrite <- app_assoc. done.
    + eapply Forall_impl; [exact Hes|]. cbn. intros. lia.
Qed.

Lemma scan_once_array f t :
  scan_once (S f) (91 :: t) =
  match skip_ws t with
  | c' :: t' => if c' =? ch "]" then Scanned (JArr []) t'
                else scan_items f (c' :: t') []
  | [] => Malformed
  end.
Proof. reflexivity. Qed.

Lemma json_loads_ledger e es trail :
  skip_ws trail = [] ->
  json_loads (ledger_text e es ++ ch "]" :: trail)
  = Scanned (JArr (JObj (read_members e [])
                     :: ((fun e' => JObj (read_members e' [])) <$> es))) [].
Proof.
  intros Htrail. unfold json_loads, ledger_text.
  set (text := (lit "[
  " ++ concat (dict_chunks 1 e) ++ [10] ++ later_records es) ++ ch "]" :: trail).
  assert (Hskip : skip_ws text = text) by reflexivity.
  rewrite Hskip.
  assert (Hlen : Forall (fun e' => (length e' + length es + 3 <= length text)%nat) (e :: es)).
  { subst text. rewrite !length_app. cbn [length lit list_ascii_of_string map].
    pose proof (dict_chunks_length 1 e). destruct (later_records_length es) as [H1 H2].
    constructor; [lia|]. eapply Forall_impl; [exact H2|]. cbn. intros. lia. }
  assert (Htext : text = 91 :: 10 :: 32 :: 32 :: concat (dict_chunks 1 e) ++ [10]
                         ++ later_records es ++ ch "]" :: trail).
  { subst text. rewrite <- ?app_assoc. reflexivity. }
  clearbody text. clear Hskip. rewrite Htext at 2. rewrite scan_once_array.
  rewrite !skip_ws_space by done.
  destruct (dict_chunks_head 1 e) as (t & Ht). rewrite Ht at 1. cbn [app].
  rewrite skip_ws_nonspace by done. change (123 =? ch "]") with false. cbv iota.
  change (123 :: t ++ 10 :: later_records es ++ ch "]" :: trail)
    with ((123 :: t) ++ [10] ++ later_records es ++ ch "]" :: trail).
  rewrite <- Ht, scan_items_ledger by done.
  rewrite Htrail. done.
Qed.

(** ** A sequence of appends *)

Lemma is_ascii_later_records es :
  Forall (fun e => ascii_entry e = true) es -> is_ascii (later_records es) = true.
Proof.
  induction 1 as [|e es He _ IH]; [done|].
  unfold later_records. cbn [flat_map]. fold (later_records es).
  rewrite !is_ascii_app, is_ascii_dumps_entry, IH by done. done.
Qed.

Lemma is_ascii_ledger_text e es :
  ascii_entry e = true -> Forall (fun e => ascii_entry e = true) es ->
  is_ascii (ledger_text e es) = true.
Proof.
  intros He Hes. unfold ledger_text.
  rewrite !is_ascii_app, is_ascii_later_records by done.
  rewrite is_ascii_concat by (by apply dict_chunks_ascii). done.
Qed.

Lemma first_append_ascii e :
  ascii_entry e = true ->
  append_json_array None e = (Some (ledger_text e [] ++ ch "]" :: [10]), Ret tt).
Proof.
  intros He. unfold append_json_array.
  rewrite write_chunks_ascii; cycle 1.
  { apply Forall_app. split; [by apply list1_chunks_ascii|by repeat constructor]. }
  f_equal. f_equal. unfold ledger_text, list1_chunks.
  rewrite !concat_app. cbn [concat app later_records flat_map].
  rewrite <- ?app_assoc. cbn [app]. rewrite ?app_nil_r. reflexivity.
Qed.

Lemma later_appends_ascii es : forall e0 es0 trail,
  ascii_entry e0 = true -> Forall (fun e => ascii_entry e = true) es0 ->
  is_ascii trail = true -> ch "]" ∉ trail -> (length trail <= 1)%nat ->
  Forall (fun e => ascii_entry e = true) es ->
  append_all (Some (ledger_text e0 es0 ++ ch "]" :: trail)) es
  = (Some (ledger_text e0 (es0 ++ es) ++ ch "]" :: match es with [] => trail | _ => [] end),
     Ret tt).
Proof.
  induction es as [|e es IH]; intros e0 es0 trail He0 Hes0 Ht Hnt Hl Hes.
  - cbn [append_all]. by rewrite app_nil_r.
  - apply Forall_cons in Hes as [He Hes]. cbn [append_all].
    rewrite append_ascii_step by (by try apply is_ascii_ledger_text).
    replace (ledger_text e0 es0 ++ lit ",
" ++ dumps_entry e ++ lit "
]") with (ledger_text e0 (es0 ++ [e]) ++ ch "]" :: []); cycle 1.
    { unfold ledger_text, later_records. rewrite flat_map_app. cbn [flat_map].
      rewrite <- ?app_assoc. cbn [app]. rewrite ?app_nil_r. reflexivity. }
    rewrite IH; try done.
    + rewrite <- app_assoc. cbn [app]. by destruct es.
    + apply Forall_app. split; [done|]. by repeat constructor.
    + by intros ?%elem_of_nil.
    + cbn. lia.
Qed.

(** C2 (amended): one or more ASCII records appended one after the other
    to a ledger that does not exist yet leave a file that parses as the
    array of those records, in the order of the appends. *)
Theorem appended_ledger_parses (es : list (list (list Z * scalar))) :
  es <> [] ->
  Forall (fun e => ascii_entry e = true) es ->
  Forall (fun e => NoDup e.*1) es ->
  exists bs,
    append_all None es = (Some bs, Ret tt) /\
    json_load bs = Some (JArr (json_of_entry <$> es)).
Proof.
  destruct es as [|e es]; [done|]. intros _ Ha Hd.
  apply Forall_cons in Ha as [He Hes].
  cbn [append_all]. rewrite first_append_ascii by done.
  rewrite (later_appends_ascii es e [] [10]); try done; cycle 1.
  { apply (bool_decide_unpack _). vm_compute. reflexivity. }
  eexists. split; [reflexivity|]. cbn [app].
  set (trail := match es with [] => [10] | _ => [] end).
  assert (Htrail : skip_ws trail = []) by (subst trail; by destruct es).
  assert (Hat : is_ascii trail = true) by (subst trail; by destruct es).
  unfold json_load.
  assert (Hbom : starts_with [239; 187; 191] (ledger_text e es ++ ch "]" :: trail) = false)
    by reflexivity.
  rewrite Hbom, utf8_decode_ascii; cycle 1.
  { rewrite is_ascii_app, is_ascii_ledger_text by done. cbn [is_ascii forallb]. done. }
  rewrite json_loads_ledger by done. f_equal. f_equal.
  rewrite fmap_cons. f_equal.
  - unfold json_of_entry. f_equal. apply Forall_cons in Hd as [Hd _].
    by rewrite read_members_distinct.
  - apply Forall_cons in Hd as [_ Hd]. apply Forall_fmap_ext_1.
    eapply Forall_impl; [exact Hd|]. cbn. intros x Hx. unfold json_of_entry. f_equal.
    by rewrite read_members_distinct.
Qed.

Lemma appended_ledger_parses_witness :
  exists bs,
    append_all None [entry_plain; entry_plain] = (Some bs, Ret tt) /\
    json_load bs = Some (JArr (json_of_entry <$> [entry_plain; entry_plain])).
Proof.
  apply appended_ledger_parses.
  - discriminate.
  - repeat constructor.
  - repeat constructor; apply (bool_decide_unpack _); vm_compute; reflexivity.
Defined.

(** C2 as stated fails for no record at all: nothing is appended and there
    is no file to parse. *)
Lemma appended_nothing_no_file :
  ~ exists bs,
      append_all None [] = (Some bs, Ret tt) /\
      json_load bs = Some (JArr (json_of_entry <$> [])).
Proof. intros (bs & H & _). discriminate H. Qed.

(** With a non-ASCII character in the first record the second append lands
    two bytes before the bracket and the file no longer parses (the defect of
    the byte offset: a character index is added to a byte position). *)
Lemma appended_non_ascii_corrupts :
  exists bs,
    append_all None [entry_euro; entry_plain] = (Some bs, Ret tt) /\
    json_load bs = None.
Proof.
  eexists. split.
  - vm_compute. reflexivity.
  - vm_compute. reflexivity.
Qed.

(** C10: on the ledger that holds [entry_euro], whose last "]" is at offset
    44, the append succeeds and replaces the "}" at offset 42 by ",": a byte
    before the bracket changes. *)
Theorem append_overwrites_before_bracket :
  last_bracket_offset ledger_euro = 44 /\
  exists new,
    append_json_array (Some ledger_euro) entry_plain = (Some new, Ret tt) /\
    ledger_euro !! 42%nat = Some (ch "}") /\
    new !! 42%nat = Some (ch ",").
Proof.
  split; [vm_compute; reflexivity|].
  eexists. split; [vm_compute; reflexivity|].
  split; vm_compute; reflexivity.
Qed.

(** * Elapsed times: from [human_elapsed] to [parse_elapsed_to_seconds] *)

(** ** Floats: bounds *)

Lemma round_half_even_nonneg n d : 0 <= n -> 0 < d -> 0 <= round_half_even n d.
Proof.
  intros Hn Hd. unfold round_half_even.
  assert (0 <= n / d) by (apply Z.div_pos; lia).
  repeat destruct (_ <? _); try destruct (Z.even _); lia.
Qed.

Lemma round_half_even_le n d T : 0 < d -> n <= d * T -> round_half_even n d <= T.
Proof.
  intros Hd Hn. unfold round_half_even.
  pose proof (Z.div_mod n d ltac:(lia)) as E.
  pose proof (Z.mod_pos_bound n d Hd) as Hr.
  destruct (Z.eq_dec n (d * T)) as [->|Hne].
  - replace (d * T) with (T * d) by lia. rewrite Z.div_mul, Z.mod_mul by lia.
    replace (2 * 0 <? d) with true by lia. lia.
  - assert (n / d < T) by (apply Z.div_lt_upper_bound; lia).
    repeat destruct (_ <? _); try destruct (Z.even _); lia.
Qed.

Lemma scale_le n d e K :
  0 <= n -> 0 < d -> e <= K -> (0 <= K -> n <= d * 2 ^ K) ->
  (K < 0 -> n * 2 ^ (- K) <= d) ->
  0 <= (scale n d e).1 /\ 0 < (scale n d e).2 /\
  (scale n d e).1 <= (scale n d e).2 * 2 ^ (K - e).
Proof.
  intros Hn Hd He HK1 HK2. unfold scale. destruct (0 <=? e) eqn:E; cbn [fst snd].
  - apply Z.leb_le in E. split; [done|]. split; [apply Z.mul_pos_pos; [done|by apply Z.pow_pos_nonneg]|].
    rewrite <- Z.mul_assoc, <- Z.pow_add_r by lia. replace (e + (K - e)) with K by lia.
    apply HK1. lia.
  - apply Z.leb_gt in E.
    assert (0 < 2 ^ (- e)) by (apply Z.pow_pos_nonneg; lia).
    split; [apply Z.mul_nonneg_nonneg; lia|]. split; [done|].
    destruct (Z_le_gt_dec 0 K) as [HK|HK].
    + replace (K - e) with (K + - e) by lia. rewrite Z.pow_add_r by lia.
      specialize (HK1 HK). nia.
    + specialize (HK2 ltac:(lia)).
      replace (- e) with ((K - e) + - K) by lia. rewrite Z.pow_add_r by lia.
      assert (0 <= 2 ^ (K - e)) by (apply Z.pow_nonneg; lia). nia.
Qed.

(** Rounding a ratio that is at most [2^K] gives a finite float that is at
    most [2^K]: no overflow below [2^1021]. *)
Lemma to_double_le n d K :
  0 <= n -> 0 < d -> 0 <= K <= 1021 -> n <= d * 2 ^ K ->
  float_le_pow2 (to_double n d) K.
Proof.
  intros Hn Hd HK Hle. unfold to_double.
  destruct (n =? 0) eqn:E0.
  { cbn. split; [done|]. split; [lia|]. apply Z.pow_nonneg. lia. }
  apply Z.eqb_neq in E0.
  set (k := Z.log2 n - Z.log2 d).
  assert (Hk : k <= K + 1).
  { subst k. pose proof (Z.log2_spec n ltac:(lia)) as [H1 _].
    pose proof (Z.log2_spec d Hd) as [_ H2].
    assert (Hlt : 2 ^ Z.log2 n < 2 ^ (Z.succ (Z.log2 d) + K)).
    { rewrite Z.pow_add_r by (pose proof (Z.log2_nonneg d); lia).
      assert (0 < 2 ^ K) by (apply Z.pow_pos_nonneg; lia). nia. }
    apply Z.pow_lt_mono_r_iff in Hlt; [lia|lia|pose proof (Z.log2_nonneg d); lia]. }
  set (e1 := Z.max (k - 52) (-1074)).
  destruct (scale n d e1) as [na da].
  set (e := if (na / da <? 2 ^ 52) && (-1074 <? e1) then e1 - 1 else e1).
  assert (He : e <= K - 51) by (subst e e1; destruct (_ && _); lia).
  pose proof (scale_le n d e K Hn Hd ltac:(lia) ltac:(lia) ltac:(lia)) as (H1 & H2 & H3).
  destruct (scale n d e) as [nb db]. cbn [fst snd] in *.
  pose proof (round_half_even_nonneg nb db H1 H2) as Hm0.
  pose proof (round_half_even_le nb db _ H2 H3) as Hm1.
  set (m := round_half_even nb db) in *.
  destruct (m =? 2 ^ 53) eqn:Em.
  - apply Z.eqb_eq in Em. rewrite Em in Hm1.
    apply Z.pow_le_mono_r_iff in Hm1; [|lia|lia].
    replace (971 <? e + 1) with false by lia. cbn.
    split; [lia|]. split; [lia|]. apply Z.pow_le_mono_r; lia.
  - replace (971 <? e) with false by lia. cbn. split; [done|]. split; [lia|done].
Qed.

(** Multiplying by [yn / yd <= 2^J] adds [J] to the bound. *)
Lemma float_mul_le x yn yd K J :
  float_le_pow2 x K -> 0 <= yn -> 0 < yd -> 0 <= J -> yn <= yd * 2 ^ J ->
  0 <= K -> K + J <= 1021 ->
  float_le_pow2 (float_mul x yn yd) (K + J).
Proof.
  intros Hx Hyn Hyd HJ Hy HK HKJ. destruct x as [| |m e]; try done.
  destruct Hx as (Hm & He & Hle). unfold float_mul.
  assert (H2K : 0 < 2 ^ (K - e)) by (apply Z.pow_pos_nonneg; lia).
  assert (H2J : 0 < 2 ^ J) by (apply Z.pow_pos_nonneg; lia).
  pose proof (scale_le (m * yn) yd (- e) (K - e + J)
    ltac:(nia) Hyd ltac:(lia)) as H.
  destruct (scale (m * yn) yd (- e)) as [n d]. cbn [fst snd] in H.
  destruct H as (H1 & H2 & H3).
  - intros _. rewrite Z.pow_add_r by lia. nia.
  - lia.
  - apply to_double_le; [done|done|lia|].
    replace (K - e + J - - e) with (K + J) in H3 by lia. done.
Qed.

Lemma float_le_pow2_finite x K : float_le_pow2 x K -> float_is_finite x = true.
Proof. by destruct x. Qed.

(** The integer that [format_fixed] prints, for a float that is at most
    [2^K]. *)
Lemma fixed_digits_le m e p K :
  float_le_pow2 (FFin m e) K -> 0 < p -> 0 <= K ->
  0 <= round_half_even (scale (m * p) 1 (- e)).1 (scale (m * p) 1 (- e)).2
    <= p * 2 ^ K.
Proof.
  intros (Hm & He & Hle) Hp HK.
  assert (H2K : 0 < 2 ^ (K - e)) by (apply Z.pow_pos_nonneg; lia).
  assert (H2 : 0 < 2 ^ K) by (apply Z.pow_pos_nonneg; lia).
  unfold scale. destruct (0 <=? - e) eqn:E; cbn [fst snd].
  - apply Z.leb_le in E.
    assert (0 < 2 ^ (- e)) by (apply Z.pow_pos_nonneg; lia).
    split; [apply round_half_even_nonneg; nia|].
    apply round_half_even_le; [nia|].
    replace (K - e) with (K + - e) in Hle by lia. rewrite Z.pow_add_r in Hle by lia. nia.
  - apply Z.leb_gt in E. rewrite Z.opp_involutive.
    assert (0 < 2 ^ e) by (apply Z.pow_pos_nonneg; lia).
    split; [apply round_half_even_nonneg; nia|].
    apply round_half_even_le; [lia|].
    replace K with ((K - e) + e) at 1 by lia. rewrite Z.pow_add_r by lia. nia.
Qed.

(** ** Elapsed strings are read back *)

Lemma elapsed_char_not_space c : elapsed_char c = true -> is_space c = false.
Proof. unfold elapsed_char, is_digit, is_space. chs. lia. Qed.

Lemma lstrip_elapsed s : forallb elapsed_char s = true -> lstrip s = s.
Proof.
  destruct s as [|c t]; [done|]. cbn [forallb lstrip]. intros [H _]%andb_true_iff.
  by rewrite (elapsed_char_not_space c H).
Qed.

Lemma forallb_rev {A} (f : A -> bool) l : forallb f (rev l) = forallb f l.
Proof.
  induction l as [|a l IH]; [done|]. cbn [rev forallb].
  rewrite forallb_app, IH. cbn. destruct (f a), (forallb f l); done.
Qed.

Lemma strip_elapsed s : forallb elapsed_char s = true -> strip s = s.
Proof.
  intros H. unfold strip. rewrite (lstrip_elapsed s H).
  rewrite lstrip_elapsed by (by rewrite forallb_rev). apply rev_involutive.
Qed.

Lemma is_digit_elapsed c : is_digit c = true -> elapsed_char c = true.
Proof. unfold elapsed_char. by intros ->. Qed.

Lemma digits_elapsed s : forallb is_digit s = true -> forallb elapsed_char s = true.
Proof.
  induction s as [|c t IH]; [done|]. cbn [forallb].
  intros [H1 H2]%andb_true_iff. by rewrite (is_digit_elapsed c H1), IH.
Qed.

Lemma str_of_nat_digits n : forallb is_digit (str_of_nat n) = true.
Proof. apply all_digits_uint_chars. Qed.

Lemma str_of_nat_nonempty n : str_of_nat n <> [].
Proof. by destruct (str_of_nat_shape n) as [->|(c & t & -> & _)]. Qed.

Lemma zero_pad_digits k s : forallb is_digit s = true -> forallb is_digit (zero_pad k s) = true.
Proof.
  intros H. unfold zero_pad. rewrite forallb_app, H, andb_true_r.
  induction (k - length s)%nat; [done|]. done.
Qed.

Lemma digits_value_zero_pad k s : digits_value (zero_pad k s) = digits_value s.
Proof.
  unfold zero_pad. rewrite digits_value_app.
  assert (E : digits_value (repeat 48 (k - length s)) = 0).
  { unfold digits_value. induction (k - length s)%nat as [|j IH]; [done|].
    cbn [repeat fold_left]. done. }
  rewrite E. lia.
Qed.

(** The two decimals that [format_fixed 2] prints. *)
Lemma two_decimals b :
  0 <= b < 100 ->
  length (zero_pad 2 (str_of_nat b)) = 2%nat /\ zero_pad 2 (str_of_nat b) <> [].
Proof.
  intros Hb.
  assert (H : forallb (fun n => (length (zero_pad 2 (str_of_nat (Z.of_nat n))) =? 2)%nat)
                (seq 0 100) = true) by (vm_compute; reflexivity).
  rewrite forallb_forall in H. specialize (H (Z.to_nat b)).
  rewrite Z2Nat.id in H by lia. apply Nat.eqb_eq in H; [|apply in_seq; lia].
  split; [done|]. intros E. by rewrite E in H.
Qed.

Section ElapsedTables.

Variable lower : list Z -> list Z.
Variable decimal : Z -> option Z.
Variable ieq : Z -> Z -> bool.
Hypothesis tables : ascii_tables lower decimal ieq.

Lemma uni_digit_elapsed c : elapsed_char c = true -> uni_digit decimal c = is_digit c.
Proof.
  intros H. destruct tables as (_ & Hd & _). unfold uni_digit. rewrite (Hd c H).
  unfold ascii_decimal. by destruct (is_digit c).
Qed.

Lemma span_uni_digits s rest :
  forallb is_digit s = true ->
  match rest with c :: _ => elapsed_char c && negb (is_digit c) | [] => true end = true ->
  span (uni_digit decimal) (s ++ rest) = (s, rest).
Proof.
  intros Hs Hr. induction s as [|c t IH]; cbn [app span].
  - destruct rest as [|c r]; [done|]. cbn [span].
    apply andb_true_iff in Hr as [H1 H2]. rewrite (uni_digit_elapsed c H1).
    by destruct (is_digit c).
  - cbn [forallb] in Hs. apply andb_true_iff in Hs as [Hc Ht].
    rewrite (uni_digit_elapsed c (is_digit_elapsed c Hc)), Hc, (IH Ht). done.
Qed.

Lemma uni_digits_value_digits s :
  forallb is_digit s = true -> uni_digits_value decimal s = digits_value s.
Proof.
  intros H. unfold uni_digits_value, digits_value.
  assert (E : forall z, fold_left (fun acc c => acc * 10 + default 0 (decimal c)) s z
                        = fold_left (fun acc c => acc * 10 + (c - 48)) s z); [|apply E].
  induction s as [|c t IH]; intros z; [done|]. cbn [forallb fold_left] in *.
  apply andb_true_iff in H as [Hc Ht]. rewrite (IH Ht). f_equal.
  destruct tables as (_ & Hd & _). rewrite (Hd c (is_digit_elapsed c Hc)).
  unfold ascii_decimal. by rewrite Hc.
Qed.

Lemma ignorecase_prefix_elapsed pat s :
  forallb elapsed_char pat = true -> forallb elapsed_char s = true ->
  ignorecase_prefix ieq pat s = ignorecase_prefix ascii_ignorecase_eq pat s.
Proof.
  revert s. induction pat as [|a pat IH]; intros [|c s] Hp Hs; try done.
  cbn [forallb ignorecase_prefix] in *.
  apply andb_true_iff in Hp as [Ha Hp]. apply andb_true_iff in Hs as [Hc Hs].
  destruct tables as (_ & _ & Hi). by rewrite (Hi a c Ha Hc), IH.
Qed.

Lemma match_unit_elapsed units s :
  Forall (fun u => forallb elapsed_char u = true) units ->
  forallb elapsed_char s = true ->
  match_unit ieq units s = match_unit ascii_ignorecase_eq units s.
Proof.
  intros Hu Hs. induction Hu as [|u units H _ IH]; [done|].
  cbn [match_unit]. by rewrite ignorecase_prefix_elapsed, IH.
Qed.

Lemma match_unit_unit u :
  is_unit u -> match_unit ieq [lit "ns"; lit "ms"; lit "s"; lit "m"] u = Some u.
Proof.
  intros Hu. rewrite match_unit_elapsed.
  - destruct Hu as [->|[->|[->| ->]]]; vm_compute; reflexivity.
  - repeat constructor.
  - destruct Hu as [->|[->|[->| ->]]]; reflexivity.
Qed.

Lemma unit_head u :
  is_unit u ->
  match u with c :: _ => elapsed_char c && negb (is_digit c) | [] => true end = true /\
  match u with c :: _ => c =? ch "." | [] => false end = false.
Proof. intros [->|[->|[->| ->]]]; split; reflexivity. Qed.

(** A run of digits and a unit match the pattern. *)
Lemma elapsed_match_integer ip u :
  forallb is_digit ip = true -> ip <> [] -> is_unit u ->
  elapsed_match decimal ieq (ip ++ u) = Some (ip, [], u).
Proof.
  intros Hip Hne Hu. destruct (unit_head u Hu) as [Hh Hdot]. unfold elapsed_match.
  rewrite lstrip_elapsed; cycle 1.
  { rewrite forallb_app, (digits_elapsed ip Hip).
    destruct Hu as [->|[->|[->| ->]]]; reflexivity. }
  rewrite (span_uni_digits ip u Hip Hh).
  destruct ip as [|c ip]; [done|].
  destruct u as [|c' u']; [by destruct Hu as [?|[?|[?|?]]]|].
  rewrite Hdot. by rewrite (match_unit_unit _ Hu).
Qed.

(** Digits, a point, digits and a unit match the pattern. *)
Lemma elapsed_match_fraction ip fp u :
  forallb is_digit ip = true -> ip <> [] ->
  forallb is_digit fp = true -> fp <> [] -> is_unit u ->
  elapsed_match decimal ieq (ip ++ ch "." :: fp ++ u) = Some (ip, fp, u).
Proof.
  intros Hip Hne Hfp Hnf Hu. destruct (unit_head u Hu) as [Hh Hdot]. unfold elapsed_match.
  rewrite lstrip_elapsed; cycle 1.
  { rewrite forallb_app, (digits_elapsed ip Hip). cbn [forallb].
    rewrite forallb_app, (digits_elapsed fp Hfp).
    destruct Hu as [->|[->|[->| ->]]]; reflexivity. }
  rewrite (span_uni_digits ip _ Hip) by reflexivity.
  destruct ip as [|c ip]; [done|].
  rewrite Z.eqb_refl, (span_uni_digits fp u Hfp Hh).
  destruct fp as [|d fp]; [done|]. by rewrite (match_unit_unit _ Hu).
Qed.

End ElapsedTables.

Lemma format_fixed_0 m e :
  format_fixed 0 (FFin m e)
  = str_of_nat (round_half_even (scale (m * 1) 1 (- e)).1 (scale (m * 1) 1 (- e)).2).
Proof.
  unfold format_fixed. change (10 ^ Z.of_nat 0) with 1. by destruct (scale _ _ _).
Qed.

Lemma format_fixed_2 m e :
  format_fixed 2 (FFin m e)
  = let r := round_half_even (scale (m * 100) 1 (- e)).1 (scale (m * 100) 1 (- e)).2 in
    str_of_nat (r / 100) ++ ch "." :: zero_pad 2 (str_of_nat (r mod 100)).
Proof.
  unfold format_fixed. change (10 ^ Z.of_nat 2) with 100. by destruct (scale _ _ _).
Qed.

Lemma int_true_div_le a b K :
  0 <= a -> 0 < b -> 0 <= K <= 1021 -> a <= b * 2 ^ K ->
  exists m e, int_true_div a b = Ret (FFin m e) /\ float_le_pow2 (FFin m e) K.
Proof.
  intros Ha Hb HK Hle. pose proof (to_double_le a b K Ha Hb HK Hle) as H.
  unfold int_true_div. destruct (to_double a b) as [| |m e]; try done. by exists m, e.
Qed.

Section ElapsedParsed.

Variable lower : list Z -> list Z.
Variable decimal : Z -> option Z.
Variable ieq : Z -> Z -> bool.
Hypothesis tables : ascii_tables lower decimal ieq.

(** A matched string whose number is at most [2^K] is read as a finite
    number of seconds. *)
Lemma parse_elapsed_finite s ip fp u v K :
  forallb elapsed_char s = true ->
  elapsed_match decimal ieq s = Some (ip, fp, u) -> is_unit u ->
  forallb is_digit (ip ++ fp) = true -> digits_value (ip ++ fp) = v ->
  0 <= v <= 10 ^ Z.of_nat (length fp) * 2 ^ K -> 0 <= K <= 1015 ->
  float_is_finite (parse_elapsed_to_seconds lower decimal ieq (EStr s)) = true.
Proof.
  intros Hs Hm Hu Hd Hv Hle HK. unfold parse_elapsed_to_seconds.
  rewrite (strip_elapsed s Hs). destruct tables as (Hl & _ & _). rewrite (Hl s Hs), Hm.
  rewrite (uni_digits_value_digits _ _ _ tables _ Hd), Hv.
  assert (Hp : 0 < 10 ^ Z.of_nat (length fp)) by (apply Z.pow_pos_nonneg; lia).
  pose proof (to_double_le v _ K ltac:(lia) Hp ltac:(lia) ltac:(lia)) as Hn.
  set (num := to_double v _) in *. clearbody num.
  destruct Hu as [->|[->|[->| ->]]].
  - rewrite decide_True by done.
    apply (float_le_pow2_finite _ (K + 0)). apply float_mul_le; try done; lia.
  - rewrite decide_False, decide_True by done.
    apply (float_le_pow2_finite _ (K + 0)). apply float_mul_le; try done; lia.
  - rewrite decide_False, decide_False, decide_True by done.
    by apply (float_le_pow2_finite _ K).
  - rewrite decide_False, decide_False, decide_False, decide_True by done.
    apply (float_le_pow2_finite _ (K + 6)). apply float_mul_le; try done; lia.
Qed.

Lemma parsed_integer n u K :
  0 <= n <= 2 ^ K -> 0 <= K <= 1015 -> is_unit u ->
  let s := str_of_nat n ++ u in
  elapsed_match decimal ieq (lower (strip s)) = Some (str_of_nat n, [], u) /\
  float_is_finite (parse_elapsed_to_seconds lower decimal ieq (EStr s)) = true.
Proof.
  intros Hn HK Hu s.
  assert (Hs : forallb elapsed_char s = true).
  { subst s. rewrite forallb_app, (digits_elapsed _ (str_of_nat_digits n)).
    destruct Hu as [->|[->|[->| ->]]]; reflexivity. }
  assert (Hm : elapsed_match decimal ieq s = Some (str_of_nat n, [], u)).
  { apply (elapsed_match_integer lower decimal ieq); [done|apply str_of_nat_digits|apply str_of_nat_nonempty|done]. }
  split.
  - rewrite (strip_elapsed s Hs). destruct tables as (Hl & _ & _). by rewrite (Hl s Hs).
  - apply (parse_elapsed_finite s _ _ _ n K Hs Hm Hu).
    + rewrite app_nil_r. apply str_of_nat_digits.
    + rewrite app_nil_r. apply digits_value_str_of_nat. lia.
    + cbn [length Z.of_nat]. lia.
    + done.
Qed.

Lemma parsed_fraction r u K :
  0 <= r <= 100 * 2 ^ K -> 0 <= K <= 1015 -> is_unit u ->
  let fp := zero_pad 2 (str_of_nat (r mod 100)) in
  let s := (str_of_nat (r / 100) ++ ch "." :: fp) ++ u in
  elapsed_match decimal ieq (lower (strip s)) = Some (str_of_nat (r / 100), fp, u) /\
  float_is_finite (parse_elapsed_to_seconds lower decimal ieq (EStr s)) = true.
Proof.
  intros Hr HK Hu fp s.
  pose proof (Z.mod_pos_bound r 100 ltac:(lia)) as Hb.
  destruct (two_decimals _ Hb) as [Hlen Hne]. fold fp in Hlen, Hne.
  assert (Hfd : forallb is_digit fp = true)
    by (apply zero_pad_digits, str_of_nat_digits).
  assert (Es : s = str_of_nat (r / 100) ++ ch "." :: fp ++ u)
    by (subst s; by rewrite <- app_assoc).
  assert (Hs : forallb elapsed_char s = true).
  { rewrite Es, forallb_app, (digits_elapsed _ (str_of_nat_digits _)). cbn [forallb].
    rewrite forallb_app, (digits_elapsed _ Hfd).
    destruct Hu as [->|[->|[->| ->]]]; reflexivity. }
  assert (Hm : elapsed_match decimal ieq s = Some (str_of_nat (r / 100), fp, u)).
  { rewrite Es. apply (elapsed_match_fraction lower decimal ieq);
      [done|apply str_of_nat_digits|apply str_of_nat_nonempty|done|done|done]. }
  split.
  - rewrite (strip_elapsed s Hs). destruct tables as (Hl & _ & _). by rewrite (Hl s Hs).
  - apply (parse_elapsed_finite s _ _ _ r K Hs Hm Hu).
    + by rewrite forallb_app, str_of_nat_digits, Hfd.
    + rewrite digits_value_app, Hlen. subst fp. rewrite digits_value_zero_pad.
      rewrite !digits_value_str_of_nat by (try apply Z.div_pos; lia).
      change (10 ^ Z.of_nat 2) with 100. pose proof (Z.div_mod r 100). lia.
    + rewrite Hlen. change (10 ^ Z.of_nat 2) with 100. lia.
    + done.
Qed.

End ElapsedParsed.

(** C9: for every duration that [human_elapsed] is given, it returns a
    string that the pattern of [parse_elapsed_to_seconds] matches, with one
    of the units ns, ms, s, m, and that is read as a finite number.  The
    durations are differences of two readings of [time.monotonic_ns()]
    (script.py:161,179-180), a signed 64-bit count of nanoseconds, hence
    below 2^63; the statement covers every duration below 10^300 ns.  The
    Unicode tables of the interpreter enter through what they are on the
    characters of such a string. *)
Theorem human_elapsed_parsed (lower : list Z -> list Z) (decimal : Z -> option Z)
    (ieq : Z -> Z -> bool) (ns : Z) :
  ascii_tables lower decimal ieq ->
  0 <= ns < 10 ^ 300 ->
  exists s ip fp u,
    human_elapsed ns = Ret s /\
    elapsed_match decimal ieq (lower (strip s)) = Some (ip, fp, u) /\
    is_unit u /\
    float_is_finite (parse_elapsed_to_seconds lower decimal ieq (EStr s)) = true.
Proof.
  intros tables [Hns Hmax]. unfold human_elapsed.
  destruct (ns <? 1000000) eqn:E1; [|destruct (ns <? 1000000000) eqn:E2;
    [|destruct (ns <? 60000000000) eqn:E3]].
  - apply Z.ltb_lt in E1. unfold str_of_int. replace (ns <? 0) with false by lia.
    assert (Hu : is_unit (lit "ns")) by (by left).
    destruct (parsed_integer lower decimal ieq tables ns _ 20 ltac:(lia) ltac:(lia) Hu)
      as [H1 H2].
    by eexists _, _, _, _.
  - apply Z.ltb_lt in E2.
    destruct (int_true_div_le ns 1000000 10 ltac:(lia) ltac:(lia) ltac:(lia) ltac:(lia))
      as (m & e & -> & Hx).
    cbn [py_bind]. rewrite format_fixed_0.
    pose proof (fixed_digits_le m e 1 10 Hx ltac:(lia) ltac:(lia)) as Hr.
    rewrite Z.mul_1_l in Hr.
    assert (Hu : is_unit (lit "ms")) by (right; by left).
    destruct (parsed_integer lower decimal ieq tables _ _ 10 Hr ltac:(lia) Hu)
      as [H1 H2].
    by eexists _, _, _, _.
  - apply Z.ltb_lt in E3.
    destruct (int_true_div_le ns 1000000000 6 ltac:(lia) ltac:(lia) ltac:(lia) ltac:(lia))
      as (m & e & -> & Hx).
    cbn [py_bind]. rewrite format_fixed_2. cbv zeta.
    pose proof (fixed_digits_le m e 100 6 Hx ltac:(lia) ltac:(lia)) as Hr.
    assert (Hu : is_unit (lit "s")) by (right; right; by left).
    destruct (parsed_fraction lower decimal ieq tables _ _ 6 Hr ltac:(lia) Hu)
      as [H1 H2].
    by eexists _, _, _, _.
  - assert (Hb : 10 ^ 300 <= 60000000000 * 2 ^ 962)
      by (apply Z.leb_le; vm_compute; reflexivity).
    destruct (int_true_div_le ns 60000000000 962 ltac:(lia) ltac:(lia) ltac:(lia)
                (Z.le_trans _ _ _ (Z.lt_le_incl _ _ Hmax) Hb))
      as (m & e & -> & Hx).
    cbn [py_bind]. rewrite format_fixed_2. cbv zeta.
    pose proof (fixed_digits_le m e 100 962 Hx ltac:(lia) ltac:(lia)) as Hr.
    assert (Hu : is_unit (lit "m")) by (right; right; by right).
    destruct (parsed_fraction lower decimal ieq tables _ _ 962 Hr ltac:(lia) Hu)
      as [H1 H2].
    by eexists _, _, _, _.
Qed.

Lemma ascii_tables_ascii : ascii_tables ascii_lower ascii_decimal ascii_ignorecase_eq.
Proof.
  split_and!; try done.
  intros s Hs. unfold ascii_lower. induction s as [|c t IH]; [done|].
  cbn [forallb map] in *. apply andb_true_iff in Hs as [Hc Ht]. rewrite (IH Ht). f_equal.
  unfold elapsed_char, is_digit in Hc. revert Hc. chs. intros Hc.
  replace ((65 <=? c) && (c <=? 90)) with false by lia. done.
Qed.

Lemma human_elapsed_parsed_witness :
  exists s ip fp u,
    human_elapsed 61500000000 = Ret s /\
    elapsed_match ascii_decimal ascii_ignorecase_eq (ascii_lower (strip s)) = Some (ip, fp, u) /\
    is_unit u /\
    float_is_finite
      (parse_elapsed_to_seconds ascii_lower ascii_decimal ascii_ignorecase_eq (EStr s)) = true.
Proof.
  apply (human_elapsed_parsed ascii_lower ascii_decimal ascii_ignorecase_eq 61500000000).
  - exact ascii_tables_ascii.
  - split; [lia|]. apply Z.ltb_lt. vm_compute. reflexivity.
Defined.

(** Far beyond any reading of the clock the floats run out: of 2 * 10^317 ns
    [human_elapsed] makes a string of 307 digits, ".00" and "m" that is read
    as infinity (the minutes times 60 overflow), and for 10^400 ns it raises
    OverflowError and returns no string. *)
Lemma human_elapsed_beyond_floats :
  (exists s,
     human_elapsed (2 * 10 ^ 317) = Ret s /\
     parse_elapsed_to_seconds ascii_lower ascii_decimal ascii_ignorecase_eq (EStr s) = FInf) /\
  human_elapsed (10 ^ 400) = Raise OverflowError.
Proof.
  split.
  - eexists. split.
    + vm_compute. reflexivity.
    + vm_compute. reflexivity.
  - vm_compute. reflexivity.
Qed.

(* ===================================================================== *)
(** * Holes and scanners *)
(* ===================================================================== *)

(** ** Holes and the lines they come from *)

Lemma enumerate_elem {A} (xs : list A) i n x :
  (n, x) ∈ enumerate i xs <-> i <= n /\ xs !! Z.to_nat (n - i) = Some x.
Proof.
  revert i. induction xs as [|y t IH]; intros i; cbn [enumerate].
  - split; [by intros ?%elem_of_nil|]. by intros [_ ?].
  - rewrite elem_of_cons, IH. split.
    + intros [[= -> ->]|[H1 H2]].
      * split; [lia|]. by replace (i - i) with 0 by lia.
      * split; [lia|]. replace (Z.to_nat (n - i)) with (S (Z.to_nat (n - (i + 1)))) by lia.
        done.
    + intros [H1 H2]. destruct (Z.eq_dec n i) as [->|Hne].
      * left. replace (i - i) with 0 in H2 by lia. change (Z.to_nat 0) with 0%nat in H2.
        cbn [lookup list_lookup] in H2. by injection H2 as ->.
      * right. split; [lia|].
        replace (Z.to_nat (n - i)) with (S (Z.to_nat (n - (i + 1)))) in H2 by lia. done.
Qed.

Lemma enumerate_sorted {A} (xs : list A) i : StronglySorted Z.lt (enumerate i xs).*1.
Proof.
  revert i. induction xs as [|y t IH]; intros i; cbn [enumerate]; [constructor|].
  rewrite fmap_cons. constructor; [apply IH|].
  apply Forall_forall. intros n [[n' x] [-> Hin]]%list_elem_of_fmap.
  apply enumerate_elem in Hin. cbn. lia.
Qed.

Lemma marker_occurrences_elem ls name n :
  (name, n) ∈ marker_occurrences ls <->
  exists line, (n, line) ∈ ls /\ str_in HOLE_MARKER line = true /\
               step_name_search line = Some name.
Proof.
  induction ls as [|[lineno line] rest IH]; cbn [marker_occurrences].
  - split; [by intros ?%elem_of_nil|]. by intros (? & ?%elem_of_nil & _).
  - assert (Hrest : (name, n) ∈ marker_occurrences rest ->
             exists line0, (n, line0) ∈ (lineno, line) :: rest /\
               str_in HOLE_MARKER line0 = true /\ step_name_search line0 = Some name).
    { intros (l & H1 & H2)%IH. exists l. split; [by right|done]. }
    split.
    + destruct (str_in HOLE_MARKER line) eqn:E1; [|done].
      destruct (step_name_search line) as [nm|] eqn:E2; [|done].
      intros [[= -> ->]|H]%elem_of_cons; [|auto].
      exists line. split; [by left|done].
    + intros (l & [[= -> ->]|Hin]%elem_of_cons & H1 & H2).
      * rewrite H1, H2. by left.
      * assert ((name, n) ∈ marker_occurrences rest) by (apply IH; eauto).
        destruct (str_in HOLE_MARKER line); [|done].
        destruct (step_name_search line); [by right|done].
Qed.

Lemma marker_occurrences_sorted ls :
  StronglySorted Z.lt ls.*1 -> StronglySorted Z.lt (marker_occurrences ls).*2.
Proof.
  induction ls as [|[lineno line] rest IH]; cbn [marker_occurrences]; [constructor|].
  rewrite fmap_cons. intros [H1 H2]%StronglySorted_inv. specialize (IH H1).
  destruct (str_in HOLE_MARKER line); [|done].
  destruct (step_name_search line) as [nm|]; [|done].
  rewrite fmap_cons. constructor; [done|].
  apply Forall_forall. intros n [[nm' n'] [-> Hin]]%list_elem_of_fmap.
  apply marker_occurrences_elem in Hin as (l & Hin & _).
  rewrite Forall_forall in H2. apply H2. apply list_elem_of_fmap. by exists (n', l).
Qed.

Lemma uniq_holes_elem seen holes x : x ∈ uniq_holes seen holes -> x ∈ holes.
Proof.
  revert seen. induction holes as [|h t IH]; intros seen; cbn [uniq_holes]; [done|].
  destruct (decide (h.1 ∈ seen)).
  - intros H%IH. by right.
  - intros [->|H%IH]%elem_of_cons; [by left|by right].
Qed.

Lemma uniq_holes_sorted seen holes :
  StronglySorted Z.lt holes.*2 -> StronglySorted Z.lt (uniq_holes seen holes).*2.
Proof.
  revert seen. induction holes as [|h t IH]; intros seen; cbn [uniq_holes]; [done|].
  rewrite fmap_cons. intros [H1 H2]%StronglySorted_inv.
  destruct (decide (h.1 ∈ seen)) as [Hs|Hs]; [by apply IH|].
  rewrite fmap_cons. constructor; [by apply IH|].
  apply Forall_forall. intros n [x [-> Hin%uniq_holes_elem]]%list_elem_of_fmap.
  rewrite Forall_forall in H2. apply H2. apply list_elem_of_fmap. by exists x.
Qed.

Lemma filter_snd_sorted (P : list Z * Z -> Prop) `{!forall x, Decision (P x)}
    (l : list (list Z * Z)) :
  StronglySorted Z.lt l.*2 -> StronglySorted Z.lt (filter P l).*2.
Proof.
  induction l as [|h t IH]; [done|]. rewrite fmap_cons, filter_cons.
  intros [H1 H2]%StronglySorted_inv. destruct (decide (P h)) as [Hp|Hp]; [|by apply IH].
  rewrite fmap_cons. constructor; [by apply IH|].
  apply Forall_forall. intros n [x [-> [_ Hin]%list_elem_of_filter]]%list_elem_of_fmap.
  rewrite Forall_forall in H2. apply H2. apply list_elem_of_fmap. by exists x.
Qed.

Lemma span_forallb p s : forallb p (span p s).1 = true.
Proof.
  induction s as [|c t IH]; [done|]. cbn [span]. destruct (p c) eqn:E; [|done].
  destruct (span p t) as [a b]. cbn [fst forallb] in *. by rewrite E, IH.
Qed.

(** What [STEP_NAME_RE] captures is not empty and has no whitespace and no
    closing parenthesis. *)
Lemma step_name_match_shape s name :
  step_name_match s = Some name -> name <> [] /\ forallb name_char name = true.
Proof.
  unfold step_name_match. destruct (starts_with _ s); [|done].
  destruct (span is_space (drop 5 s)) as [ws r]. destruct ws; [done|].
  pose proof (span_forallb name_char r) as H.
  destruct (span name_char r) as [nm r']. cbn [fst] in H.
  destruct nm; [done|]. by intros [= <-].
Qed.

Lemma step_name_search_shape s name :
  step_name_search s = Some name -> name <> [] /\ forallb name_char name = true.
Proof.
  induction s as [|c t IH]; cbn [step_name_search].
  - destruct (step_name_match []) eqn:E; [|done].
    intros [= <-]. by apply step_name_match_shape in E.
  - destruct (step_name_match (c :: t)) eqn:E; [|done].
    intros [= <-]. by apply step_name_match_shape in E.
Qed.

(** X1: every hole that [holes_in_alethe] returns points at a line of the
    certificate: the line with that number (counted from 1) holds the marker
    and the step pattern finds the hole's name on it; the name is not empty
    and has no whitespace, no ")" and no ".". *)
Theorem holes_point_at_marker_lines fs path text holes name n :
  read_text fs path = Ret text ->
  holes_in_alethe fs path = Ret holes ->
  (name, n) ∈ holes ->
  1 <= n /\
  (exists line,
     lines_of text !! Z.to_nat (n - 1) = Some line /\
     str_in HOLE_MARKER line = true /\
     step_name_search line = Some name) /\
  name <> [] /\ forallb name_char name = true /\ has_dot name = false.
Proof.
  intros Ht. unfold holes_in_alethe, read_file_lines. rewrite Ht. cbn [py_bind].
  intros [= <-] Hin%uniq_holes_elem. rewrite collect_holes_filter in Hin.
  apply list_elem_of_filter in Hin as [Hdot Hin]. cbn [fst] in Hdot.
  apply marker_occurrences_elem in Hin as (line & Hl & Hm & Hs).
  apply enumerate_elem in Hl as [Hn Hl].
  destruct (step_name_search_shape _ _ Hs) as [Hne Hch].
  split; [done|]. split; [by exists line|done].
Qed.

(** X2: every step name without "." that the pattern finds on a marker line is
    the name of a returned hole, whose line number is that of the line or of
    an earlier one. *)
Theorem holes_complete fs path text holes i line name :
  read_text fs path = Ret text ->
  holes_in_alethe fs path = Ret holes ->
  lines_of text !! i = Some line ->
  str_in HOLE_MARKER line = true ->
  step_name_search line = Some name ->
  has_dot name = false ->
  exists n, (name, n) ∈ holes /\ n <= Z.of_nat i + 1.
Proof.
  intros Ht. unfold holes_in_alethe, read_file_lines. rewrite Ht. cbn [py_bind].
  intros [= <-] Hl Hm Hs Hdot.
  set (ls := enumerate 1 (lines_of text)).
  assert (Hocc : (name, Z.of_nat i + 1) ∈ collect_holes ls).
  { rewrite collect_holes_filter. apply list_elem_of_filter. split; [done|].
    apply marker_occurrences_elem. exists line. split; [|done].
    apply enumerate_elem. split; [lia|].
    by replace (Z.to_nat (Z.of_nat i + 1 - 1)) with i by lia. }
  assert (Hname : name ∈ (uniq_holes ∅ (collect_holes ls)).*1).
  { apply uniq_holes_names. split; [|set_solver].
    apply list_elem_of_fmap. by exists (name, Z.of_nat i + 1). }
  apply list_elem_of_fmap in Hname as ([nm n] & Hnm & Hin). cbn in Hnm. subst nm.
  exists n. split; [done|].
  destruct (uniq_holes_first _ _ _ Hin) as (pre & post & Heq & Hpre). cbn [fst] in Hpre.
  assert (Hs' : StronglySorted Z.lt (collect_holes ls).*2).
  { rewrite collect_holes_filter. apply filter_snd_sorted, marker_occurrences_sorted.
    apply enumerate_sorted. }
  rewrite Heq in Hocc, Hs'. apply elem_of_app in Hocc as [Hocc|Hocc].
  - exfalso. apply Hpre. apply list_elem_of_fmap. by exists (name, Z.of_nat i + 1).
  - apply elem_of_cons in Hocc as [[= <-]|Hocc]; [lia|].
    rewrite fmap_app, fmap_cons in Hs'. apply StronglySorted_app_1_r in Hs'.
    apply StronglySorted_inv in Hs' as [_ Hs']. rewrite Forall_forall in Hs'.
    cbn [snd] in Hs'. assert (n < Z.of_nat i + 1); [|lia].
    apply Hs'. apply list_elem_of_fmap. by exists (name, Z.of_nat i + 1).
Qed.

(** X3: the holes are returned in the order of their lines. *)
Theorem holes_in_file_order fs path holes :
  holes_in_alethe fs path = Ret holes -> StronglySorted Z.lt holes.*2.
Proof.
  unfold holes_in_alethe, read_file_lines.
  destruct (read_text fs path) as [text|]; [|done]. cbn [py_bind]. intros [= <-].
  apply uniq_holes_sorted. rewrite collect_holes_filter.
  apply filter_snd_sorted, marker_occurrences_sorted, enumerate_sorted.
Qed.

Lemma collect_commands_occurrences folder file ls :
  (fun r => (cr_command r, cr_line r)) <$> collect_commands folder file ls
  = marker_occurrences ls.
Proof.
  induction ls as [|[lineno line] rest IH]; [done|].
  cbn [collect_commands marker_occurrences].
  destruct (str_in HOLE_MARKER line); [|done].
  destruct (step_name_search line); [|done].
  by rewrite fmap_cons, IH.
Qed.

(** X4: on a certificate that can be read the two scanners agree: the holes of
    script.py are records of slice_to_json.py (same name, same line), and a
    command of slice_to_json.py with no "." in it is the name of a hole. *)
Theorem scanners_agree fs path folder file holes :
  holes_in_alethe fs path = Ret holes ->
  let commands := scan_file fs folder file path in
  (forall h, h ∈ holes ->
     exists r, r ∈ commands /\ cr_command r = h.1 /\ cr_line r = h.2 /\
               cr_folder r = folder /\ cr_file r = file) /\
  (forall r, r ∈ commands -> has_dot (cr_command r) = false ->
     cr_command r ∈ holes.*1).
Proof.
  unfold holes_in_alethe, scan_file.
  destruct (read_file_lines fs path) as [ls|]; [|done]. cbn [py_bind]. intros [= <-].
  cbv zeta. split.
  - intros [name n] Hin%uniq_holes_elem. rewrite collect_holes_filter in Hin.
    apply list_elem_of_filter in Hin as [_ Hin].
    rewrite <- (collect_commands_occurrences folder file) in Hin.
    apply list_elem_of_fmap in Hin as (r & [= -> ->] & Hr). exists r.
    split; [done|]. split; [done|]. split; [done|].
    clear -Hr. induction ls as [|[lineno line] rest IH]; [by apply elem_of_nil in Hr|].
    cbn [collect_commands] in Hr. destruct (str_in HOLE_MARKER line); [|auto].
    destruct (step_name_search line); [|auto].
    apply elem_of_cons in Hr as [->|Hr]; [done|auto].
  - intros r Hr Hdot. apply uniq_holes_names. split; [|set_solver].
    rewrite collect_holes_filter. apply list_elem_of_fmap.
    exists (cr_command r, cr_line r). split; [done|].
    apply list_elem_of_filter. split; [done|].
    rewrite <- (collect_commands_occurrences folder file).
    apply list_elem_of_fmap. by exists r.
Qed.

Lemma holes_point_at_marker_lines_witness :
  1 <= 5 /\
  (exists line,
     lines_of (universal_newlines (decode_ignore cert_example)) !! Z.to_nat (5 - 1)
       = Some line /\
     str_in HOLE_MARKER line = true /\
     step_name_search line = Some (lit "h2")) /\
  lit "h2" <> [] /\ forallb name_char (lit "h2") = true /\ has_dot (lit "h2") = false.
Proof.
  apply (holes_point_at_marker_lines
           {[ lit "a.smt2.alethe" := cert_example ]} (lit "a.smt2.alethe")
           _ [(lit "h1", 1); (lit "h2", 5)]).
  - vm_compute. reflexivity.
  - vm_compute. reflexivity.
  - apply (bool_decide_unpack _). vm_compute. reflexivity.
Defined.

Lemma holes_complete_witness :
  exists n, (lit "h1", n) ∈ [(lit "h1", 1); (lit "h2", 5)] /\ n <= Z.of_nat 3 + 1.
Proof.
  eapply (holes_complete
            {[ lit "a.smt2.alethe" := cert_example ]} (lit "a.smt2.alethe")
            _ _ 3 _ (lit "h1")).
  - vm_compute. reflexivity.
  - vm_compute. reflexivity.
  - vm_compute. reflexivity.
  - vm_compute. reflexivity.
  - vm_compute. reflexivity.
  - vm_compute. reflexivity.
Defined.

Lemma holes_in_file_order_witness :
  StronglySorted Z.lt [(lit "h1", 1); (lit "h2", 5)].*2.
Proof.
  apply (holes_in_file_order
           {[ lit "a.smt2.alethe" := cert_example ]} (lit "a.smt2.alethe")).
  vm_compute. reflexivity.
Defined.

Lemma scanners_agree_witness :
  let holes := [(lit "h1", 1); (lit "h2", 5)] in
  let commands :=
    scan_file {[ lit "a.smt2.alethe" := cert_example ]} (lit "root") (lit "a.smt2.alethe")
      (lit "a.smt2.alethe") in
  (forall h, h ∈ holes ->
     exists r, r ∈ commands /\ cr_command r = h.1 /\ cr_line r = h.2 /\
               cr_folder r = lit "root" /\ cr_file r = lit "a.smt2.alethe") /\
  (forall r, r ∈ commands -> has_dot (cr_command r) = false ->
     cr_command r ∈ holes.*1).
Proof.
  apply (scanners_agree
           {[ lit "a.smt2.alethe" := cert_example ]} (lit "a.smt2.alethe")).
  vm_compute. reflexivity.
Defined.

(* ===================================================================== *)
(** * Effects of the executors *)
(* ===================================================================== *)

(** ** What the executors change *)

Section ExecutorEffects.

Variable tool : nat -> list (list Z) -> process.

(** X5: [run_slice] touches no file but the artifact and its stderr file, appends
    nothing to the ledger, and prints one debug line with the command when
    debug is on and nothing otherwise. *)
Theorem run_slice_frame
  (from_hole alethe_path smt2_path out_slice_path : list Z)
  (parse_hole_args no_print_with_sharing debug : bool) (w : world) :
  let cmd := slice_cmd from_hole alethe_path smt2_path parse_hole_args
               no_print_with_sharing in
  let w' := (run_slice tool from_hole alethe_path smt2_path out_slice_path
               parse_hole_args no_print_with_sharing debug w).1 in
  (forall p, p <> out_slice_path -> p <> out_slice_path ++ lit ".stderr" ->
             w_files w' !! p = w_files w !! p) /\
  w_appends w' = w_appends w /\
  w_stdout w' = w_stdout w ++
    (if debug
     then [DebugLine (lit "slice_cmd") cmd [(lit "out", SStr out_slice_path)]]
     else []).
Proof.
  cbv zeta. unfold run_slice.
  set (cmd := slice_cmd _ _ _ _ _).
  set (w1 := if debug then _ else w).
  assert (Hf1 : w_files w1 = w_files w) by (subst w1; by destruct debug).
  assert (Ha1 : w_appends w1 = w_appends w) by (subst w1; by destruct debug).
  assert (Ho1 : w_stdout w1 = w_stdout w ++
            (if debug
             then [DebugLine (lit "slice_cmd") cmd [(lit "out", SStr out_slice_path)]]
             else []))
    by (subst w1; destruct debug; [done|by rewrite app_nil_r]).
  clearbody w1.
  set (proc := tool _ cmd). clearbody proc.
  destruct (_ || _); [|destruct (_ && _)];
    cbn [fst set_files record_run w_files w_appends w_stdout];
    (split; [|by rewrite Ha1, Ho1]); intros p H1 H2;
    rewrite ?lookup_delete_ne, !lookup_insert_ne, Hf1 by done; done.
Qed.

Lemma is_ascii_timeout_marker t : is_ascii (timeout_marker t) = true.
Proof.
  unfold timeout_marker. by rewrite !is_ascii_app, is_ascii_str_of_int.
Qed.

(** X6: [run_elaborate] starts the tool once, writes the log and nothing else,
    and prints nothing.  The run counts as timed out exactly when a positive
    timeout was given and the process outlived it; the log then holds the
    output followed by the timeout note and the result is not ok.  Otherwise
    the log is the output of the tool. *)
Theorem run_elaborate_log
  (slice_path smt2_path out_log_path rare_file : list Z)
  (allow_int_real add_pipeline no_print_with_sharing parse_hole_args : bool)
  (timeout_sec : Z) (w : world) :
  let cmd := elaborate_cmd slice_path smt2_path rare_file allow_int_real
               add_pipeline no_print_with_sharing parse_hole_args in
  let proc := tool (length (w_runs w)) cmd in
  let out := run_elaborate tool slice_path smt2_path out_log_path rare_file
               allow_int_real add_pipeline no_print_with_sharing parse_hole_args
               timeout_sec w in
  let w' := out.1 in
  let r := out.2 in
  w_runs w' = w_runs w ++ [cmd] /\
  w_stdout w' = w_stdout w /\
  w_appends w' = w_appends w /\
  (forall p, p <> out_log_path -> w_files w' !! p = w_files w !! p) /\
  (r_timed_out r = true <-> 0 < timeout_sec /\ p_expired proc = true) /\
  (r_timed_out r = false -> w_files w' !! out_log_path = Some (p_stdout proc)) /\
  (r_timed_out r = true ->
     w_files w' !! out_log_path = Some (p_stdout proc ++ timeout_marker timeout_sec) /\
     r_ok r = false) /\
  r_elapsed_ns r = p_elapsed_ns proc.
Proof.
  cbv zeta. unfold run_elaborate.
  set (cmd := elaborate_cmd _ _ _ _ _ _ _).
  set (proc := tool _ cmd). clearbody proc.
  rewrite (utf8_encode_ascii _ (is_ascii_timeout_marker timeout_sec)). cbn [default].
  set (timed_out := (0 <? timeout_sec) && p_expired proc).
  destruct (p_log_unreadable proc); [|destruct (read_text _ _) as [data|x]];
    cbn [fst snd set_files record_run w_files w_appends w_stdout w_runs
         r_timed_out r_ok r_elapsed_ns];
    rewrite lookup_insert_eq;
    (split_and!; try done;
     [ intros p Hp; by rewrite lookup_insert_ne
     | subst timed_out; rewrite andb_true_iff, Z.ltb_lt; done
     | intros ->; by rewrite app_nil_r
     | intros ->; done ]).
Qed.

End ExecutorEffects.

(* ===================================================================== *)
(** * Jobs *)
(* ===================================================================== *)

(** ** Paths of a job *)

Lemma path_join_suffix a b : exists pre, path_join a b = pre ++ b.
Proof.
  unfold path_join. destruct (starts_with [47] b); [by exists []|].
  destruct (last a) as [c|]; [|by exists []].
  destruct (c =? 47); [by exists a|]. exists (a ++ [47]). by rewrite <- app_assoc.
Qed.

Lemma last_app_nonempty {A} (pre b : list A) : b <> [] -> last (pre ++ b) = last b.
Proof.
  intros Hb. induction pre as [|x pre IH]; [done|].
  cbn [app]. destruct (pre ++ b) eqn:E; [by destruct pre, b|]. by rewrite <- IH.
Qed.

Lemma last_path_join a x suffix :
  suffix <> [] -> last (path_join a (x ++ suffix)) = last suffix.
Proof.
  intros H. destruct (path_join_suffix a (x ++ suffix)) as [pre ->].
  rewrite app_assoc. by apply last_app_nonempty.
Qed.

Lemma path_join_inj a x y : path_join a x = path_join a y ->
  starts_with [47] x = starts_with [47] y -> x = y.
Proof.
  unfold path_join. intros H E. rewrite <- E in H. destruct (starts_with [47] x); [done|].
  destruct (last a) as [c|]; [|done]. destruct (c =? 47).
  - by apply app_inv_head in H.
  - apply app_inv_head in H. by injection H.
Qed.

Lemma starts_with_app_nonempty p b x y :
  b <> [] -> starts_with p (b ++ x) = starts_with p (b ++ y) \/ (1 < length p)%nat.
Proof.
  destruct p as [|a [|a' p]]; [by left| |right; cbn; lia].
  destruct b as [|c b]; [done|]. intros _. left. cbn. by destruct (a =? c).
Qed.

Lemma slice_path_last c x : last (slice_path_of c x) = Some (ch "e").
Proof. unfold slice_path_of. rewrite !app_assoc. by rewrite last_path_join. Qed.

Lemma stderr_path_last c x : last (slice_path_of c x ++ lit ".stderr") = Some (ch "r").
Proof. by rewrite last_app_nonempty. Qed.

Lemma out_log_path_last c x : last (out_log_path_of c x) = Some (ch "t").
Proof. unfold out_log_path_of. rewrite !app_assoc. by rewrite last_path_join. Qed.

Lemma smt2_target_last c : last (smt2_target_of c) = Some (ch "2").
Proof. unfold smt2_target_of. by rewrite last_path_join. Qed.

Lemma last_differ (p q : list Z) a b : last p = Some a -> last q = Some b -> a <> b -> p <> q.
Proof. intros H1 H2 Hab ->. congruence. Qed.

(** X7: as strings, the paths the driver builds for the artifact of a job, its
    stderr file, its log and the companion file of the certificate are four
    different strings, and different hole names give different artifact
    paths and different log paths.  (The statement is about the path strings,
    the keys under which the driver tests and opens files; two different
    strings can still name one file, as with the hole names x/y and x//y.) *)
Theorem job_paths_distinct (c : certificate) (h h' : list Z) :
  let slice := slice_path_of c h in
  let err := slice ++ lit ".stderr" in
  let log := out_log_path_of c h in
  let target := smt2_target_of c in
  (slice <> err /\ slice <> log /\ slice <> target /\
   err <> log /\ err <> target /\ log <> target) /\
  slice_path_of c h' <> log /\
  slice_path_of c h' ++ lit ".stderr" <> log /\
  slice_path_of c h' ++ lit ".stderr" <> slice /\
  (h <> h' -> slice_path_of c h' <> slice /\ out_log_path_of c h' <> log).
Proof.
  cbv zeta.
  pose proof (slice_path_last c) as Hs. pose proof (stderr_path_last c) as He.
  pose proof (out_log_path_last c) as Hl. pose proof (smt2_target_last c) as Ht.
  pose proof last_differ as Hd.
  split_and!;
    try (eapply Hd; [first [apply Hs|apply He|apply Hl|apply Ht]
                    |first [apply Hs|apply He|apply Hl|apply Ht]|done]).
  intros Hne. split.
  - intros E. unfold slice_path_of in E. apply path_join_inj in E.
    + apply app_inv_head in E. change (lit "__from-" ++ ?x) with (lit "__from-" ++ x) in E.
      apply app_inv_head, app_inv_tail in E. congruence.
    + destruct (c_base_name c) as [|b0 bs]; [reflexivity|]. cbn. by destruct (47 =? b0).
  - intros E. unfold out_log_path_of in E. apply path_join_inj in E.
    + apply app_inv_head in E. apply app_inv_head, app_inv_tail in E. congruence.
    + destruct (c_base_name c) as [|b0 bs]; [reflexivity|]. cbn. by destruct (47 =? b0).
Qed.

(** ** The stages of a job *)

Lemma status_lines_app a b : status_lines (a ++ b) = status_lines a ++ status_lines b.
Proof. apply filter_app. Qed.

Lemma status_lines_debug dbg : forallb is_debug dbg = true -> status_lines dbg = [].
Proof.
  induction dbg as [|l t IH]; [done|]. cbn [forallb]. intros [H1 H2]%andb_true_iff.
  unfold status_lines. rewrite filter_cons, decide_False by (by rewrite H1). by apply IH.
Qed.

Lemma getsize_insert fs p bs : getsize (<[p := bs]> fs) p = Z.of_nat (length bs).
Proof. unfold getsize. by rewrite lookup_insert_eq. Qed.

Section Stages.

Variable tool : nat -> list (list Z) -> process.
Variable relpath : list Z -> list Z -> option (list Z).

(** Everything [run_slice] does, in one statement. *)
Lemma run_slice_inv from_hole alethe smt2 out_path pha npws debug w :
  let cmd := slice_cmd from_hole alethe smt2 pha npws in
  let proc := tool (length (w_runs w)) cmd in
  let stderr_path := out_path ++ lit ".stderr" in
  let out := run_slice tool from_hole alethe smt2 out_path pha npws debug w in
  w_runs out.1 = w_runs w ++ [cmd] /\
  w_appends out.1 = w_appends w /\
  w_stdout out.1 = w_stdout w ++
    (if debug then [DebugLine (lit "slice_cmd") cmd [(lit "out", SStr out_path)]]
     else []) /\
  (forall p, p <> out_path -> p <> stderr_path -> w_files out.1 !! p = w_files w !! p) /\
  w_files out.1 !! out_path = Some (p_stdout proc) /\
  out.2.1 = (p_returncode proc =? 0) && negb (bool_decide (p_stdout proc = [])) /\
  out.2.2 = (if out.2.1 then None else Some stderr_path).
Proof.
  cbv zeta. unfold run_slice.
  set (cmd := slice_cmd _ _ _ _ _).
  set (w1 := if debug then _ else w).
  assert (Hr1 : w_runs w1 = w_runs w) by (subst w1; by destruct debug).
  assert (Hf1 : w_files w1 = w_files w) by (subst w1; by destruct debug).
  assert (Ha1 : w_appends w1 = w_appends w) by (subst w1; by destruct debug).
  assert (Ho1 : w_stdout w1 = w_stdout w ++
            (if debug
             then [DebugLine (lit "slice_cmd") cmd [(lit "out", SStr out_path)]]
             else []))
    by (subst w1; destruct debug; [done|by rewrite app_nil_r]).
  clearbody w1. rewrite Hr1.
  set (proc := tool _ cmd). clearbody proc.
  assert (Hne : out_path <> out_path ++ lit ".stderr") by (by apply app_nonempty_neq).
  assert (Hsz : (getsize (<[out_path ++ lit ".stderr" := p_stderr proc]>
                            (<[out_path := p_stdout proc]> (w_files w1))) out_path =? 0)
                = bool_decide (p_stdout proc = [])).
  { unfold getsize. rewrite lookup_insert_ne, lookup_insert_eq by done. cbn [default].
    destruct (p_stdout proc); [done|]. rewrite bool_decide_eq_false_2 by done.
    apply Z.eqb_neq. unfold id. cbn [length]. lia. }
  rewrite Hsz.
  destruct (bool_decide (p_stdout proc = [])), (p_returncode proc =? 0);
    cbn [orb negb andb]; try destruct (_ && _);
    cbn [fst snd set_files record_run w_files w_appends w_stdout w_runs];
    (split_and!; try done;
     first [ by rewrite ?Hr1, ?Ha1, ?Ho1
           | by (intros p H1 H2; rewrite ?lookup_delete_ne, !lookup_insert_ne, Hf1)
           | by rewrite ?lookup_delete_ne, lookup_insert_ne, lookup_insert_eq ]).
Qed.

(** Everything [run_elaborate] does to the state. *)
Lemma run_elaborate_inv slice_path smt2_path out_log_path rare_file
    air pipe npws pha timeout_sec w :
  let cmd := elaborate_cmd slice_path smt2_path rare_file air pipe npws pha in
  let out := run_elaborate tool slice_path smt2_path out_log_path rare_file
               air pipe npws pha timeout_sec w in
  w_runs out.1 = w_runs w ++ [cmd] /\
  w_appends out.1 = w_appends w /\
  w_stdout out.1 = w_stdout w /\
  (forall p, p <> out_log_path -> w_files out.1 !! p = w_files w !! p) /\
  isfile (w_files out.1) out_log_path = true /\
  r_elapsed_ns out.2 = p_elapsed_ns (tool (length (w_runs w)) cmd).
Proof.
  cbv zeta. unfold run_elaborate.
  set (cmd := elaborate_cmd _ _ _ _ _ _ _).
  set (proc := tool _ cmd). clearbody proc.
  destruct (p_log_unreadable proc); [|destruct (read_text _ _) as [data|x]];
    cbn [fst snd set_files record_run w_files w_appends w_stdout w_runs r_elapsed_ns];
    (split_and!; try done;
     [ intros p Hp; by rewrite lookup_insert_ne
     | unfold isfile; by rewrite lookup_insert_eq ]).
Qed.

(** The companion file the transfer hands on is the one it was given or the
    one used for slicing, and a path that is no file stays none unless it is
    the target. *)
Lemma transfer_smt2_more a c smt2_src w :
  let out := transfer_smt2 relpath a c smt2_src w in
  (out.1.2 = smt2_src \/ out.1.2 = Some (c_smt2_for_slice c)) /\
  (forall p, p <> smt2_target_of c -> w_files w !! p = None ->
             w_files out.1.1 !! p = None).
Proof.
  cbv zeta. unfold transfer_smt2.
  destruct (find_existing_smt2_for_base _ _ _) as [dest|]; [by split; [left|]|].
  cbv zeta.
  set (src1 := if negb (usable_file (w_files w) smt2_src) && _
               then Some (c_smt2_for_slice c) else smt2_src).
  assert (Hsrc : src1 = smt2_src \/ src1 = Some (c_smt2_for_slice c)).
  { subst src1. destruct (_ && _); auto. }
  clearbody src1.
  destruct (usable_file (w_files w) src1); [|by split].
  destruct (a_no_move a), (a_debug a);
    cbn [fst snd set_files print w_files]; (split; [done|]); intros p H1 H2;
    rewrite lookup_insert_ne by done; try done.
  all: by rewrite lookup_delete_None; right.
Qed.

End Stages.

(** ** Encoding what is written *)

Lemma utf8_encode_app a b :
  utf8_encode (a ++ b)
  = match utf8_encode a, utf8_encode b with
    | Some x, Some y => Some (x ++ y)
    | _, _ => None
    end.
Proof.
  induction a as [|c a IH]; cbn [app utf8_encode].
  - by destruct (utf8_encode b).
  - rewrite IH. destruct (utf8_encode_char c), (utf8_encode a), (utf8_encode b);
      try done. by rewrite app_assoc.
Qed.

Lemma write_chunks_encode chunks written :
  match utf8_encode (concat chunks) with
  | Some b => write_chunks chunks written = (written ++ b, Ret tt)
  | None => exists partial, write_chunks chunks written = (partial, Raise UnicodeEncodeError)
  end.
Proof.
  revert written. induction chunks as [|c t IH]; intros written; cbn [concat write_chunks].
  - cbn. by rewrite app_nil_r.
  - rewrite utf8_encode_app. destruct (utf8_encode c) as [x|]; [|by eexists].
    specialize (IH (written ++ x)). destruct (utf8_encode (concat t)) as [y|].
    + by rewrite IH, <- app_assoc.
    + done.
Qed.

(** [append_json_array] always leaves a file behind. *)
Lemma append_json_array_some file e :
  exists bs, (append_json_array file e).1 = Some bs.
Proof.
  unfold append_json_array. destruct file as [old|].
  - destruct (_ =? 0).
    + destruct (utf8_encode _); by eexists.
    + destruct (scan_back _ _ _ _) as [pos chunk].
      destruct (_ =? -1).
      * destruct (match json_load old with Some v => _ | None => _ end); by eexists.
      * destruct (utf8_encode _); by eexists.
  - destruct (write_chunks _ _). by eexists.
Qed.

(** The first append, when no ledger is there. *)
Lemma append_json_array_none e b :
  utf8_encode (dumps_list1 e) = Some b ->
  append_json_array None e = (Some (b ++ [10]), Ret tt).
Proof.
  intros Hb. unfold append_json_array.
  pose proof (write_chunks_encode (list1_chunks e ++ [[10]]) []) as H.
  rewrite concat_app, utf8_encode_app in H. fold (dumps_list1 e) in H.
  change (utf8_encode (concat [[10]])) with (Some [10]) in H.
  rewrite Hb in H. by rewrite H.
Qed.

(** ** Jobs *)

Section Jobs.

Variable tool : nat -> list (list Z) -> process.
Variable relpath : list Z -> list Z -> option (list Z).

(** X8: a slice run that fails ends the job: the tool was started once, one
    status line with status slice_error and the path of the stderr file is
    printed, nothing is appended to the ledger, the companion file is not
    moved, and the artifact stays as the tool left it. *)
Theorem slice_error_ends_job a c hole_name line_no smt2_src w :
  let slice := slice_path_of c hole_name in
  let cmd := slice_cmd hole_name (c_alethe_path c) (c_smt2_for_slice c)
               (a_parse_hole_args a) (a_no_print_with_sharing a) in
  let proc := tool (length (w_runs w)) cmd in
  let out := process_hole tool relpath a c (hole_name, line_no) smt2_src w in
  isfile (w_files w) slice = false ->
  p_returncode proc <> 0 \/ p_stdout proc = [] ->
  out.2 = Ret smt2_src /\
  w_runs out.1 = w_runs w ++ [cmd] /\
  w_appends out.1 = w_appends w /\
  w_stdout out.1 = w_stdout w ++
    (if a_debug a then [DebugLine (lit "slice_cmd") cmd [(lit "out", SStr slice)]] else [])
    ++ [JsonLine [(lit "status", SStr (lit "slice_error"));
                  (lit "alethe", SStr (rel_to relpath (c_root_abs c) (c_alethe_path c)));
                  (lit "hole", SStr hole_name);
                  (lit "line", SInt line_no);
                  (lit "stderr", SStr (rel_to relpath (c_out_root_parent c)
                                         (slice ++ lit ".stderr")))]] /\
  (forall p, p <> slice -> p <> slice ++ lit ".stderr" ->
             w_files out.1 !! p = w_files w !! p) /\
  w_files out.1 !! slice = Some (p_stdout proc).
Proof.
  cbv zeta. intros Hs Hfail. unfold process_hole. rewrite Hs. cbn [negb].
  pose proof (run_slice_inv tool hole_name (c_alethe_path c) (c_smt2_for_slice c)
                (slice_path_of c hole_name) (a_parse_hole_args a)
                (a_no_print_with_sharing a) (a_debug a) w) as H.
  cbv zeta in H. destruct H as (Hr & Ha & Ho & Hf & Hsl & Hok & Herr).
  destruct (run_slice _ _ _ _ _ _ _ _ _) as [w1 [ok err]]. cbn [fst snd] in *.
  assert (ok = false) as ->.
  { rewrite Hok. destruct Hfail as [H|H].
    - by replace (p_returncode _ =? 0) with false by lia.
    - rewrite H. apply andb_false_r. }
  subst err. cbn [negb fst snd print w_runs w_appends w_stdout w_files].
  split_and!; try done.
  rewrite Ho, <- app_assoc. f_equal. f_equal. unfold slice_error_line.
  destruct (slice_path_of c hole_name ++ lit ".stderr") eqn:E; [|done].
  by apply app_eq_nil in E as [_ ?].
Qed.

(** The ways a job ends, with what it printed, started and appended: a
    slice error, or, past the slice stage, a cached log or an elaboration. *)
Lemma process_hole_outcome a c hole_name line_no smt2_src w :
  let slice := slice_path_of c hole_name in
  let log := out_log_path_of c hole_name in
  let cmd := slice_cmd hole_name (c_alethe_path c) (c_smt2_for_slice c)
               (a_parse_hole_args a) (a_no_print_with_sharing a) in
  let proc := tool (length (w_runs w)) cmd in
  let sliced := isfile (w_files w) slice
                || ((p_returncode proc =? 0) && negb (bool_decide (p_stdout proc = []))) in
  let out := process_hole tool relpath a c (hole_name, line_no) smt2_src w in
  let pre := if isfile (w_files w) slice then [] else [cmd] in
  exists dbg,
    forallb is_debug dbg = true /\ (a_debug a = false -> dbg = []) /\
    ((sliced = false /\
      w_files out.1 !! slice = Some (p_stdout proc) /\
      (exists err, w_stdout out.1
                   = w_stdout w ++ dbg ++ [slice_error_line relpath c hole_name line_no err]) /\
      w_runs out.1 = w_runs w ++ [cmd] /\ w_appends out.1 = w_appends w /\
      out.2 = Ret smt2_src) \/
     (sliced = true /\
      isfile (w_files out.1) log = true /\
      (smt2_src <> Some slice -> c_smt2_for_slice c <> slice ->
       isfile (w_files out.1) slice = true) /\
      ((isfile (w_files w) log = true /\
        w_stdout out.1 = w_stdout w ++ dbg ++ [cached_line relpath c hole_name] /\
        w_runs out.1 = w_runs w ++ pre /\ w_appends out.1 = w_appends w /\
        exists src', out.2 = Ret src') \/
       ((isfile (w_files w) log = false \/ smt2_src = Some log \/ c_smt2_for_slice c = log) /\
        exists dest r,
          w_runs out.1 = w_runs w ++ pre ++
            [elaborate_cmd slice dest (a_rare_file a) (a_allow_int_real_subtyping a)
               (a_pipeline_hole_local a) (a_no_print_with_sharing a) (a_parse_hole_args a)] /\
          r_elapsed_ns r = p_elapsed_ns (tool (length (w_runs w ++ pre))
            (elaborate_cmd slice dest (a_rare_file a) (a_allow_int_real_subtyping a)
               (a_pipeline_hole_local a) (a_no_print_with_sharing a) (a_parse_hole_args a))) /\
          ((exists elapsed,
              human_elapsed (r_elapsed_ns r) = Ret elapsed /\
              w_stdout out.1 = w_stdout w ++ dbg ++
                [JsonLine (result_record relpath c hole_name line_no dest r elapsed)] /\
              w_appends out.1 = w_appends w ++
                [result_record relpath c hole_name line_no dest r elapsed]) \/
           (exists x,
              human_elapsed (r_elapsed_ns r) = Raise x /\ out.2 = Raise x /\
              w_stdout out.1 = w_stdout w ++ dbg /\ w_appends out.1 = w_appends w)))))).
Proof.
  cbv zeta. unfold process_hole.
  set (slice := slice_path_of c hole_name). set (log := out_log_path_of c hole_name).
  set (cmd := slice_cmd _ _ _ _ _).
  assert (Hls : log <> slice)
    by (eapply last_differ; [apply out_log_path_last|apply slice_path_last|done]).
  assert (Hle : log <> slice ++ lit ".stderr")
    by (eapply last_differ; [apply out_log_path_last|apply stderr_path_last|done]).
  assert (Hlt : log <> smt2_target_of c)
    by (eapply last_differ; [apply out_log_path_last|apply smt2_target_last|done]).
  (* the slice stage *)
  assert (Hstage : exists w1 ok err dbg1,
    (if negb (isfile (w_files w) slice)
     then run_slice tool hole_name (c_alethe_path c) (c_smt2_for_slice c) slice
            (a_parse_hole_args a) (a_no_print_with_sharing a) (a_debug a) w
     else (w, (true, None))) = (w1, (ok, err)) /\
    forallb is_debug dbg1 = true /\ (a_debug a = false -> dbg1 = []) /\
    w_stdout w1 = w_stdout w ++ dbg1 /\
    w_runs w1 = w_runs w ++ (if isfile (w_files w) slice then [] else [cmd]) /\
    w_appends w1 = w_appends w /\
    w_files w1 !! log = w_files w !! log /\
    isfile (w_files w1) slice = true /\
    ok = isfile (w_files w) slice
         || ((p_returncode (tool (length (w_runs w)) cmd) =? 0)
             && negb (bool_decide (p_stdout (tool (length (w_runs w)) cmd) = []))) /\
    (ok = false -> w_files w1 !! slice = Some (p_stdout (tool (length (w_runs w)) cmd)))).
  { destruct (isfile (w_files w) slice) eqn:Hs; cbn [negb orb].
    - exists w, true, None, []. rewrite !app_nil_r. by split_and!.
    - pose proof (run_slice_inv tool hole_name (c_alethe_path c) (c_smt2_for_slice c)
                    slice (a_parse_hole_args a) (a_no_print_with_sharing a)
                    (a_debug a) w) as H.
      cbv zeta in H. destruct H as (Hr & Ha & Ho & Hf & Hsl & Hok & _).
      destruct (run_slice _ _ _ _ _ _ _ _ _) as [w1 [ok err]]. cbn [fst snd] in *.
      eexists w1, ok, err, _. split; [done|].
      split_and!; [| |exact Ho|done|done|by apply Hf| |done|done].
      + by destruct (a_debug a).
      + by intros ->.
      + unfold isfile. by rewrite Hsl. }
  destruct Hstage
    as (w1 & ok & err & dbg1 & -> & Hd1 & Hn1 & Ho1 & Hr1 & Ha1 & Hf1 & Hs1 & Hok & Hart).
  rewrite <- Hok. destruct ok; cbn [negb]; cycle 1.
  { exists dbg1. split; [done|]. split; [done|]. left.
    cbn [fst snd print w_stdout w_runs w_appends w_files].
    symmetry in Hok. apply orb_false_elim in Hok as [Hs _]. rewrite Hs in Hr1.
    split_and!; try done; [by apply Hart|].
    exists err. by rewrite Ho1, <- app_assoc. }
  (* the transfer *)
  pose proof (transfer_smt2_frame relpath a c smt2_src w1)
    as (Hr2 & Ha2 & (dbg2 & Ho2 & Hd2) & _ & Hk2).
  pose proof (transfer_smt2_more relpath a c smt2_src w1) as [_ Hf2]. cbv zeta in Hf2.
  specialize (Hf2 log Hlt).
  assert (Hn2 : a_debug a = false -> w_stdout (transfer_smt2 relpath a c smt2_src w1).1.1
                                     = w_stdout w1).
  { intros Hdbg. unfold transfer_smt2.
    destruct (find_existing_smt2_for_base _ _ _); [done|]. cbv zeta.
    destruct (usable_file _ _); [|done]. by rewrite Hdbg. }
  destruct (transfer_smt2 relpath a c smt2_src w1) as [[w2 src2] dest]. cbn [fst snd] in *.
  exists (dbg1 ++ dbg2). split; [by rewrite forallb_app, Hd1, Hd2|]. split.
  { intros Hdbg. rewrite (Hn1 Hdbg). cbn [app].
    specialize (Hn2 Hdbg). rewrite Ho2 in Hn2.
    rewrite <- (app_nil_r (w_stdout w1)) in Hn2 at 2. by apply app_inv_head in Hn2. }
  right. split; [done|].
  assert (Hs2 : smt2_src <> Some slice -> c_smt2_for_slice c <> slice ->
                isfile (w_files w2) slice = true).
  { intros H1 H2. apply Hk2; [done|done|congruence]. }
  destruct (isfile (w_files w2) log) eqn:Hlog.
  { cbn [fst snd print w_stdout w_runs w_appends w_files].
    split; [done|]. split; [done|]. left.
    rewrite Ho2, Ho1, Hr2, Hr1, Ha2, Ha1, <- !app_assoc. split_and!; try done; [|by eexists].
    unfold isfile in *. rewrite <- Hf1.
    destruct (w_files w1 !! log); [done|]. by rewrite Hf2 in Hlog. }
  (* the elaboration *)
  assert (Habs : isfile (w_files w) log = false \/ smt2_src = Some log
                 \/ c_smt2_for_slice c = log).
  { destruct (isfile (w_files w) log) eqn:E; [|by left]. right.
    destruct (decide (smt2_src = Some log)) as [?|H1]; [by left|].
    destruct (decide (c_smt2_for_slice c = log)) as [?|H2]; [by right|].
    assert (isfile (w_files w1) log = true) as H by (unfold isfile in *; by rewrite Hf1).
    apply Hk2 in H; [congruence|done|congruence]. }
  pose proof (run_elaborate_inv tool slice dest log (a_rare_file a)
                (a_allow_int_real_subtyping a) (a_pipeline_hole_local a)
                (a_no_print_with_sharing a) (a_parse_hole_args a)
                (a_elab_timeout_sec a) w2) as H.
  cbv zeta in H. destruct H as (Hr3 & Ha3 & Ho3 & Hf3 & Hl3 & He3).
  destruct (run_elaborate _ _ _ _ _ _ _ _ _ _ _) as [w3 r]. cbn [fst snd] in *.
  assert (Hs3 : smt2_src <> Some slice -> c_smt2_for_slice c <> slice ->
                isfile (w_files w3) slice = true).
  { intros H1 H2. specialize (Hs2 H1 H2). unfold isfile in *. rewrite Hf3; [done|congruence]. }
  rewrite Hr2, Hr1 in Hr3, He3. rewrite <- app_assoc in Hr3.
  assert (Hins : forall (file : option (list Z)) p,
            isfile (w_files w3) p = true ->
            isfile match file with
                   | Some bs => <[ledger_path_of a c := bs]> (w_files w3)
                   | None => w_files w3
                   end p = true).
  { intros [bs|] p Hp; [|done]. unfold isfile in *.
    destruct (decide (ledger_path_of a c = p)) as [->|Hne].
    - by rewrite lookup_insert_eq.
    - by rewrite lookup_insert_ne. }
  destruct (human_elapsed (r_elapsed_ns r)) as [elapsed|x] eqn:Hh.
  - destruct (append_json_array _ _) as [file res].
    cbn [fst snd set_files record_append print w_stdout w_runs w_appends w_files].
    split; [by apply Hins|]. split; [intros; by apply Hins, Hs3|]. right.
    split; [done|]. exists dest, r. split; [done|]. split; [done|]. left. exists elapsed.
    rewrite Ho3, Ho2, Ho1, Ha3, Ha2, Ha1, <- !app_assoc. done.
  - cbn [fst snd]. split; [done|]. split; [done|]. right.
    split; [done|]. exists dest, r. split; [done|]. split; [done|]. right. exists x.
    rewrite Ho3, Ho2, Ho1, Ha3, Ha2, Ha1, <- !app_assoc. done.
Qed.

(** What a job that appends a record does to the ledger: the file and the
    outcome of the job are those of [append_json_array] on the ledger as it
    was before the job. *)
Lemma process_hole_ledger a c hole_name line_no smt2_src w record :
  let slice := slice_path_of c hole_name in
  let log := out_log_path_of c hole_name in
  let ledger := ledger_path_of a c in
  let out := process_hole tool relpath a c (hole_name, line_no) smt2_src w in
  ledger <> slice -> ledger <> slice ++ lit ".stderr" -> ledger <> log ->
  ledger <> smt2_target_of c -> ledger <> c_smt2_for_slice c ->
  smt2_src <> Some ledger ->
  w_appends out.1 = w_appends w ++ [record] ->
  let appended := append_json_array (w_files w !! ledger) record in
  exists src',
    w_files out.1 !! ledger = appended.1 /\
    out.2 = match appended.2 with Ret _ => Ret src' | Raise x => Raise x end.
Proof.
  cbv zeta. intros H1 H2 H3 H4 H5 H6. unfold process_hole.
  set (slice := slice_path_of c hole_name). set (log := out_log_path_of c hole_name).
  set (ledger := ledger_path_of a c) in *.
  assert (Hnil : forall l : list (list (list Z * scalar)), l = l ++ [record] -> False).
  { intros l E. rewrite <- (app_nil_r l) in E at 1. by apply app_inv_head in E. }
  assert (Hstage : exists w1 ok err,
    (if negb (isfile (w_files w) slice)
     then run_slice tool hole_name (c_alethe_path c) (c_smt2_for_slice c) slice
            (a_parse_hole_args a) (a_no_print_with_sharing a) (a_debug a) w
     else (w, (true, None))) = (w1, (ok, err)) /\
    w_appends w1 = w_appends w /\
    w_files w1 !! ledger = w_files w !! ledger).
  { destruct (isfile (w_files w) slice); cbn [negb].
    - by exists w, true, None.
    - pose proof (run_slice_inv tool hole_name (c_alethe_path c) (c_smt2_for_slice c)
                    slice (a_parse_hole_args a) (a_no_print_with_sharing a)
                    (a_debug a) w) as H.
      cbv zeta in H. destruct H as (_ & Ha & _ & Hf & _).
      destruct (run_slice _ _ _ _ _ _ _ _ _) as [w1 [ok err]]. cbn [fst snd] in *.
      exists w1, ok, err. split_and!; [done|done|by apply Hf]. }
  destruct Hstage as (w1 & ok & err & -> & Ha1 & Hf1).
  destruct ok; cbn [negb]; cycle 1.
  { cbn [fst snd print w_appends]. rewrite Ha1. by intros ?%Hnil. }
  pose proof (transfer_smt2_frame relpath a c smt2_src w1) as (_ & Ha2 & _ & Hf2 & _).
  specialize (Hf2 ledger H4 H6 H5).
  destruct (transfer_smt2 relpath a c smt2_src w1) as [[w2 src2] dest]. cbn [fst snd] in *.
  destruct (isfile (w_files w2) log).
  { cbn [fst snd print w_appends]. rewrite Ha2, Ha1. by intros ?%Hnil. }
  pose proof (run_elaborate_inv tool slice dest log (a_rare_file a)
                (a_allow_int_real_subtyping a) (a_pipeline_hole_local a)
                (a_no_print_with_sharing a) (a_parse_hole_args a)
                (a_elab_timeout_sec a) w2) as H.
  cbv zeta in H. destruct H as (_ & Ha3 & _ & Hf3 & _).
  specialize (Hf3 ledger H3).
  destruct (run_elaborate _ _ _ _ _ _ _ _ _ _ _) as [w3 r]. cbn [fst snd] in *.
  destruct (human_elapsed (r_elapsed_ns r)) as [elapsed|x].
  2:{ cbn [fst snd]. rewrite Ha3, Ha2, Ha1. by intros ?%Hnil. }
  cbn [record_append print w_files].
  rewrite Hf3, Hf2, Hf1.
  destruct (append_json_array_some (w_files w !! ledger)
              (result_record relpath c hole_name line_no dest r elapsed)) as [bs Hbs].
  destruct (append_json_array _ _) as [file res] eqn:E. cbn [fst] in Hbs. subst file.
  cbn [fst snd set_files record_append print w_appends w_files]. rewrite Ha3, Ha2, Ha1.
  intros Happ%app_inv_head. injection Happ as <-. rewrite E. cbn [fst snd].
  exists src2. split; [by rewrite lookup_insert_eq|]. by destruct res.
Qed.

(** X9: a job that returns without raising has printed exactly one status
    line, and printed it last, after its debug lines; a job that raises has
    printed at most one status line; with debug off a job prints no debug
    line. *)
Theorem one_status_line_per_job a c hole_name line_no smt2_src w :
  let out := process_hole tool relpath a c (hole_name, line_no) smt2_src w in
  exists new,
    w_stdout out.1 = w_stdout w ++ new /\
    (a_debug a = false -> status_lines new = new) /\
    (length (status_lines new) <= 1)%nat /\
    (forall src', out.2 = Ret src' ->
       exists dbg l, new = dbg ++ [l] /\ forallb is_debug dbg = true /\ is_debug l = false).
Proof.
  cbv zeta.
  destruct (process_hole_outcome a c hole_name line_no smt2_src w)
    as (dbg & Hd & Hn & H). cbv zeta in H.
  pose proof (status_lines_debug dbg Hd) as Hsd.
  destruct H as [(_ & _ & (err & Ho) & _)
                |(_ & _ & _ & [(_ & Ho & _)|(_ & dest & r & _ & _ & H)])].
  - eexists. split; [exact Ho|]. rewrite status_lines_app, Hsd.
    split_and!; [by intros ->%Hn|done|]. intros _ _. by eexists _, _.
  - eexists. split; [exact Ho|]. rewrite status_lines_app, Hsd.
    split_and!; [by intros ->%Hn|done|]. intros _ _. by eexists _, _.
  - destruct H as [(elapsed & _ & Ho & _)|(x & Hx & Hr & Ho & _)].
    + eexists. split; [exact Ho|]. rewrite status_lines_app, Hsd.
      split_and!; [by intros ->%Hn|done|]. intros _ _. by eexists _, _.
    + exists dbg. split; [done|]. rewrite Hsd.
      split_and!; [by intros ->%Hn|cbn; lia|]. intros src'. by rewrite Hr.
Qed.

(** X10: a job starts the tool at most twice, first for the slice and then for
    the elaboration; the ledger gets at most one record, only after an
    elaboration was run, and that record is the status line printed last. *)
Theorem job_accounting a c hole_name line_no smt2_src w :
  let out := process_hole tool relpath a c (hole_name, line_no) smt2_src w in
  exists s e,
    w_runs out.1 = w_runs w ++ s ++ e /\
    (length s <= 1)%nat /\ (length e <= 1)%nat /\
    Forall (fun cmd => take 2 cmd = [lit "carcara"; lit "slice"]) s /\
    Forall (fun cmd => take 2 cmd = [lit "carcara"; lit "elaborate"]) e /\
    (w_appends out.1 = w_appends w \/
     exists rec, w_appends out.1 = w_appends w ++ [rec] /\
                 last (w_stdout out.1) = Some (JsonLine rec) /\ length e = 1%nat).
Proof.
  cbv zeta.
  destruct (process_hole_outcome a c hole_name line_no smt2_src w)
    as (dbg & Hd & Hn & H). cbv zeta in H.
  set (pre := if isfile _ _ then [] else [_]) in H.
  assert (Hpre : (length pre <= 1)%nat /\
                 Forall (fun cmd => take 2 cmd = [lit "carcara"; lit "slice"]) pre).
  { subst pre. destruct (isfile _ _); split; cbn; try lia; by repeat constructor. }
  destruct Hpre as [Hp1 Hp2].
  destruct H as [(_ & _ & _ & Hr & Ha & _)
                |(_ & _ & _ & [(_ & _ & Hr & Ha & _)|(_ & dest & r & Hr & _ & H)])].
  - exists [slice_cmd hole_name (c_alethe_path c)
      (c_smt2_for_slice c) (a_parse_hole_args a) (a_no_print_with_sharing a)], [].
    split_and!; try done; [cbn; lia|by repeat constructor|by left].
  - exists pre, []. rewrite app_nil_r.
    split_and!; try done; [cbn; lia|by left].
  - eexists pre, [_]. split; [exact Hr|].
    split_and!; try done; [by repeat constructor|].
    destruct H as [(elapsed & _ & Ho & Ha)|(x & _ & _ & _ & Ha)]; [right|by left].
    eexists. split; [exact Ha|]. split; [|done].
    rewrite Ho, !app_assoc. apply last_snoc.
Qed.

Lemma human_elapsed_returns ns : ns < 10 ^ 300 -> exists s, human_elapsed ns = Ret s.
Proof.
  intros Hmax. unfold human_elapsed.
  destruct (ns <? 1000000) eqn:E1; [by eexists|].
  destruct (ns <? 1000000000) eqn:E2; [|destruct (ns <? 60000000000) eqn:E3].
  - destruct (int_true_div_le ns 1000000 10 ltac:(lia) ltac:(lia) ltac:(lia) ltac:(lia))
      as (m & e & -> & _). by eexists.
  - destruct (int_true_div_le ns 1000000000 6 ltac:(lia) ltac:(lia) ltac:(lia) ltac:(lia))
      as (m & e & -> & _). by eexists.
  - assert (Hb : 10 ^ 300 <= 60000000000 * 2 ^ 962)
      by (apply Z.leb_le; vm_compute; reflexivity).
    destruct (int_true_div_le ns 60000000000 962 ltac:(lia) ltac:(lia) ltac:(lia)
                (Z.le_trans _ _ _ (Z.lt_le_incl _ _ Hmax) Hb))
      as (m & e & -> & _). by eexists.
Qed.

(** X11: a job with no artifact and no log, on a tool whose slice run
    succeeds, with a ledger path that is none of the paths of the job: the
    tool is started twice, for the slice and then for the elaboration of
    that slice; one result line is printed and the same record is given to
    [append_json_array]; the log is there afterwards; the ledger file and
    the outcome of the job are what [append_json_array] makes of the ledger
    as it was before the job.  In particular, when there was no ledger and
    the record can be encoded, the ledger is afterwards the array of that
    one record and the job returns normally. *)
Theorem fresh_job_recorded a c hole_name line_no smt2_src w :
  let slice := slice_path_of c hole_name in
  let log := out_log_path_of c hole_name in
  let ledger := ledger_path_of a c in
  let cmd := slice_cmd hole_name (c_alethe_path c) (c_smt2_for_slice c)
               (a_parse_hole_args a) (a_no_print_with_sharing a) in
  let proc := tool (length (w_runs w)) cmd in
  let out := process_hole tool relpath a c (hole_name, line_no) smt2_src w in
  isfile (w_files w) slice = false ->
  isfile (w_files w) log = false ->
  p_returncode proc = 0 -> p_stdout proc <> [] ->
  (forall n cmd', p_elapsed_ns (tool n cmd') < 10 ^ 300) ->
  ledger <> slice -> ledger <> slice ++ lit ".stderr" -> ledger <> log ->
  ledger <> smt2_target_of c -> ledger <> c_smt2_for_slice c ->
  smt2_src <> Some ledger ->
  exists dest r elapsed src',
    let ecmd := elaborate_cmd slice dest (a_rare_file a) (a_allow_int_real_subtyping a)
                  (a_pipeline_hole_local a) (a_no_print_with_sharing a)
                  (a_parse_hole_args a) in
    let record := result_record relpath c hole_name line_no dest r elapsed in
    let appended := append_json_array (w_files w !! ledger) record in
    w_runs out.1 = w_runs w ++ [cmd; ecmd] /\
    human_elapsed (p_elapsed_ns (tool (S (length (w_runs w))) ecmd)) = Ret elapsed /\
    w_appends out.1 = w_appends w ++ [record] /\
    (exists dbg, w_stdout out.1 = w_stdout w ++ dbg ++ [JsonLine record] /\
                 forallb is_debug dbg = true) /\
    isfile (w_files out.1) log = true /\
    w_files out.1 !! ledger = appended.1 /\
    out.2 = match appended.2 with Ret _ => Ret src' | Raise x => Raise x end /\
    (w_files w !! ledger = None ->
     forall b, utf8_encode (dumps_list1 record) = Some b ->
       w_files out.1 !! ledger = Some (b ++ [10]) /\ out.2 = Ret src').
Proof.
  cbv zeta. intros Hs Hl Hrc Hout He L1 L2 L3 L4 L5 L6.
  destruct (process_hole_outcome a c hole_name line_no smt2_src w)
    as (dbg & Hd & Hn & H). cbv zeta in H. rewrite Hs, Hl, Hrc in H.
  rewrite bool_decide_eq_false_2 in H by done. cbn [orb andb negb Z.eqb] in H.
  destruct H as [(? & _)|(_ & Hlog & _ & [(? & _)|(_ & dest & r & Hr & Hel & H)])];
    [done|done|].
  rewrite length_app, Nat.add_comm in Hel. cbn [length Nat.add] in Hel.
  destruct H as [(elapsed & Hh & Ho & Ha)|(x & Hx & _)].
  - destruct (process_hole_ledger a c hole_name line_no smt2_src w _ L1 L2 L3 L4 L5 L6 Ha)
      as (src' & Hfile & Hres).
    exists dest, r, elapsed, src'. rewrite <- Hel. split_and!; try done; [by exists dbg|].
    intros Hnone b Hb. rewrite Hfile, Hres, Hnone.
    by rewrite (append_json_array_none _ b Hb).
  - destruct (human_elapsed_returns (r_elapsed_ns r)) as [s Hs']; [|congruence].
    rewrite Hel. apply He.
Qed.

(** X12: a slice that failed is not tried again: the artifact stays as the tool
    left it, and a later run of the job takes it as cached, so that it starts
    no slice command (at most the elaboration, on that artifact). *)
Theorem failed_slice_not_retried a c hole_name line_no smt2_src smt2_src' w :
  let slice := slice_path_of c hole_name in
  let cmd := slice_cmd hole_name (c_alethe_path c) (c_smt2_for_slice c)
               (a_parse_hole_args a) (a_no_print_with_sharing a) in
  let proc := tool (length (w_runs w)) cmd in
  let w1 := (process_hole tool relpath a c (hole_name, line_no) smt2_src w).1 in
  let out := process_hole tool relpath a c (hole_name, line_no) smt2_src' w1 in
  isfile (w_files w) slice = false ->
  p_returncode proc <> 0 \/ p_stdout proc = [] ->
  w_files w1 !! slice = Some (p_stdout proc) /\
  (w_runs out.1 = w_runs w1 \/
   exists dest,
     w_runs out.1 = w_runs w1 ++
       [elaborate_cmd slice dest (a_rare_file a) (a_allow_int_real_subtyping a)
          (a_pipeline_hole_local a) (a_no_print_with_sharing a) (a_parse_hole_args a)]).
Proof.
  cbv zeta. intros Hs Hfail.
  destruct (process_hole_outcome a c hole_name line_no smt2_src w)
    as (dbg & _ & _ & H). cbv zeta in H. rewrite Hs in H. cbn [orb] in H.
  assert (Hc : (p_returncode (tool (length (w_runs w))
                  (slice_cmd hole_name (c_alethe_path c) (c_smt2_for_slice c)
                     (a_parse_hole_args a) (a_no_print_with_sharing a))) =? 0)
               && negb (bool_decide (p_stdout (tool (length (w_runs w))
                  (slice_cmd hole_name (c_alethe_path c) (c_smt2_for_slice c)
                     (a_parse_hole_args a) (a_no_print_with_sharing a))) = [])) = false).
  { destruct Hfail as [Hf|Hf].
    - by replace (p_returncode _ =? 0) with false by lia.
    - rewrite Hf. apply andb_false_r. }
  rewrite Hc in H. destruct H as [(_ & Hart & _)|(? & _)]; [|done].
  split; [done|].
  set (w1 := (process_hole tool relpath a c (hole_name, line_no) smt2_src w).1) in *.
  assert (Hs1 : isfile (w_files w1) (slice_path_of c hole_name) = true)
    by (unfold isfile; by rewrite Hart).
  destruct (process_hole_outcome a c hole_name line_no smt2_src' w1)
    as (dbg' & _ & _ & H). cbv zeta in H. rewrite Hs1 in H. cbn [orb] in H.
  destruct H as [(? & _)|(_ & _ & _ & [(_ & _ & Hr & _)|(_ & dest & r & Hr & _)])];
    [done| |].
  - left. by rewrite Hr, app_nil_r.
  - right. by exists dest.
Qed.

(** X13: running a job again does nothing but replay it: once a job got past the
    slice stage, a second run of it on the state the first one left starts no
    process and appends nothing, and prints the cached line.  (The companion
    file is assumed not to be the artifact or the log.) *)
Theorem rerun_is_cached a c hole_name line_no smt2_src smt2_src' w :
  let slice := slice_path_of c hole_name in
  let log := out_log_path_of c hole_name in
  let cmd := slice_cmd hole_name (c_alethe_path c) (c_smt2_for_slice c)
               (a_parse_hole_args a) (a_no_print_with_sharing a) in
  let proc := tool (length (w_runs w)) cmd in
  let w1 := (process_hole tool relpath a c (hole_name, line_no) smt2_src w).1 in
  let out := process_hole tool relpath a c (hole_name, line_no) smt2_src' w1 in
  isfile (w_files w) slice = true \/ (p_returncode proc = 0 /\ p_stdout proc <> []) ->
  c_smt2_for_slice c <> slice -> c_smt2_for_slice c <> log ->
  smt2_src <> Some slice ->
  smt2_src' <> Some slice -> smt2_src' <> Some log ->
  (exists src, out.2 = Ret src) /\
  w_runs out.1 = w_runs w1 /\
  w_appends out.1 = w_appends w1 /\
  (exists dbg, w_stdout out.1 = w_stdout w1 ++ dbg ++ [cached_line relpath c hole_name] /\
               forallb is_debug dbg = true).
Proof.
  cbv zeta. intros Hpast Hc1 Hc2 Hsrc Hsrc1 Hsrc2.
  destruct (process_hole_outcome a c hole_name line_no smt2_src w)
    as (dbg & _ & _ & H). cbv zeta in H.
  assert (Hsl : isfile (w_files w) (slice_path_of c hole_name)
                || ((p_returncode (tool (length (w_runs w))
                       (slice_cmd hole_name (c_alethe_path c) (c_smt2_for_slice c)
                          (a_parse_hole_args a) (a_no_print_with_sharing a))) =? 0)
                    && negb (bool_decide (p_stdout (tool (length (w_runs w))
                       (slice_cmd hole_name (c_alethe_path c) (c_smt2_for_slice c)
                          (a_parse_hole_args a) (a_no_print_with_sharing a))) = []))) = true).
  { destruct Hpast as [->|[Hrc Hout]]; [done|]. rewrite Hrc.
    rewrite bool_decide_eq_false_2 by done. apply orb_true_r. }
  rewrite Hsl in H. destruct H as [(? & _)|(_ & Hlog & Hart & _)]; [done|].
  specialize (Hart Hsrc Hc1).
  set (w1 := (process_hole tool relpath a c (hole_name, line_no) smt2_src w).1) in *.
  destruct (process_hole_outcome a c hole_name line_no smt2_src' w1)
    as (dbg' & Hd' & _ & H). cbv zeta in H. rewrite Hart in H. cbn [orb] in H.
  destruct H as [(? & _)|(_ & _ & _ & [(_ & Ho & Hr & Ha & Hret)|([?|[?|?]] & _)])];
    try done; try congruence.
  rewrite app_nil_r in Hr. split_and!; try done. by exists dbg'.
Qed.

End Jobs.

Lemma slice_error_ends_job_witness :
  let slice := slice_path_of cert_ctx_example (lit "t1") in
  let cmd := slice_cmd (lit "t1") (c_alethe_path cert_ctx_example)
               (c_smt2_for_slice cert_ctx_example) true true in
  let out := process_hole failing_tool (fun _ _ => None) args_example cert_ctx_example
               (lit "t1", 7) None world_log_only in
  out.2 = Ret None /\
  w_runs out.1 = w_runs world_log_only ++ [cmd] /\
  w_appends out.1 = w_appends world_log_only /\
  w_stdout out.1 = w_stdout world_log_only ++ [] ++
    [JsonLine [(lit "status", SStr (lit "slice_error"));
               (lit "alethe", SStr (lit "/b/root/a.smt2.alethe"));
               (lit "hole", SStr (lit "t1"));
               (lit "line", SInt 7);
               (lit "stderr", SStr (slice ++ lit ".stderr"))]] /\
  (forall p, p <> slice -> p <> slice ++ lit ".stderr" ->
             w_files out.1 !! p = w_files world_log_only !! p) /\
  w_files out.1 !! slice = Some [].
Proof.
  apply (slice_error_ends_job failing_tool (fun _ _ => None) args_example
           cert_ctx_example (lit "t1") 7 None world_log_only).
  - vm_compute. reflexivity.
  - left. vm_compute. discriminate.
Defined.

Lemma fresh_job_recorded_witness :
  let slice := slice_path_of cert_ctx_example (lit "t1") in
  let log := out_log_path_of cert_ctx_example (lit "t1") in
  let ledger := ledger_path_of args_example cert_ctx_example in
  let cmd := slice_cmd (lit "t1") (c_alethe_path cert_ctx_example)
               (c_smt2_for_slice cert_ctx_example) true true in
  let out := process_hole working_tool (fun _ _ => None) args_example cert_ctx_example
               (lit "t1", 7) None world_fresh in
  exists dest r elapsed src',
    let ecmd := elaborate_cmd slice dest (lit "big.rare") true true true true in
    let record := result_record (fun _ _ => None) cert_ctx_example (lit "t1") 7 dest r
                    elapsed in
    let appended := append_json_array (w_files world_fresh !! ledger) record in
    w_runs out.1 = w_runs world_fresh ++ [cmd; ecmd] /\
    human_elapsed (p_elapsed_ns (working_tool (S (length (w_runs world_fresh))) ecmd))
      = Ret elapsed /\
    w_appends out.1 = w_appends world_fresh ++ [record] /\
    (exists dbg, w_stdout out.1 = w_stdout world_fresh ++ dbg ++ [JsonLine record] /\
                 forallb is_debug dbg = true) /\
    isfile (w_files out.1) log = true /\
    w_files out.1 !! ledger = appended.1 /\
    out.2 = match appended.2 with Ret _ => Ret src' | Raise x => Raise x end /\
    (w_files world_fresh !! ledger = None ->
     forall b, utf8_encode (dumps_list1 record) = Some b ->
       w_files out.1 !! ledger = Some (b ++ [10]) /\ out.2 = Ret src').
Proof.
  apply (fresh_job_recorded working_tool (fun _ _ => None) args_example
           cert_ctx_example (lit "t1") 7 None world_fresh).
  - vm_compute. reflexivity.
  - vm_compute. reflexivity.
  - reflexivity.
  - vm_compute. discriminate.
  - intros n cmd'. apply Z.ltb_lt. vm_compute. reflexivity.
  - vm_compute. discriminate.
  - vm_compute. discriminate.
  - vm_compute. discriminate.
  - vm_compute. discriminate.
  - vm_compute. discriminate.
  - discriminate.
Defined.

Lemma failed_slice_not_retried_witness :
  let slice := slice_path_of cert_ctx_example (lit "t1") in
  let w1 := (process_hole failing_tool (fun _ _ => None) args_example cert_ctx_example
               (lit "t1", 7) None world_fresh).1 in
  let out := process_hole failing_tool (fun _ _ => None) args_example cert_ctx_example
               (lit "t1", 7) None w1 in
  w_files w1 !! slice = Some [] /\
  (w_runs out.1 = w_runs w1 \/
   exists dest,
     w_runs out.1 = w_runs w1 ++
       [elaborate_cmd slice dest (lit "big.rare") true true true true]).
Proof.
  apply (failed_slice_not_retried failing_tool (fun _ _ => None) args_example
           cert_ctx_example (lit "t1") 7 None None world_fresh).
  - vm_compute. reflexivity.
  - left. vm_compute. discriminate.
Defined.

Lemma rerun_is_cached_witness :
  let w1 := (process_hole working_tool (fun _ _ => None) args_example cert_ctx_example
               (lit "t1", 7) None world_fresh).1 in
  let out := process_hole working_tool (fun _ _ => None) args_example cert_ctx_example
               (lit "t1", 7) None w1 in
  (exists src, out.2 = Ret src) /\
  w_runs out.1 = w_runs w1 /\
  w_appends out.1 = w_appends w1 /\
  (exists dbg, w_stdout out.1
               = w_stdout w1 ++ dbg ++ [cached_line (fun _ _ => None) cert_ctx_example (lit "t1")] /\
               forallb is_debug dbg = true).
Proof.
  apply (rerun_is_cached working_tool (fun _ _ => None) args_example
           cert_ctx_example (lit "t1") 7 None None world_fresh).
  - right. split; [reflexivity|]. vm_compute. discriminate.
  - vm_compute. discriminate.
  - vm_compute. discriminate.
  - discriminate.
  - discriminate.
  - discriminate.
Defined.

(* ===================================================================== *)
(** * Appends to an ASCII ledger *)
(* ===================================================================== *)

(** ** One append to an ASCII ledger of any size *)

Lemma is_ascii_take n s : is_ascii s = true -> is_ascii (take n s) = true.
Proof.
  rewrite !is_ascii_spec. apply Forall_take.
Qed.

Lemma scan_back_inv fuel old pos chunk :
  is_ascii old = true -> chunk_inv old pos chunk ->
  chunk_inv old (scan_back fuel old pos chunk).1 (scan_back fuel old pos chunk).2.
Proof.
  intros Hascii. revert pos chunk.
  induction fuel as [|f IH]; intros pos chunk Hinv; cbn [scan_back]; [done|].
  destruct (str_in BRACKET chunk) eqn:Hin; cbn [negb andb]; [done|].
  destruct (0 <? pos) eqn:Hpos; [|done]. apply Z.ltb_lt in Hpos.
  apply IH. destruct Hinv as (_ & A & B & B' & -> & Hd & HB & HB').
  apply str_in_single_false in Hin.
  set (pos' := Z.max 0 (pos - 1024)).
  replace (Z.to_nat (Z.min 1024 (pos' + 1024))) with 1024%nat by lia.
  rewrite decode_ignore_ascii by (by apply is_ascii_take, is_ascii_drop).
  set (d := Z.to_nat (pos - pos')).
  assert (Hdrop : drop d (drop (Z.to_nat pos') old) = drop (Z.to_nat pos) old).
  { rewrite drop_drop. f_equal. lia. }
  assert (Hnone : ch "]" ∉ drop (Z.to_nat pos) old).
  { rewrite Hd. intros [H|H]%elem_of_app; [|done]. apply Hin, elem_of_app. by left. }
  split; [lia|].
  exists (take d (drop (Z.to_nat pos') old)),
         (take (1024 - d) (drop (Z.to_nat pos) old) ++ A ++ B),
         (drop (Z.to_nat pos) old).
  split_and!.
  - assert (Hblock : take 1024 (drop (Z.to_nat pos') old)
                     = take d (drop (Z.to_nat pos') old)
                       ++ take (1024 - d) (drop (Z.to_nat pos) old)).
    { rewrite <- Hdrop, take_take_drop. f_equal. lia. }
    by rewrite Hblock, <- app_assoc.
  - by rewrite <- Hdrop, take_drop.
  - intros [H|H]%elem_of_app; [|done]. apply Hnone.
    rewrite <- (take_drop (1024 - d) (drop (Z.to_nat pos) old)). apply elem_of_app. by left.
  - done.
Qed.

(** X14: on an ASCII ledger that holds a "]", whatever its size and whatever
    follows the last "]", an ASCII record is written over the last "]":
    every byte before it stays, the new text is ",", the record and the
    closing bracket, and bytes of the old file beyond the new text stay
    too. *)
Theorem append_ascii_frame (old : list Z) (e : list (list Z * scalar)) :
  is_ascii old = true -> ascii_entry e = true ->
  0 <= last_bracket_offset old ->
  let k := Z.to_nat (last_bracket_offset old) in
  let tail := lit ",
" ++ dumps_entry e ++ lit "
]" in
  old !! k = Some (ch "]") /\
  append_json_array (Some old) e
  = (Some (take k old ++ tail ++ drop (k + length tail) old), Ret tt).
Proof.
  intros Hascii He Hk. cbv zeta. unfold last_bracket_offset in *.
  assert (Hin : ch "]" ∈ old).
  { destruct (decide (ch "]" ∈ old)) as [|Hn]; [done|].
    change BRACKET with [ch "]"] in Hk. rewrite str_rfind_absent in Hk by done. lia. }
  assert (Hne : old <> []) by (intros ->; by apply elem_of_nil in Hin).
  unfold append_json_array.
  replace (Z.of_nat (length old) =? 0) with false
    by (destruct old; [done|]; symmetry; apply Z.eqb_neq; cbn [length]; lia).
  set (pos0 := Z.max 0 (Z.of_nat (length old) - 1024)).
  rewrite decode_ignore_ascii by (by apply is_ascii_drop).
  pose proof (scan_back_inv (length old) old pos0 (drop (Z.to_nat pos0) old) Hascii) as Hinv.
  pose proof (scan_back_exit (length old) old pos0 (drop (Z.to_nat pos0) old)
                ltac:(lia)) as Hexit. cbv zeta in Hexit.
  destruct (scan_back _ _ _ _) as [pos chunk]. cbn [fst snd] in *.
  destruct Hinv as (Hpos & A & B & B' & -> & Hd & HB & HB').
  { split; [lia|]. exists (drop (Z.to_nat pos0) old), [], [].
    rewrite !app_nil_r. split_and!; try done; by intros ?%elem_of_nil. }
  assert (HA : ch "]" ∈ A).
  { destruct Hexit as [H|H].
    - apply str_in_single in H. by apply elem_of_app in H as [H|H].
    - replace pos with 0 in Hd by lia. change (drop (Z.to_nat 0) old) with old in Hd.
      rewrite Hd in Hin.
      by apply elem_of_app in Hin as [H'|H']. }
  apply list_elem_of_split in HA as (l & t & ->).
  assert (Hlast : exists l' t', l ++ ch "]" :: t = l' ++ ch "]" :: t' /\ ch "]" ∉ t').
  { destruct (str_rfind_found (ch "]") (l ++ ch "]" :: t)) as (l' & t' & E & Ht & _).
    - apply elem_of_app. right. by left.
    - by exists l', t'. }
  clear Hexit. destruct Hlast as (l' & t' & E & Ht'). rewrite E in *. clear l t E.
  assert (Hold : old = (take (Z.to_nat pos) old ++ l') ++ ch "]" :: (t' ++ B')).
  { rewrite <- (take_drop (Z.to_nat pos) old) at 1. rewrite Hd, <- !app_assoc. done. }
  assert (Hlen : (Z.to_nat pos <= length old)%nat).
  { destruct (decide (Z.to_nat pos <= length old)%nat) as [|Hgt]; [done|].
    rewrite drop_ge in Hd by lia. by destruct l'. }
  assert (Hk' : str_rfind BRACKET old = pos + Z.of_nat (length l')).
  { rewrite Hold at 1. change BRACKET with [ch "]"]. rewrite str_rfind_last.
    - rewrite length_app, length_take. lia.
    - intros [H|H]%elem_of_app; done. }
  assert (Hc : str_rfind BRACKET ((l' ++ ch "]" :: t') ++ B) = Z.of_nat (length l')).
  { rewrite <- app_assoc. cbn [app]. change BRACKET with [ch "]"]. rewrite str_rfind_last; [done|].
    intros [H|H]%elem_of_app; done. }
  rewrite Hc, Hk'.
  replace (Z.of_nat (length l') =? -1) with false by lia.
  rewrite utf8_encode_ascii; cycle 1.
  { by rewrite !is_ascii_app, is_ascii_dumps_entry. }
  unfold write_at. replace (Z.to_nat (pos + Z.of_nat (length l')))
    with (length (take (Z.to_nat pos) old ++ l')) by (rewrite length_app, length_take; lia).
  split; [|done].
  pose proof (list_lookup_middle (take (Z.to_nat pos) old ++ l') (t' ++ B') (ch "]") _ eq_refl)
    as Hlk.
  by rewrite <- Hold in Hlk.
Qed.

(** X15: the first record of a ledger: on a file that is there but empty the
    append writes what it writes when there is no file, the text of the
    one-element array and a newline.  When the record cannot be encoded both
    raise UnicodeEncodeError; the empty file stays empty, and the new file
    holds what was written before the failure. *)
Theorem append_to_empty_file (e : list (list Z * scalar)) :
  match utf8_encode (dumps_list1 e) with
  | Some b =>
      append_json_array (Some []) e = (Some (b ++ [10]), Ret tt) /\
      append_json_array None e = (Some (b ++ [10]), Ret tt)
  | None =>
      append_json_array (Some []) e = (Some [], Raise UnicodeEncodeError) /\
      exists partial, append_json_array None e = (Some partial, Raise UnicodeEncodeError)
  end.
Proof.
  unfold append_json_array. cbn [length Z.of_nat Z.eqb].
  pose proof (write_chunks_encode (list1_chunks e ++ [[10]]) []) as H.
  rewrite concat_app, utf8_encode_app in H. fold (dumps_list1 e) in H.
  change (utf8_encode (concat [[10]])) with (Some [10]) in H.
  destruct (utf8_encode (dumps_list1 e)) as [b|].
  - by rewrite H.
  - destruct H as [partial ->]. split; [done|]. by exists partial.
Qed.

Lemma append_ascii_frame_witness :
  let k := 2507%nat in
  let tail := lit ",
" ++ dumps_entry entry_plain ++ lit "
]" in
  ledger_padded !! k = Some (ch "]") /\
  append_json_array (Some ledger_padded) entry_plain
  = (Some (take k ledger_padded ++ tail ++ drop (k + length tail) ledger_padded), Ret tt).
Proof.
  apply (append_ascii_frame ledger_padded entry_plain).
  - vm_compute. reflexivity.
  - vm_compute. reflexivity.
  - vm_compute. discriminate.
Defined.

(* ===================================================================== *)
(** * Elapsed times read back *)
(* ===================================================================== *)

(** ** Reading elapsed times: whitespace, signs, exactness *)

Lemma lstrip_spaces a s : forallb is_space a = true -> lstrip (a ++ s) = lstrip s.
Proof.
  induction a as [|c a IH]; [done|]. cbn [forallb app lstrip].
  intros [-> H]%andb_true_iff. by apply IH.
Qed.

Lemma lstrip_all_spaces a : forallb is_space a = true -> lstrip a = [].
Proof. intros H. rewrite <- (app_nil_r a). by rewrite lstrip_spaces. Qed.

Lemma lstrip_app s b :
  lstrip (s ++ b) = if forallb is_space s then lstrip b else lstrip s ++ b.
Proof.
  induction s as [|c s IH]; [done|]. cbn [forallb app lstrip].
  destruct (is_space c); [by rewrite IH|done].
Qed.

Lemma strip_spaces a s b :
  forallb is_space a = true -> forallb is_space b = true ->
  strip (a ++ s ++ b) = strip s.
Proof.
  intros Ha Hb. unfold strip. rewrite lstrip_spaces by done. rewrite lstrip_app.
  destruct (forallb is_space s) eqn:Hs.
  - by rewrite (lstrip_all_spaces b Hb), (lstrip_all_spaces s Hs).
  - rewrite rev_app_distr, lstrip_spaces; [done|].
    rewrite forallb_forall in *. intros x Hx. apply Hb. by apply in_rev.
Qed.

(** X16: whitespace around the value does not change what is read. *)
Theorem parse_elapsed_ignores_spaces
    (lower : list Z -> list Z) (decimal : Z -> option Z) (ieq : Z -> Z -> bool)
    (a s b : list Z) :
  forallb is_space a = true -> forallb is_space b = true ->
  parse_elapsed_to_seconds lower decimal ieq (EStr (a ++ s ++ b))
  = parse_elapsed_to_seconds lower decimal ieq (EStr s).
Proof.
  intros Ha Hb. unfold parse_elapsed_to_seconds. by rewrite strip_spaces.
Qed.

Lemma parse_elapsed_ignores_spaces_witness :
  parse_elapsed_to_seconds ascii_lower ascii_decimal ascii_ignorecase_eq
    (EStr (lit "  " ++ lit "1.50s" ++ lit "
"))
  = parse_elapsed_to_seconds ascii_lower ascii_decimal ascii_ignorecase_eq
      (EStr (lit "1.50s")).
Proof.
  apply (parse_elapsed_ignores_spaces ascii_lower ascii_decimal ascii_ignorecase_eq
           (lit "  ") (lit "1.50s") (lit "
")); reflexivity.
Defined.

(** X17: a negative duration is formatted, with its sign, but the string is not
    one the parser accepts: it is read as NaN. *)
Theorem negative_elapsed_not_parsed
    (lower : list Z -> list Z) (decimal : Z -> option Z) (ieq : Z -> Z -> bool) (ns : Z) :
  ascii_tables lower decimal ieq -> ns < 0 ->
  human_elapsed ns = Ret (ch "-" :: str_of_nat (- ns) ++ lit "ns") /\
  parse_elapsed_to_seconds lower decimal ieq
    (EStr (ch "-" :: str_of_nat (- ns) ++ lit "ns")) = FNan.
Proof.
  intros tables Hns. split.
  - unfold human_elapsed, str_of_int. replace (ns <? 1000000) with true by lia.
    by replace (ns <? 0) with true by lia.
  - set (s := ch "-" :: str_of_nat (- ns) ++ lit "ns").
    assert (Hs : forallb elapsed_char s = true).
    { subst s. cbn [forallb]. rewrite forallb_app, (digits_elapsed _ (str_of_nat_digits _)).
      reflexivity. }
    unfold parse_elapsed_to_seconds. rewrite (strip_elapsed s Hs).
    destruct tables as (Hl & Hd & _). rewrite (Hl s Hs).
    unfold elapsed_match. rewrite (lstrip_elapsed s Hs). subst s. cbn [span].
    unfold uni_digit. rewrite (Hd (ch "-")) by reflexivity. done.
Qed.

Lemma negative_elapsed_not_parsed_witness :
  human_elapsed (-5) = Ret (ch "-" :: str_of_nat (- -5) ++ lit "ns") /\
  parse_elapsed_to_seconds ascii_lower ascii_decimal ascii_ignorecase_eq
    (EStr (ch "-" :: str_of_nat (- -5) ++ lit "ns")) = FNan.
Proof.
  apply (negative_elapsed_not_parsed ascii_lower ascii_decimal ascii_ignorecase_eq (-5)).
  - exact ascii_tables_ascii.
  - lia.
Defined.

(** Scaling both terms of a ratio by a power of two does not change the
    float it rounds to. *)
Lemma round_half_even_scale n d c :
  0 < d -> 0 < c -> round_half_even (n * c) (d * c) = round_half_even n d.
Proof.
  intros Hd Hc. unfold round_half_even.
  rewrite Z.div_mul_cancel_r, Z.mul_mod_distr_r by lia.
  replace (2 * (n mod d * c) <? d * c) with (2 * (n mod d) <? d) by nia.
  replace (d * c <? 2 * (n mod d * c)) with (d <? 2 * (n mod d)) by nia.
  done.
Qed.

Lemma scale_scale n d e c :
  scale (n * c) (d * c) e = ((scale n d e).1 * c, (scale n d e).2 * c).
Proof. unfold scale. destruct (0 <=? e); cbn [fst snd]; f_equal; lia. Qed.

Lemma to_double_scale2 n d j :
  0 < n -> 0 < d -> 0 <= j -> to_double (n * 2 ^ j) (d * 2 ^ j) = to_double n d.
Proof.
  intros Hn Hd Hj. unfold to_double.
  assert (Hc : 0 < 2 ^ j) by (by apply Z.pow_pos_nonneg).
  replace (n * 2 ^ j =? 0) with false by nia. replace (n =? 0) with false by lia.
  rewrite !Z.log2_mul_pow2 by lia.
  replace (j + Z.log2 n - (j + Z.log2 d)) with (Z.log2 n - Z.log2 d) by lia.
  set (e1 := Z.max _ _). rewrite !scale_scale.
  assert (Hpos : forall e, 0 < (scale n d e).2).
  { intros e. unfold scale. destruct (0 <=? e) eqn:E; cbn [snd]; [|done].
    apply Z.mul_pos_pos; [done|]. apply Z.pow_pos_nonneg; lia. }
  destruct (scale n d e1) as [na da] eqn:E1. cbn [fst snd].
  pose proof (Hpos e1) as Hda. rewrite E1 in Hda. cbn [snd] in Hda.
  rewrite Z.div_mul_cancel_r by lia.
  set (e := if _ && _ then e1 - 1 else e1).
  pose proof (Hpos e) as Hdb.
  destruct (scale n d e) as [nb db] eqn:E2. cbn [fst snd] in *.
  by rewrite round_half_even_scale.
Qed.

(** An integer below 2^53 is a float. *)
Lemma to_double_int n :
  0 < n < 2 ^ 53 ->
  to_double n 1 = FFin (n * 2 ^ (52 - Z.log2 n)) (Z.log2 n - 52).
Proof.
  intros Hn. unfold to_double. replace (n =? 0) with false by lia.
  change (Z.log2 1) with 0. rewrite Z.sub_0_r.
  pose proof (Z.log2_spec n ltac:(lia)) as [Hlo Hhi].
  pose proof (Z.log2_nonneg n) as Hk0.
  assert (Hk : Z.log2 n <= 52).
  { assert (Hlt : 2 ^ Z.log2 n < 2 ^ 53) by lia.
    apply Z.pow_lt_mono_r_iff in Hlt; lia. }
  set (k := Z.log2 n) in *.
  replace (Z.max (k - 52) (-1074)) with (k - 52) by lia.
  assert (Hp : 0 < 2 ^ (52 - k)) by (apply Z.pow_pos_nonneg; lia).
  assert (H52 : 2 ^ 52 <= n * 2 ^ (52 - k)).
  { replace (2 ^ 52) with (2 ^ k * 2 ^ (52 - k)).
    - nia.
    - rewrite <- Z.pow_add_r by lia. f_equal. lia. }
  assert (H53 : n * 2 ^ (52 - k) < 2 ^ 53).
  { replace (2 ^ 53) with (2 ^ Z.succ k * 2 ^ (52 - k)).
    - nia.
    - rewrite <- Z.pow_add_r by lia. f_equal. lia. }
  assert (Hs : let p := scale n 1 (k - 52) in p.1 / p.2 = n * 2 ^ (52 - k) /\
                 round_half_even p.1 p.2 = n * 2 ^ (52 - k)).
  { unfold scale. destruct (0 <=? k - 52) eqn:E; cbn [fst snd].
    - apply Z.leb_le in E. replace (k - 52) with 0 by lia. replace (52 - k) with 0 by lia.
      change (1 * 2 ^ 0) with 1. change (2 ^ 0) with 1. rewrite Z.mul_1_r, Z.div_1_r.
      unfold round_half_even. rewrite Z.div_1_r, Z.mod_1_r. done.
    - replace (- (k - 52)) with (52 - k) by lia. rewrite Z.div_1_r.
      unfold round_half_even. rewrite Z.div_1_r, Z.mod_1_r. done. }
  cbv zeta in Hs. destruct Hs as [Hq Hr].
  destruct (scale n 1 (k - 52)) as [na da] eqn:E. cbn [fst snd] in *. rewrite Hq.
  replace (n * 2 ^ (52 - k) <? 2 ^ 52) with false by lia. cbn [andb].
  rewrite E, Hr.
  replace (n * 2 ^ (52 - k) =? 2 ^ 53) with false by lia.
  by replace (971 <? k - 52) with false by lia.
Qed.

(** X18: below one millisecond nothing is lost: the string of [human_elapsed] is
    read back as the float nearest to [ns / 10^9] seconds. *)
Theorem sub_millisecond_read_back
    (lower : list Z -> list Z) (decimal : Z -> option Z) (ieq : Z -> Z -> bool) (ns : Z) :
  ascii_tables lower decimal ieq -> 0 <= ns < 1000000 ->
  exists s,
    human_elapsed ns = Ret s /\
    parse_elapsed_to_seconds lower decimal ieq (EStr s) = to_double ns 1000000000.
Proof.
  intros tables Hns. exists (str_of_nat ns ++ lit "ns"). split.
  - unfold human_elapsed, str_of_int. replace (ns <? 1000000) with true by lia.
    by replace (ns <? 0) with false by lia.
  - set (s := str_of_nat ns ++ lit "ns").
    assert (Hs : forallb elapsed_char s = true).
    { subst s. by rewrite forallb_app, (digits_elapsed _ (str_of_nat_digits ns)). }
    assert (Hu : is_unit (lit "ns")) by (by left).
    unfold parse_elapsed_to_seconds. rewrite (strip_elapsed s Hs).
    pose proof tables as (Hl & _ & _). rewrite (Hl s Hs). subst s.
    rewrite (elapsed_match_integer lower decimal ieq tables _ _
               (str_of_nat_digits ns) (str_of_nat_nonempty ns) Hu).
    rewrite decide_True by done. rewrite app_nil_r.
    rewrite (uni_digits_value_digits lower decimal ieq tables _ (str_of_nat_digits ns)).
    rewrite digits_value_str_of_nat by lia. change (10 ^ Z.of_nat (length [])) with 1.
    destruct (Z.eq_dec ns 0) as [->|Hne]; [vm_compute; reflexivity|].
    rewrite to_double_int by lia. unfold float_mul.
    pose proof (Z.log2_nonneg ns) as Hk0.
    assert (Hk : Z.log2 ns <= 52).
    { pose proof (Z.log2_spec ns ltac:(lia)) as [Hlo _].
      assert (Hlt : 2 ^ Z.log2 ns < 2 ^ 53) by lia.
      apply Z.pow_lt_mono_r_iff in Hlt; lia. }
    unfold scale. replace (0 <=? - (Z.log2 ns - 52)) with true by lia.
    replace (- (Z.log2 ns - 52)) with (52 - Z.log2 ns) by lia.
    rewrite Z.mul_1_r. apply to_double_scale2; lia.
Qed.

Lemma sub_millisecond_read_back_witness :
  exists s,
    human_elapsed 500000 = Ret s /\
    parse_elapsed_to_seconds ascii_lower ascii_decimal ascii_ignorecase_eq (EStr s)
    = to_double 500000 1000000000.
Proof.
  apply (sub_millisecond_read_back ascii_lower ascii_decimal ascii_ignorecase_eq 500000).
  - exact ascii_tables_ascii.
  - lia.
Defined.

(* ===================================================================== *)
(** * Certificates and their companion files *)
(* ===================================================================== *)

(** ** The companion file beside a certificate *)

Lemma ends_with_app suffix x : ends_with suffix (x ++ suffix) = true.
Proof.
  unfold ends_with. rewrite length_app.
  replace (length x + length suffix - length suffix)%nat with (length x) by lia.
  rewrite drop_app_length, bool_decide_eq_true_2 by done.
  rewrite andb_true_r. apply Nat.leb_le. lia.
Qed.

Lemma ends_with_inv suffix s :
  ends_with suffix s = true -> s = take (length s - length suffix) s ++ suffix.
Proof.
  unfold ends_with. intros [_ H%bool_decide_eq_true]%andb_true_iff.
  transitivity (take (length s - length suffix) s ++ drop (length s - length suffix) s);
    [by rewrite take_drop|by rewrite H].
Qed.

Lemma str_rfind_bounds c s : -1 <= str_rfind [c] s < Z.of_nat (length s).
Proof.
  destruct (decide (c ∈ s)) as [Hin|Hn].
  - destruct (str_rfind_found c s Hin) as (l & t & -> & _ & ->).
    rewrite length_app. cbn [length]. lia.
  - rewrite str_rfind_absent by done. lia.
Qed.

Lemma str_rfind_app_absent c x y :
  c ∉ y -> str_rfind [c] (x ++ y) = str_rfind [c] x.
Proof.
  intros Hy. destruct (decide (c ∈ x)) as [Hin|Hn].
  - destruct (str_rfind_found c x Hin) as (l & t & -> & Ht & ->).
    rewrite <- app_assoc. cbn [app]. apply str_rfind_last.
    intros [H|H]%elem_of_app; done.
  - rewrite !str_rfind_absent; [done|done|].
    intros [H|H]%elem_of_app; done.
Qed.

(** The extension of a path that ends in ".alethe". *)
Lemma splitext_alethe x :
  (splitext (x ++ lit ".alethe")).1 = x \/
  (splitext (x ++ lit ".alethe")).1 = x ++ lit ".alethe".
Proof.
  unfold splitext.
  assert (Hdot : str_rfind (lit ".") (x ++ lit ".alethe") = Z.of_nat (length x)).
  { change (lit ".alethe") with (ch "." :: lit "alethe"). change (lit ".") with [ch "."].
    apply str_rfind_last. apply (bool_decide_unpack _). vm_compute. reflexivity. }
  rewrite Hdot. destruct (_ <? _); [|by right].
  destruct (forallb _ _); [by right|left]. cbn [fst].
  by rewrite Nat2Z.id, take_app_length.
Qed.

Lemma find_smt2_beside_companion fs x :
  find_smt2_beside fs (x ++ lit ".smt2.alethe")
  = (if isfile fs (x ++ lit ".smt2") then Some (x ++ lit ".smt2") else None).
Proof.
  unfold find_smt2_beside.
  rewrite ends_with_app. rewrite length_app.
  change (length (lit ".smt2.alethe")) with 12%nat.
  replace (length x + 12 - 7)%nat with (length x + 5)%nat by lia.
  rewrite take_app_add. done.
Qed.

(** X19: [find_smt2_beside] returns an existing file only, which is the path of
    the certificate without ".alethe" (or, for a name made of dots and
    ".alethe", that path itself); for a name that ends in ".smt2.alethe" it
    returns the path without ".alethe" exactly when that is a file. *)
Theorem find_smt2_beside_spec (fs : gmap (list Z) (list Z)) (p x : list Z) :
  match find_smt2_beside fs p with
  | Some q => isfile fs q = true /\ (q ++ lit ".alethe" = p \/ q = p)
  | None => True
  end /\
  find_smt2_beside fs (x ++ lit ".smt2.alethe")
  = (if isfile fs (x ++ lit ".smt2") then Some (x ++ lit ".smt2") else None) /\
  find_smt2_beside fs (x ++ lit "/.alethe")
  = (if isfile fs (x ++ lit "/.alethe") then Some (x ++ lit "/.alethe") else None).
Proof.
  split_and!.
  - unfold find_smt2_beside.
    destruct (ends_with (lit ".smt2.alethe") p) eqn:E1.
    + destruct (isfile fs _) eqn:Hf; [|done]. split; [done|]. left.
      assert (Hp : exists y, p = y ++ lit ".smt2.alethe")
        by (eexists; by apply ends_with_inv).
      destruct Hp as [y ->]. rewrite length_app.
      change (length (lit ".smt2.alethe")) with 12%nat.
      replace (length y + 12 - 7)%nat with (length y + 5)%nat by lia.
      rewrite take_app_add. change (take 5 (lit ".smt2.alethe")) with (lit ".smt2").
      by rewrite <- app_assoc.
    + destruct (ends_with (lit ".alethe") p) eqn:E2; [|done].
      destruct (isfile fs _) eqn:Hf; [|done]. split; [done|].
      assert (Hp : exists y, p = y ++ lit ".alethe")
        by (eexists; by apply ends_with_inv).
      destruct Hp as [y ->].
      destruct (splitext_alethe y) as [->| ->]; [by left|by right].
  - apply find_smt2_beside_companion.
  - unfold find_smt2_beside.
    assert (E1 : ends_with (lit ".smt2.alethe") (x ++ lit "/.alethe") = false).
    { unfold ends_with. apply andb_false_iff. right. apply bool_decide_eq_false_2.
      intros H. apply (f_equal (fun l => l !! 4%nat)) in H. rewrite lookup_drop in H.
      change (lit ".smt2.alethe" !! 4%nat) with (Some (ch "2")) in H.
      destruct (decide (length (x ++ lit "/.alethe") < 12)%nat) as [Hlt|Hge].
      - rewrite length_app in Hlt. change (length (lit "/.alethe")) with 8%nat in Hlt.
        replace (length (x ++ lit "/.alethe") - length (lit ".smt2.alethe"))%nat
          with 0%nat in H
          by (rewrite length_app; change (length (lit "/.alethe")) with 8%nat;
              change (length (lit ".smt2.alethe")) with 12%nat; lia).
        destruct x as [|x0 [|x1 [|x2 [|x3 x']]]]; cbn in H; try done; cbn in Hlt; lia.
      - rewrite length_app in *. change (length (lit "/.alethe")) with 8%nat in *.
        change (length (lit ".smt2.alethe")) with 12%nat in *.
        rewrite lookup_app_r in H by lia.
        replace (length x + 8 - 12 + 4 - length x)%nat with 0%nat in H by lia. done. }
    rewrite E1. change (lit "/.alethe") with (lit "/" ++ lit ".alethe").
    rewrite app_assoc, ends_with_app, <- app_assoc.
    change (lit "/" ++ lit ".alethe") with (lit "/.alethe").
    assert (Hsplit : (splitext (x ++ lit "/.alethe")).1 = x ++ lit "/.alethe").
    { unfold splitext.
      assert (Hdot : str_rfind (lit ".") (x ++ lit "/.alethe") = Z.of_nat (length x) + 1).
      { change (x ++ lit "/.alethe") with (x ++ [ch "/"] ++ ch "." :: lit "alethe").
        rewrite app_assoc. change (lit ".") with [ch "."]. rewrite str_rfind_last.
        - rewrite length_app. cbn [length]. lia.
        - apply (bool_decide_unpack _). vm_compute. reflexivity. }
      assert (Hsep : str_rfind (lit "/") (x ++ lit "/.alethe") = Z.of_nat (length x)).
      { change (x ++ lit "/.alethe") with (x ++ ch "/" :: lit ".alethe").
        change (lit "/") with [ch "/"]. rewrite str_rfind_last; [done|].
        apply (bool_decide_unpack _). vm_compute. reflexivity. }
      rewrite Hdot, Hsep. replace (Z.of_nat (length x) <? Z.of_nat (length x) + 1) with true by lia.
      replace (Z.of_nat (length x) + 1 - (Z.of_nat (length x) + 1)) with 0 by lia.
      done. }
    by rewrite Hsplit.
Qed.

(** ** The loop over the holes of a certificate *)

Section Loop.

Variable tool : nat -> list (list Z) -> process.
Variable relpath : list Z -> list Z -> option (list Z).

Lemma process_hole_counts a c h smt2_src w :
  let out := process_hole tool relpath a c h smt2_src w in
  exists new cmds recs,
    w_stdout out.1 = w_stdout w ++ new /\
    w_runs out.1 = w_runs w ++ cmds /\
    w_appends out.1 = w_appends w ++ recs /\
    (length cmds <= 2)%nat /\ (length recs <= 1)%nat /\
    (length (status_lines new) <= 1)%nat /\
    ((exists s, out.2 = Ret s) -> length (status_lines new) = 1%nat) /\
    (a_debug a = false -> status_lines new = new).
Proof.
  cbv zeta. destruct h as [hole_name line_no].
  destruct (process_hole_outcome tool relpath a c hole_name line_no smt2_src w)
    as (dbg & Hd & Hn & H). cbv zeta in H.
  pose proof (status_lines_debug dbg Hd) as Hsd.
  set (pre := if isfile _ _ then [] else [_]) in H.
  assert (Hpre : (length pre <= 1)%nat) by (subst pre; destruct (isfile _ _); cbn; lia).
  destruct H as [(_ & _ & (err & Ho) & Hr & Ha & _)
                |(_ & _ & _ & [(_ & Ho & Hr & Ha & _)|(_ & dest & r & Hr & _ & H)])].
  - exists (dbg ++ [slice_error_line relpath c hole_name line_no err]),
      [slice_cmd hole_name (c_alethe_path c) (c_smt2_for_slice c)
         (a_parse_hole_args a) (a_no_print_with_sharing a)], [].
    rewrite (app_nil_r (w_appends w)), status_lines_app, Hsd.
    split_and!; try done; cbn [length]; try lia. by intros ->%Hn.
  - exists (dbg ++ [cached_line relpath c hole_name]), pre, [].
    rewrite (app_nil_r (w_appends w)), status_lines_app, Hsd.
    split_and!; try done; cbn [length]; try lia. by intros ->%Hn.
  - destruct H as [(elapsed & _ & Ho & Ha)|(x & _ & Hx & Ho & Ha)].
    + eexists (dbg ++ [JsonLine _]), (pre ++ [_]), [_].
      rewrite status_lines_app, Hsd, length_app.
      split_and!; [exact Ho|exact Hr|exact Ha|..]; cbn [length]; try lia; try done.
      by intros ->%Hn.
    + eexists dbg, (pre ++ [_]), [].
      rewrite (app_nil_r (w_appends w)), Hsd, length_app.
      split_and!; [exact Ho|exact Hr|exact Ha|..]; cbn [length]; try lia; try done.
      * intros [s Hs]. congruence.
      * by intros ->%Hn.
Qed.

(** X20: the loop over the holes prints one status line per hole when it runs to
    its end, and never more; it starts the tool at most twice per hole and
    appends at most one record per hole; with debug off it prints status
    lines only. *)
Theorem one_status_line_per_hole a c holes smt2_src w :
  let out := process_holes tool relpath a c holes smt2_src w in
  exists new cmds recs,
    w_stdout out.1 = w_stdout w ++ new /\
    w_runs out.1 = w_runs w ++ cmds /\
    w_appends out.1 = w_appends w ++ recs /\
    (length cmds <= 2 * length holes)%nat /\ (length recs <= length holes)%nat /\
    (length (status_lines new) <= length holes)%nat /\
    (out.2 = Ret tt -> length (status_lines new) = length holes) /\
    (a_debug a = false -> status_lines new = new).
Proof.
  cbv zeta. revert smt2_src w.
  induction holes as [|h t IH]; intros smt2_src w; cbn [process_holes].
  - exists [], [], []. rewrite !app_nil_r. by split_and!.
  - pose proof (process_hole_counts a c h smt2_src w) as H. cbv zeta in H.
    destruct H as (n1 & c1 & r1 & Ho1 & Hr1 & Ha1 & Hc1 & Hl1 & Hs1 & Hret1 & Hd1).
    destruct (process_hole tool relpath a c h smt2_src w) as [w' [src'|x]].
    + cbn [fst snd] in *.
      destruct (IH src' w') as (n2 & c2 & r2 & Ho2 & Hr2 & Ha2 & Hc2 & Hl2 & Hs2 & Hret2 & Hd2).
      exists (n1 ++ n2), (c1 ++ c2), (r1 ++ r2).
      rewrite Ho2, Hr2, Ha2, Ho1, Hr1, Ha1, <- !app_assoc, status_lines_app, !length_app.
      cbn [length]. split_and!; try done; try lia.
      * intros Hret. rewrite (Hret2 Hret), Hret1 by (by eexists). lia.
      * intros Hdbg. by rewrite (Hd1 Hdbg), (Hd2 Hdbg).
    + cbn [fst snd] in *. exists n1, c1, r1. cbn [length]. split_and!; try done; lia.
Qed.

(** X21: in a tree that holds no file whose name ends in ".smt2", the body of
    the loop over file names, once the output directory of a certificate is
    made, prints the status line not_found for it and goes on to the next
    name: it starts no process, appends no record, writes and removes no
    regular file, and does not read the certificate; other file names are
    passed over. *)
Theorem no_companion_no_job (a : args)
    (root_abs root_name out_root_parent sliced_root dirpath rel_dir fname : list Z)
    (w : world) :
  (forall p, isfile (w_files w) p = true -> ends_with (lit ".smt2") p = false) ->
  let out := process_file tool relpath a root_abs root_name out_root_parent sliced_root
               dirpath rel_dir fname w in
  out.2 = Ret tt /\
  w_runs out.1 = w_runs w /\ w_appends out.1 = w_appends w /\
  w_files out.1 = w_files w /\
  w_stdout out.1 = w_stdout w ++
    (if ends_with (lit ".smt2.alethe") fname
     then [not_found_line relpath root_abs (path_join dirpath fname)] else []).
Proof.
  intros Hno. cbv zeta. unfold process_file.
  destruct (ends_with (lit ".smt2.alethe") fname) eqn:E; cbn [negb]; cycle 1.
  { cbn [fst snd]. by rewrite app_nil_r. }
  assert (Hnf : forall p, isfile (w_files w) (p ++ lit ".smt2") = false).
  { intros p. destruct (isfile (w_files w) (p ++ lit ".smt2")) eqn:Hf; [|done].
    apply Hno in Hf. by rewrite ends_with_app in Hf. }
  assert (Hjoin : forall d x, isfile (w_files w) (path_join d (x ++ lit ".smt2")) = false).
  { intros d x. destruct (path_join_suffix d (x ++ lit ".smt2")) as [pre ->].
    rewrite app_assoc. apply Hnf. }
  assert (Hsrc : find_smt2_beside (w_files w) (path_join dirpath fname) = None).
  { apply ends_with_inv in E. rewrite E.
    destruct (path_join_suffix dirpath
                (take (length fname - length (lit ".smt2.alethe")) fname
                 ++ lit ".smt2.alethe")) as [pre ->].
    rewrite app_assoc.
    pose proof (find_smt2_beside_companion (w_files w)
                  (pre ++ take (length fname - length (lit ".smt2.alethe")) fname)) as ->.
    by rewrite Hnf. }
  rewrite Hsrc. unfold find_existing_smt2_for_base. rewrite !Hjoin.
  cbn [truthy_path usable_file andb fst snd print w_runs w_appends w_files w_stdout].
  done.
Qed.

End Loop.

(** ** The companion file on its way to the output directory *)

Section Companion.

Variable tool : nat -> list (list Z) -> process.
Variable relpath : list Z -> list Z -> option (list Z).

(** The transfer when the output directory has no companion file yet and
    the file beside the certificate is there. *)
Lemma transfer_smt2_fresh a c s content w :
  isfile (w_files w) (smt2_target_of c) = false ->
  w_files w !! s = Some content -> s <> [] ->
  let out := transfer_smt2 relpath a c (Some s) w in
  out.1.2 = Some s /\ out.2 = smt2_target_of c /\
  w_files out.1.1 !! smt2_target_of c = Some content /\
  w_files out.1.1 !! s = (if a_no_move a then Some content else None) /\
  (forall p, p <> smt2_target_of c -> p <> s -> w_files out.1.1 !! p = w_files w !! p).
Proof.
  intros Ht Hs Hne. cbv zeta. unfold transfer_smt2, find_existing_smt2_for_base.
  fold (smt2_target_of c). rewrite Ht. cbv zeta.
  assert (Hu : usable_file (w_files w) (Some s) = true).
  { unfold usable_file, isfile. cbn [default from_option id]. rewrite Hs. by destruct s. }
  rewrite Hu. cbn [negb andb default from_option id]. rewrite Hu, Hs.
  cbn [default from_option id].
  assert (Hst : s <> smt2_target_of c).
  { intros ->. unfold isfile in Ht. by rewrite Hs in Ht. }
  destruct (a_no_move a), (a_debug a);
    cbn [fst snd set_files print w_files]; split_and!; try done.
  all: try first [ by rewrite lookup_insert_eq
          | by (rewrite lookup_insert_ne by done; rewrite ?lookup_delete_eq)
          | by (intros p H1 H2; rewrite lookup_insert_ne by done;
                rewrite ?lookup_delete_ne by done) ].
Qed.

(** X22: the companion file reaches the output directory with its content: it is
    moved there, or copied with --no-move, and no other file changes; when
    the output directory has one already nothing moves. *)
Theorem transfer_smt2_brings_companion a c s content w :
  w_files w !! s = Some content -> s <> [] ->
  let out := transfer_smt2 relpath a c (Some s) w in
  let target := smt2_target_of c in
  if isfile (w_files w) target
  then out = (w, Some s, target)
  else
    out.1.2 = Some s /\ out.2 = target /\
    w_files out.1.1 !! target = Some content /\
    w_files out.1.1 !! s = (if a_no_move a then Some content else None) /\
    (forall p, p <> target -> p <> s -> w_files out.1.1 !! p = w_files w !! p).
Proof.
  intros Hs Hne. cbv zeta. destruct (isfile (w_files w) (smt2_target_of c)) eqn:Ht.
  - unfold transfer_smt2, find_existing_smt2_for_base. fold (smt2_target_of c).
    by rewrite Ht.
  - by apply transfer_smt2_fresh.
Qed.

(** X23: after the first job of a certificate has moved the companion file into
    the output directory, the slice command of the next hole still names the
    place the file was moved from. *)
Theorem moved_companion_still_named a c hole_name line_no hole_name' line_no' smt2_src' w :
  let s := c_smt2_for_slice c in
  let slice := slice_path_of c hole_name in
  let cmd := slice_cmd hole_name (c_alethe_path c) s
               (a_parse_hole_args a) (a_no_print_with_sharing a) in
  let proc := tool (length (w_runs w)) cmd in
  let first := process_hole tool relpath a c (hole_name, line_no) (Some s) w in
  let w1 := first.1 in
  let second := process_hole tool relpath a c (hole_name', line_no') smt2_src' w1 in
  a_no_move a = false ->
  isfile (w_files w) s = true -> s <> [] ->
  isfile (w_files w) (smt2_target_of c) = false ->
  isfile (w_files w) slice = true \/ (p_returncode proc = 0 /\ p_stdout proc <> []) ->
  s <> slice -> s <> slice ++ lit ".stderr" -> s <> out_log_path_of c hole_name ->
  s <> ledger_path_of a c ->
  isfile (w_files w1) (slice_path_of c hole_name') = false ->
  isfile (w_files w1) s = false /\
  isfile (w_files w1) (smt2_target_of c) = true /\
  exists rest,
    w_runs second.1 = w_runs w1 ++
      slice_cmd hole_name' (c_alethe_path c) s
        (a_parse_hole_args a) (a_no_print_with_sharing a) :: rest.
Proof.
  cbv zeta. intros Hmove Hs Hne Ht Hpast H1 H2 H3 H4 Hs'.
  set (s := c_smt2_for_slice c) in *.
  set (slice := slice_path_of c hole_name) in *.
  set (log := out_log_path_of c hole_name) in *.
  assert (Hts : smt2_target_of c <> slice)
    by (eapply last_differ; [apply smt2_target_last|apply slice_path_last|done]).
  assert (Hte : smt2_target_of c <> slice ++ lit ".stderr")
    by (eapply last_differ; [apply smt2_target_last|apply stderr_path_last|done]).
  assert (Htl : smt2_target_of c <> log)
    by (eapply last_differ; [apply smt2_target_last|apply out_log_path_last|done]).
  (* the files after the first job *)
  assert (Hfiles : w_files (process_hole tool relpath a c (hole_name, line_no) (Some s) w).1 !! s
                   = None /\
                   isfile (w_files (process_hole tool relpath a c (hole_name, line_no)
                                      (Some s) w).1) (smt2_target_of c) = true).
  { unfold process_hole. fold slice log.
    assert (Hstage : exists w1 err,
      (if negb (isfile (w_files w) slice)
       then run_slice tool hole_name (c_alethe_path c) (c_smt2_for_slice c) slice
              (a_parse_hole_args a) (a_no_print_with_sharing a) (a_debug a) w
       else (w, (true, None))) = (w1, (true, err)) /\
      w_files w1 !! s = w_files w !! s /\
      w_files w1 !! smt2_target_of c = w_files w !! smt2_target_of c).
    { destruct (isfile (w_files w) slice) eqn:Hsl; cbn [negb]; [by exists w, None|].
      pose proof (run_slice_inv tool hole_name (c_alethe_path c) (c_smt2_for_slice c)
                    slice (a_parse_hole_args a) (a_no_print_with_sharing a)
                    (a_debug a) w) as H.
      cbv zeta in H. destruct H as (_ & _ & _ & Hf & _ & Hok & _).
      destruct (run_slice _ _ _ _ _ _ _ _ _) as [w1 [ok err]]. cbn [fst snd] in *.
      destruct Hpast as [?|[Hrc Hout]]; [done|]. fold s in Hok. rewrite Hrc in Hok.
      rewrite bool_decide_eq_false_2 in Hok by done. cbn in Hok. subst ok.
      exists w1, err. split; [done|]. split; by apply Hf. }
    destruct Hstage as (w1 & err & -> & Hfs & Hft). cbn [negb].
    assert (Hs1 : exists content, w_files w1 !! s = Some content).
    { unfold isfile in Hs. rewrite Hfs. destruct (w_files w !! s); [by eexists|done]. }
    destruct Hs1 as [content Hs1].
    assert (Ht1 : isfile (w_files w1) (smt2_target_of c) = false)
      by (unfold isfile in *; by rewrite Hft).
    pose proof (transfer_smt2_fresh a c s content w1 Ht1 Hs1 Hne) as H.
    cbv zeta in H. rewrite Hmove in H. destruct H as (_ & _ & Htg & Hgone & _).
    destruct (transfer_smt2 relpath a c (Some s) w1) as [[w2 src2] dest]. cbn [fst snd] in *.
    destruct (isfile (w_files w2) log).
    { cbn [fst print w_files]. split; [done|]. unfold isfile. by rewrite Htg. }
    pose proof (run_elaborate_inv tool slice dest log (a_rare_file a)
                  (a_allow_int_real_subtyping a) (a_pipeline_hole_local a)
                  (a_no_print_with_sharing a) (a_parse_hole_args a)
                  (a_elab_timeout_sec a) w2) as H.
    cbv zeta in H. destruct H as (_ & _ & _ & Hf3 & _).
    destruct (run_elaborate _ _ _ _ _ _ _ _ _ _ _) as [w3 r]. cbn [fst snd] in *.
    assert (Hs3 : w_files w3 !! s = None) by (rewrite Hf3; done).
    assert (Ht3 : w_files w3 !! smt2_target_of c = Some content) by (rewrite Hf3; done).
    destruct (human_elapsed (r_elapsed_ns r)) as [elapsed|x].
    - destruct (append_json_array _ _) as [[bs|] res];
        cbn [fst set_files record_append print w_files].
      + split; [by rewrite lookup_insert_ne|]. unfold isfile.
        destruct (decide (ledger_path_of a c = smt2_target_of c)) as [->|Hn].
        * by rewrite lookup_insert_eq.
        * by rewrite lookup_insert_ne, Ht3.
      + split; [done|]. unfold isfile. by rewrite Ht3.
    - cbn [fst]. split; [done|]. unfold isfile. by rewrite Ht3. }
  destruct Hfiles as [Hgone Htarget].
  split; [unfold isfile; by rewrite Hgone|]. split; [done|].
  set (w1 := (process_hole tool relpath a c (hole_name, line_no) (Some s) w).1) in *.
  destruct (process_hole_outcome tool relpath a c hole_name' line_no' smt2_src' w1)
    as (dbg & _ & _ & H). cbv zeta in H. fold s in H. rewrite Hs' in H.
  destruct H as [(_ & _ & _ & Hr & _)
                |(_ & _ & _ & [(_ & _ & Hr & _)|(_ & dest & r & Hr & _)])].
  - by exists [].
  - by exists [].
  - eexists. exact Hr.
Qed.

End Companion.

Lemma no_companion_no_job_witness :
  let out := process_file failing_tool (fun _ _ => None) args_example
               (lit "/b/root") (lit "root") (lit "/b") (lit "/b/sliced_proofs")
               (lit "/b/root") (lit ".") (lit "a.smt2.alethe") world_no_companion in
  out.2 = Ret tt /\
  w_runs out.1 = w_runs world_no_companion /\
  w_appends out.1 = w_appends world_no_companion /\
  w_files out.1 = w_files world_no_companion /\
  w_stdout out.1 = w_stdout world_no_companion ++
    (if ends_with (lit ".smt2.alethe") (lit "a.smt2.alethe")
     then [not_found_line (fun _ _ => None) (lit "/b/root")
             (path_join (lit "/b/root") (lit "a.smt2.alethe"))]
     else []).
Proof.
  apply (no_companion_no_job failing_tool (fun _ _ => None) args_example
           (lit "/b/root") (lit "root") (lit "/b") (lit "/b/sliced_proofs")
           (lit "/b/root") (lit ".") (lit "a.smt2.alethe") world_no_companion).
  intros p Hp. unfold isfile, world_no_companion in Hp. cbn [w_files] in Hp.
  destruct (decide (p = lit "/b/root/a.smt2.alethe")) as [->|Hne].
  - vm_compute. reflexivity.
  - by rewrite lookup_singleton_ne in Hp.
Defined.

Lemma transfer_smt2_brings_companion_witness :
  let out := transfer_smt2 (fun _ _ => None) args_example cert_beside_example
               (Some (lit "/b/root/a.smt2")) world_beside in
  let target := smt2_target_of cert_beside_example in
  if isfile (w_files world_beside) target
  then out = (world_beside, Some (lit "/b/root/a.smt2"), target)
  else
    out.1.2 = Some (lit "/b/root/a.smt2") /\ out.2 = target /\
    w_files out.1.1 !! target = Some (lit "(check-sat)") /\
    w_files out.1.1 !! lit "/b/root/a.smt2"
      = (if a_no_move args_example then Some (lit "(check-sat)") else None) /\
    (forall p, p <> target -> p <> lit "/b/root/a.smt2" ->
               w_files out.1.1 !! p = w_files world_beside !! p).
Proof.
  apply (transfer_smt2_brings_companion (fun _ _ => None) args_example
           cert_beside_example (lit "/b/root/a.smt2") (lit "(check-sat)") world_beside).
  - vm_compute. reflexivity.
  - discriminate.
Defined.

Lemma moved_companion_still_named_witness :
  let s := lit "/b/root/a.smt2" in
  let w1 := (process_hole working_tool (fun _ _ => None) args_example
               cert_beside_example (lit "h1", 1) (Some s) world_beside).1 in
  let second := process_hole working_tool (fun _ _ => None) args_example
                  cert_beside_example (lit "h2", 5) (Some s) w1 in
  isfile (w_files w1) s = false /\
  isfile (w_files w1) (smt2_target_of cert_beside_example) = true /\
  exists rest,
    w_runs second.1 = w_runs w1 ++
      slice_cmd (lit "h2") (lit "/b/root/a.smt2.alethe") s true true :: rest.
Proof.
  apply (moved_companion_still_named working_tool (fun _ _ => None) args_example
           cert_beside_example (lit "h1") 1 (lit "h2") 5
           (Some (lit "/b/root/a.smt2")) world_beside).
  - reflexivity.
  - vm_compute. reflexivity.
  - discriminate.
  - vm_compute. reflexivity.
  - right. split; [reflexivity|]. vm_compute. discriminate.
  - vm_compute. discriminate.
  - vm_compute. discriminate.
  - vm_compute. discriminate.
  - vm_compute. discriminate.
  - vm_compute. reflexivity.
Defined.

(** ** A certificate that cannot be read *)

Lemma path_join_app_suffix d y a b :
  starts_with [47] (y ++ a) = starts_with [47] (y ++ b) ->
  exists pre, path_join d (y ++ a) = pre ++ y ++ a /\ path_join d (y ++ b) = pre ++ y ++ b.
Proof.
  intros H. unfold path_join. rewrite <- H.
  destruct (starts_with [47] (y ++ a)); [by exists []|].
  destruct (last d) as [c|]; [|by exists []].
  destruct (c =? 47); [by exists d|]. exists (d ++ [47]). by rewrite <- !app_assoc.
Qed.

Section Unreadable.

Variable tool : nat -> list (list Z) -> process.
Variable relpath : list Z -> list Z -> option (list Z).

(** X24: a certificate that cannot be opened, with its companion file
    beside it, ends the whole run: the body of the loop over file names
    raises OSError, and nothing is printed, started or appended for it. *)
Theorem unreadable_certificate_aborts (a : args)
    (root_abs root_name out_root_parent sliced_root dirpath rel_dir y : list Z)
    (w : world) :
  w_files w !! path_join dirpath (y ++ lit ".smt2.alethe") = None ->
  isfile (w_files w) (path_join dirpath (y ++ lit ".smt2")) = true ->
  process_file tool relpath a root_abs root_name out_root_parent sliced_root
    dirpath rel_dir (y ++ lit ".smt2.alethe") w
  = (w, Raise OSError).
Proof.
  intros Hcert Hcomp. unfold process_file. rewrite ends_with_app. cbn [negb].
  destruct (path_join_app_suffix dirpath y (lit ".smt2.alethe") (lit ".smt2"))
    as (pre & E1 & E2).
  { destruct y; reflexivity. }
  assert (Hsrc : find_smt2_beside (w_files w) (path_join dirpath (y ++ lit ".smt2.alethe"))
                 = Some (path_join dirpath (y ++ lit ".smt2"))).
  { rewrite E1, E2, !app_assoc, find_smt2_beside_companion.
    rewrite <- !app_assoc, <- E2. by rewrite Hcomp. }
  rewrite Hsrc.
  assert (Hu : usable_file (w_files w) (Some (path_join dirpath (y ++ lit ".smt2"))) = true).
  { unfold usable_file. cbn [default from_option id]. rewrite Hcomp, andb_true_r.
    rewrite E2. by destruct pre, y. }
  rewrite Hu.
  assert (Hholes : holes_in_alethe (w_files w) (path_join dirpath (y ++ lit ".smt2.alethe"))
                   = Raise OSError).
  { unfold holes_in_alethe, read_file_lines, read_text. by rewrite Hcert. }
  rewrite Hholes.
  destruct (find_existing_smt2_for_base _ _ _) as [[|c0 t0]|]; done.
Qed.

End Unreadable.

Lemma unreadable_certificate_aborts_witness :
  process_file working_tool (fun _ _ => None) args_example
    (lit "/b/root") (lit "root") (lit "/b") (lit "/b/sliced_proofs")
    (lit "/b/root") (lit ".") (lit "a" ++ lit ".smt2.alethe") world_unreadable
  = (world_unreadable, Raise OSError).
Proof.
  apply (unreadable_certificate_aborts working_tool (fun _ _ => None) args_example
           (lit "/b/root") (lit "root") (lit "/b") (lit "/b/sliced_proofs")
           (lit "/b/root") (lit ".") (lit "a") world_unreadable).
  - vm_compute. reflexivity.
  - vm_compute. reflexivity.
Defined.
